(** * Recommendation engine (backend/utils/recommender.js): a shallow embedding

    The engine is the class [RecommendationEngine]: an in-memory product
    feature index ([productFeatures]), an in-memory user-item matrix
    ([userItemMatrix]) and asynchronous operations that read the [Product] and
    [User] collections through mongoose.

    Modelling choices, stated once:
    - JavaScript numbers are exact rationals ([Q]); [===] on numbers is [Qeq].
      [Math.sqrt] is [Qsqrt], exact on perfect squares.
    - A JavaScript [Map] is an association list in insertion order: iteration
      order is observable in the code (stable sorts keep it on ties).
    - [Array.prototype.sort] is stable; it is an insertion sort here.
    - An [async] method is a computation over the [World] (collections, engine
      fields, and a schedule of database faults) that either returns a value
      or throws; [try]/[catch] is [try_catch]. Every database round trip
      takes the next entry of the schedule; the round trips of two calls
      awaited together with [Promise.all] alternate.
    - Object literals used as tables ([weights] in [getInteractionWeight],
      the counters of the statistics) are read on keys that name no member
      inherited from [Object.prototype]; the properties that depend on it
      say so.
    - [natural.TfIdf] is not part of the repository. The engine reaches it
      through one call, [this.tfidf.tfidf(i, j)], which the library reads as
      [tfidf(terms, d)]: the tf-idf weight, in document [d], of the terms of
      the string of [i]; it is a TypeError when document [d] does not exist.
      The weight itself is a parameter of the development. *)

From Stdlib Require Import List Bool Arith ZArith QArith Qround Qabs Qminmax.
From Stdlib Require Import String Ascii Lia Lqa Sorted Permutation.
From Stdlib Require Import DecimalString.
Import ListNotations.

Local Open Scope Q_scope.

(** ** JavaScript numbers *)

Module JSNum.

Definition Qgtb (x y : Q) : bool := negb (Qle_bool x y).
Definition Qeqb (x y : Q) : bool := Qeq_bool x y.

(** [Math.sqrt]: the square root truncated to 2^-64; exact whenever the
    argument is the square of a rational. *)
Definition sqrt_scale : Z := Z.pow 2 64.

Definition Qsqrt (x : Q) : Q :=
  let n := Qnum x in
  let d := Zpos (Qden x) in
  Qred (Qmake (Z.sqrt (n * d * (sqrt_scale * sqrt_scale)))
              (Z.to_pos (d * sqrt_scale))).

(** [x || 0] on a number or undefined. *)
Definition or_zero (o : option Q) : Q :=
  match o with Some q => q | None => 0 end.

(** [Math.ceil(limit * 0.7)] on a non-negative integer. *)
Definition ceil_07 (limit : nat) : nat :=
  Z.to_nat (Qceiling (inject_Z (Z.of_nat limit) * 0.7)).

End JSNum.
Import JSNum.

(** ** JavaScript [Map] and [Set], in insertion order *)

Module JSMap.
Section WithKey.
Context {K V : Type}.
Variable keq : K -> K -> bool.

Definition t := list (K * V).

Fixpoint get (m : list (K * V)) (k : K) : option V :=
  match m with
  | [] => None
  | (k', v) :: rest => if keq k' k then Some v else get rest k
  end.

Definition has (m : list (K * V)) (k : K) : bool :=
  match get m k with Some _ => true | None => false end.

(** [set] keeps the position of an existing key and appends a new one. *)
Fixpoint set (m : list (K * V)) (k : K) (v : V) : list (K * V) :=
  match m with
  | [] => [(k, v)]
  | (k', v') :: rest =>
      if keq k' k then (k', v) :: rest else (k', v') :: set rest k v
  end.

Definition keys (m : list (K * V)) : list K := List.map fst m.
Definition values (m : list (K * V)) : list V := List.map snd m.
Definition size (m : list (K * V)) : nat := List.length m.
End WithKey.
End JSMap.

Module JSSet.
Section WithKey.
Context {K : Type}.
Variable keq : K -> K -> bool.

Definition has (s : list K) (k : K) : bool := existsb (fun k' => keq k' k) s.
Definition add (s : list K) (k : K) : list K :=
  if has s k then s else s ++ [k].
End WithKey.
End JSSet.

(** ** [Array.prototype.sort], [slice(0, n)] *)

Section Sorting.
Context {A : Type}.
(** [cmp a b] is the comparator's result: negative or zero keeps [a] first. *)
Variable cmp : A -> A -> Q.

Fixpoint sort_insert (x : A) (l : list A) : list A :=
  match l with
  | [] => [x]
  | y :: rest =>
      if Qle_bool (cmp x y) 0 then x :: y :: rest
      else y :: sort_insert x rest
  end.

Definition js_sort (l : list A) : list A := fold_right sort_insert [] l.
End Sorting.

Definition slice0 {A : Type} (n : nat) (l : list A) : list A := firstn n l.

(** ** Documents of the two collections (models/Product.js, models/User.js) *)

Local Open Scope string_scope.
Local Open Scope list_scope.
Local Open Scope Q_scope.

Record Product := mkProduct {
  product_id : Z;
  product_name : string;
  category : string;
  subcategory : string;
  price : Q;
  manufacturer : string;
  description : string;
  rating : Q;
  is_featured : bool;
  is_on_sale : bool;
  view_count : Z;
  like_count : Z;
  purchase_count : Z
}.

Record Interaction := mkInteraction {
  i_productId : Z;
  i_type : string;
  i_timestamp : Z;
  i_rating : option Q
}.

Record User := mkUser {
  _id : string;
  interactions : list Interaction
}.

(** The schema constraints the claims rely on: [price: min 0],
    [rating: min 0, max 5]. *)
Definition product_valid (p : Product) : Prop :=
  0 <= price p /\ 0 <= rating p /\ rating p <= 5.

(** [interactions.type] has [enum: view, like, purchase, cart_add];
    [interactions.rating] has [min: 1, max: 5] and may be null. *)
Definition valid_type (ty : string) : bool :=
  existsb (String.eqb ty) ["view"; "like"; "purchase"; "cart_add"].

Definition valid_rating (r : option Q) : bool :=
  match r with
  | None => true
  | Some q => Qle_bool 1 q && Qle_bool q 5
  end.

Definition validate_interaction (i : Interaction) : bool :=
  valid_type (i_type i) && valid_rating (i_rating i).

(** A stored user document whose interactions all satisfy the schema, as
    every document written through [save] does. *)
Definition interactions_valid (u : User) : Prop :=
  forallb validate_interaction (interactions u) = true.

(** ** Engine records *)

Record Features := mkFeatures {
  f_category : string;
  f_subcategory : string;
  f_price : Q;
  f_rating : Q;
  f_is_featured : bool;
  f_is_on_sale : bool;
  f_manufacturer : string;
  textIndex : nat
}.

Inductive RecType := content_based | collaborative | hybrid | fallback.

(** A recommendation: the product document spread into the object, plus
    [similarity_score], [recommendation_type] and, after blending,
    [combined_score]. *)
Record Rec := mkRec {
  rec_product : Product;
  similarity_score : Q;
  recommendation_type : RecType;
  combined_score : option Q
}.

Definition rec_id (r : Rec) : Z := product_id (rec_product r).

Definition Matrix := list (string * list (Z * Q)).

(** ** The world an operation runs in *)

Record World := mkWorld {
  db_products : list Product;
  db_users : list User;
  db_faults : list bool;
  clock : Z;
  tfidf_documents : list string;
  productFeatures : list (Z * Features);
  userItemMatrix : Matrix
}.

Inductive JSError :=
| MongoError
| ValidationError
| TypeError
| NamedError (name : string).

Inductive Outcome (A : Type) :=
| Return (a : A)
| Throw (e : JSError).
Arguments Return {A} a.
Arguments Throw {A} e.

Definition M (A : Type) := World -> Outcome A * World.

Definition ret {A} (a : A) : M A := fun w => (Return a, w).
Definition throw {A} (e : JSError) : M A := fun w => (Throw e, w).

Definition bind {A B} (c : M A) (k : A -> M B) : M B :=
  fun w =>
    match c w with
    | (Return a, w') => k a w'
    | (Throw e, w') => (Throw e, w')
    end.

(** [try { body } catch (error) { handler }]: the handler runs in the world
    the body left behind; nothing is rolled back. *)
Definition try_catch {A} (body : M A) (handler : JSError -> M A) : M A :=
  fun w =>
    match body w with
    | (Return a, w') => (Return a, w')
    | (Throw e, w') => handler e w'
    end.

Definition gets {A} (f : World -> A) : M A := fun w => (Return (f w), w).
(** A synchronous call that returns or throws. *)
Definition lift {A} (o : Outcome A) : M A := fun w => (o, w).
Definition modify (f : World -> World) : M unit := fun w => (Return tt, f w).

Declare Scope js_scope.
Delimit Scope js_scope with js.
Notation "x <- c ;; k" := (bind c (fun x => k))
  (at level 61, c at next level, right associativity) : js_scope.
Notation "c ;;; k" := (bind c (fun _ => k))
  (at level 61, right associativity) : js_scope.
Local Open Scope js_scope.

Definition returns {A} (c : M A) (w : World) : Prop :=
  exists a w', c w = (Return a, w').

(** ** The database collaborator *)

Definition set_faults (fs : list bool) (w : World) : World :=
  mkWorld (db_products w) (db_users w) fs (clock w) (tfidf_documents w)
          (productFeatures w) (userItemMatrix w).
Definition set_products (ps : list Product) (w : World) : World :=
  mkWorld ps (db_users w) (db_faults w) (clock w) (tfidf_documents w)
          (productFeatures w) (userItemMatrix w).
Definition set_users (us : list User) (w : World) : World :=
  mkWorld (db_products w) us (db_faults w) (clock w) (tfidf_documents w)
          (productFeatures w) (userItemMatrix w).
Definition set_matrix (m : Matrix) (w : World) : World :=
  mkWorld (db_products w) (db_users w) (db_faults w) (clock w)
          (tfidf_documents w) (productFeatures w) m.
Definition set_index (docs : list string) (pf : list (Z * Features))
    (w : World) : World :=
  mkWorld (db_products w) (db_users w) (db_faults w) (clock w) docs pf
          (userItemMatrix w).

(** One round trip: the next entry of the fault schedule says whether the
    driver rejects it. *)
Definition db_call : M unit :=
  fun w =>
    match db_faults w with
    | [] => (Return tt, w)
    | false :: fs => (Return tt, set_faults fs w)
    | true :: fs => (Throw MongoError, set_faults fs w)
    end.

(** [cursor.limit(n)]: a limit of 0 is no limit. *)
Definition db_limit {A} (n : nat) (l : list A) : list A :=
  match n with O => l | _ => firstn n l end.

Definition bool_num (b : bool) : Q := if b then 1 else 0.

(** [.sort({ rating: -1, view_count: -1, is_featured: -1 })] *)
Definition popularity_cmp (a b : Product) : Q :=
  if negb (Qeqb (rating a) (rating b)) then rating b - rating a
  else if negb (Z.eqb (view_count a) (view_count b))
       then inject_Z (view_count b - view_count a)
       else bool_num (is_featured b) - bool_num (is_featured a).

Definition Product_findOne (pid : Z) : M (option Product) :=
  db_call ;;;
  gets (fun w => find (fun p => Z.eqb (product_id p) pid) (db_products w)).

Definition Product_find_ne (pid : Z) : M (list Product) :=
  db_call ;;;
  gets (fun w =>
          filter (fun p => negb (Z.eqb (product_id p) pid)) (db_products w)).

Definition Product_find_in (ids : list Z) : M (list Product) :=
  db_call ;;;
  gets (fun w =>
          filter (fun p => existsb (Z.eqb (product_id p)) ids) (db_products w)).

Definition Product_find_popular (limit : nat) : M (list Product) :=
  db_call ;;;
  gets (fun w => db_limit limit (js_sort popularity_cmp (db_products w))).

Definition User_findById (uid : string) : M (option User) :=
  db_call ;;;
  gets (fun w => find (fun u => String.eqb (_id u) uid) (db_users w)).

Fixpoint replace_first {A} (same : A -> bool) (x : A) (l : list A) : list A :=
  match l with
  | [] => []
  | y :: rest => if same y then x :: rest else y :: replace_first same x rest
  end.

(** [user.save()]: the document is validated first, every subdocument of the
    modified [interactions] array against the schema, then written. *)
Definition user_save (u : User) : M unit :=
  if forallb validate_interaction (interactions u) then
    db_call ;;;
    modify (fun w =>
      set_users (replace_first (fun u' => String.eqb (_id u') (_id u)) u
                               (db_users w)) w)
  else throw ValidationError.

Definition product_save (p : Product) : M unit :=
  db_call ;;;
  modify (fun w =>
    set_products
      (replace_first (fun p' => Z.eqb (product_id p') (product_id p)) p
                     (db_products w)) w).

(** models/User.js, [addInteraction]; [new Date()] reads the clock, which
    the environment advances between operations. *)
Definition addInteraction (u : User) (pid : Z) (ty : string)
    (r : option Q) : M unit :=
  now <- gets clock ;;
  let i := mkInteraction pid ty now r in
  user_save (mkUser (_id u) (interactions u ++ [i])).

(** models/Product.js, the three counters *)
Definition incrementViewCount (p : Product) : M unit :=
  product_save (mkProduct (product_id p) (product_name p) (category p)
    (subcategory p) (price p) (manufacturer p) (description p) (rating p)
    (is_featured p) (is_on_sale p) (view_count p + 1) (like_count p)
    (purchase_count p)).
Definition incrementLikeCount (p : Product) : M unit :=
  product_save (mkProduct (product_id p) (product_name p) (category p)
    (subcategory p) (price p) (manufacturer p) (description p) (rating p)
    (is_featured p) (is_on_sale p) (view_count p) (like_count p + 1)
    (purchase_count p)).
Definition incrementPurchaseCount (p : Product) : M unit :=
  product_save (mkProduct (product_id p) (product_name p) (category p)
    (subcategory p) (price p) (manufacturer p) (description p) (rating p)
    (is_featured p) (is_on_sale p) (view_count p) (like_count p)
    (purchase_count p + 1)).

(** ** The engine (class RecommendationEngine) *)

Definition mget {V} := @JSMap.get Z V Z.eqb.
Definition mhas {V} := @JSMap.has Z V Z.eqb.
Definition mset {V} := @JSMap.set Z V Z.eqb.
Definition uget {V} := @JSMap.get string V String.eqb.
Definition uset {V} := @JSMap.set string V String.eqb.

(** The names every object literal inherits from [Object.prototype]. *)
Definition object_prototype_keys : list string :=
  ["constructor"; "hasOwnProperty"; "isPrototypeOf"; "propertyIsEnumerable";
   "toLocaleString"; "toString"; "valueOf"; "__proto__";
   "__defineGetter__"; "__defineSetter__"; "__lookupGetter__";
   "__lookupSetter__"].

Definition inherited_key (k : string) : bool :=
  existsb (String.eqb k) object_prototype_keys.

(** [getInteractionWeight]: [weights[type] || 1]. The lookup is a number
    for every type that is not an [inherited_key]; for an inherited key it
    yields the inherited member, which is not a number: those types are
    outside the domain of this definition, and the schema of [User] keeps
    them out of every saved interaction. *)
Definition getInteractionWeight (ty : string) : Q :=
  if String.eqb ty "view" then 1
  else if String.eqb ty "like" then 3
  else if String.eqb ty "cart_add" then 5
  else if String.eqb ty "purchase" then 10
  else 1.

(** A product id used as a condition: 0 is falsy. *)
Definition truthy_id (id : Z) : bool := negb (Z.eqb id 0).

(** The comparator [(a, b) => b.score - a.score]. *)
Definition desc_by {A} (score : A -> Q) (a b : A) : Q := score b - score a.

(** [String(i)] for a non-negative integer. *)
Definition decimal (i : nat) : string :=
  NilEmpty.string_of_uint (Nat.to_uint i).

Section Engine.

(** natural's [tfidf(terms, d)] over the documents added so far: the
    tf-idf weight of [terms] in document [d], for a document that exists. *)
Variable tfidf_measure : list string -> string -> nat -> Q.
(** Lower-casing and word-by-word Porter stemming of the joined text. *)
Variable stem_text : string -> string.

(** *** buildProductFeatures *)
Definition product_text (p : Product) : string :=
  String.concat " " [product_name p; description p; category p;
                     subcategory p; manufacturer p].

Definition index_product (st : list string * list (Z * Features))
    (p : Product) : list string * list (Z * Features) :=
  let docs := fst st ++ [stem_text (product_text p)] in
  (docs,
   mset (snd st) (product_id p)
     (mkFeatures (category p) (subcategory p) (price p) (rating p)
        (is_featured p) (is_on_sale p) (manufacturer p)
        (List.length docs - 1)%nat)).

Definition buildProductFeatures (products : list Product) : M unit :=
  modify (fun w =>
    let st := fold_left index_product products ([], productFeatures w) in
    set_index (fst st) (snd st) w).

(** *** buildUserItemMatrix, initialize *)
Definition user_row (u : User) : list (Z * Q) :=
  fold_left
    (fun userInteractions interaction =>
       let weight := getInteractionWeight (i_type interaction) in
       let currentWeight :=
         or_zero (mget userInteractions (i_productId interaction)) in
       mset userInteractions (i_productId interaction)
         (currentWeight + weight))
    (interactions u) [].

Definition buildUserItemMatrix : M unit :=
  try_catch
    (db_call ;;;
     users <- gets db_users ;;
     modify (fun w =>
       set_matrix
         (fold_left (fun m u => uset m (_id u) (user_row u)) users
            (userItemMatrix w)) w))
    (fun _ => ret tt).

Definition initialize : M unit :=
  try_catch
    (db_call ;;;
     products <- gets db_products ;;
     buildProductFeatures products ;;;
     buildUserItemMatrix)
    (fun _ => ret tt).

(** *** calculateProductSimilarity *)
(** [this.tfidf.tfidf(i, j)] with two document indexes: the first is turned
    into its decimal string and read as the terms, the second selects the
    document; reading a term in a document that does not exist is a
    TypeError. *)
Definition tfidf_call (docs : list string) (i j : nat) : Outcome Q :=
  if Nat.ltb j (List.length docs)
  then Return (tfidf_measure docs (decimal i) j)
  else Throw TypeError.

(** The body of the function after the tf-idf call. *)
Definition similarity_from (textSimilarity : Q) (features1 features2 : Features)
    : Q :=
  let similarity := 0 in
  let similarity := similarity + textSimilarity * 0.4 in
  let similarity :=
    if String.eqb (f_category features1) (f_category features2) then
      let similarity := similarity + 0.3 in
      if String.eqb (f_subcategory features1) (f_subcategory features2)
      then similarity + 0.1 else similarity
    else similarity in
  let priceDiff := Qabs (f_price features1 - f_price features2) in
  let maxPrice := Qmax (f_price features1) (f_price features2) in
  let priceSimilarity :=
    if Qgtb maxPrice 0 then 1 - priceDiff / maxPrice else 1 in
  let similarity := similarity + priceSimilarity * 0.1 in
  let ratingDiff := Qabs (f_rating features1 - f_rating features2) in
  let ratingSimilarity := 1 - ratingDiff / 5 in
  let similarity := similarity + ratingSimilarity * 0.1 in
  Qmin similarity 1.

Definition calculateProductSimilarity (docs : list string)
    (pf : list (Z * Features)) (productId1 productId2 : Z) : Outcome Q :=
  match mget pf productId1, mget pf productId2 with
  | Some features1, Some features2 =>
      match tfidf_call docs (textIndex features1) (textIndex features2) with
      | Return textSimilarity =>
          Return (similarity_from textSimilarity features1 features2)
      | Throw e => Throw e
      end
  | _, _ => Return 0
  end.

(** *** getFallbackRecommendations *)
Definition fallback_rec (p : Product) : Rec :=
  mkRec p (rating p / 5) fallback None.

Definition fallback_body (limit : nat) : M (list Rec) :=
  products <- Product_find_popular limit ;;
  ret (map fallback_rec products).

Definition getFallbackRecommendations (limit : nat) : M (list Rec) :=
  try_catch (fallback_body limit) (fun _ => ret []).

(** *** getContentBasedRecommendations *)
(** The [for] loop filling [similarities]; an exception of
    [calculateProductSimilarity] ends it. *)
Fixpoint similarities_of (docs : list string) (pf : list (Z * Features))
    (target : Z) (allProducts : list Product)
    : Outcome (list (Product * Q)) :=
  match allProducts with
  | [] => Return []
  | product :: rest =>
      match calculateProductSimilarity docs pf target (product_id product)
      with
      | Throw e => Throw e
      | Return similarity =>
          match similarities_of docs pf target rest with
          | Throw e => Throw e
          | Return similarities =>
              Return (if Qgtb similarity 0
                      then (product, similarity) :: similarities
                      else similarities)
          end
      end
  end.

Definition content_rec (item : Product * Q) : Rec :=
  mkRec (fst item) (snd item) content_based None.

(** The final [.sort(...).slice(0, limit).map(...)]. *)
Definition rankSimilarTo (similarities : list (Product * Q)) (limit : nat)
    : list Rec :=
  map content_rec (slice0 limit (js_sort (desc_by snd) similarities)).

(** From [if (!targetProduct)] to the end of the [try] block. *)
Definition content_from_target (targetProduct : option Product)
    (limit : nat) : M (list Rec) :=
  match targetProduct with
  | None => getFallbackRecommendations limit
  | Some tp =>
      pf <- gets productFeatures ;;
      match mget pf (product_id tp) with
      | None => getFallbackRecommendations limit
      | Some _ =>
          allProducts <- Product_find_ne (product_id tp) ;;
          docs <- gets tfidf_documents ;;
          similarities <-
            lift (similarities_of docs pf (product_id tp) allProducts) ;;
          ret (rankSimilarTo similarities limit)
      end
  end.

Definition sortedInteractions (l : list Interaction) : list Interaction :=
  js_sort (desc_by (fun i => getInteractionWeight (i_type i)))
    (js_sort (desc_by (fun i => inject_Z (i_timestamp i))) l).

(** The [else] branch: the anchor is the product of the first interaction
    after sorting by recency and then by weight. *)
Definition content_from_history (userId : string) (limit : nat)
    : M (list Rec) :=
  user <- User_findById userId ;;
  match user with
  | None => getFallbackRecommendations limit
  | Some u =>
      if Nat.eqb (List.length (interactions u)) 0
      then getFallbackRecommendations limit
      else
        match sortedInteractions (interactions u) with
        | first :: _ =>
            targetProduct <- Product_findOne (i_productId first) ;;
            content_from_target targetProduct limit
        | [] => throw TypeError
        end
  end.

(** [if (productId)]: null and 0 both take the [else] branch. *)
Definition content_body (userId : string) (productId : option Z)
    (limit : nat) : M (list Rec) :=
  match productId with
  | Some pid =>
      if truthy_id pid then
        targetProduct <- Product_findOne pid ;;
        content_from_target targetProduct limit
      else content_from_history userId limit
  | None => content_from_history userId limit
  end.

Definition getContentBasedRecommendations (userId : string)
    (productId : option Z) (limit : nat) : M (list Rec) :=
  try_catch (content_body userId productId limit)
    (fun _ => getFallbackRecommendations limit).

(** *** calculateUserSimilarity *)
Definition commonItems (interactions1 interactions2 : list (Z * Q))
    : list Z :=
  fold_left
    (fun common productId =>
       if mhas interactions2 productId
       then JSSet.add Z.eqb common productId else common)
    (JSMap.keys interactions1) [].

Definition calculateUserSimilarity (interactions1 interactions2
    : list (Z * Q)) : Q :=
  let common := commonItems interactions1 interactions2 in
  if Nat.eqb (List.length common) 0 then 0
  else
    let '(dotProduct, norm1, norm2) :=
      fold_left
        (fun acc productId =>
           let '(dotProduct, norm1, norm2) := acc in
           let weight1 := or_zero (mget interactions1 productId) in
           let weight2 := or_zero (mget interactions2 productId) in
           (dotProduct + weight1 * weight2,
            norm1 + weight1 * weight1,
            norm2 + weight2 * weight2))
        common (0, 0, 0) in
    if Qeqb norm1 0 || Qeqb norm2 0 then 0
    else dotProduct / (Qsqrt norm1 * Qsqrt norm2).

(** *** findSimilarUsers *)
Definition findSimilarUsers (matrix : Matrix) (userId : string)
    (limit : nat) : list (string * Q) :=
  match uget matrix userId with
  | None => []
  | Some userInteractions =>
      let similarities :=
        flat_map
          (fun entry =>
             let '(otherUserId, otherInteractions) := entry in
             if negb (String.eqb otherUserId userId)
                && Nat.ltb 0 (JSMap.size otherInteractions)
             then
               let similarity :=
                 calculateUserSimilarity userInteractions otherInteractions
               in
               if Qgtb similarity 0.1 then [(otherUserId, similarity)]
               else []
             else [])
          matrix in
      slice0 limit (js_sort (desc_by snd) similarities)
  end.

(** *** getCollaborativeRecommendations *)
(** The two nested [for] loops filling the [recommendations] map. *)
Definition add_neighbour_items (userInteractions : list (Z * Q))
    (similarity : Q) (recommendations : list (Z * Q))
    (similarUserInteractions : list (Z * Q)) : list (Z * Q) :=
  fold_left
    (fun recs entry =>
       let '(productId, weight) := entry in
       if negb (mhas userInteractions productId) then
         let currentScore := or_zero (mget recs productId) in
         mset recs productId (currentScore + weight * similarity)
       else recs)
    similarUserInteractions recommendations.

Definition aggregate (matrix : Matrix) (userInteractions : list (Z * Q))
    (similarUsers : list (string * Q)) : list (Z * Q) :=
  fold_left
    (fun recs su =>
       let '(similarUserId, similarity) := su in
       match uget matrix similarUserId with
       | Some similarUserInteractions =>
           add_neighbour_items userInteractions similarity recs
             similarUserInteractions
       | None => recs
       end)
    similarUsers [].

Definition sortedRecommendations (recommendations : list (Z * Q))
    (limit : nat) : list (Z * Q) :=
  slice0 limit (js_sort (desc_by snd) recommendations).

(** The final [.map]: [product.toObject()] on a product the query did not
    return is a TypeError. *)
Fixpoint attach_products (products : list Product)
    (sorted : list (Z * Q)) : M (list Rec) :=
  match sorted with
  | [] => ret []
  | (productId, score) :: rest =>
      match find (fun p => Z.eqb (product_id p) productId) products with
      | None => throw TypeError
      | Some product =>
          recs <- attach_products products rest ;;
          ret (mkRec product score collaborative None :: recs)
      end
  end.

(** From [// Fetch product details] to the end of the [try] block. *)
Definition collaborative_fetch (sorted : list (Z * Q)) : M (list Rec) :=
  let productIds := map fst sorted in
  products <- Product_find_in productIds ;;
  recs <- attach_products products sorted ;;
  ret (filter (fun item => truthy_id (rec_id item)) recs).

Definition collaborative_body (userId : string) (limit : nat)
    : M (list Rec) :=
  matrix <- gets userItemMatrix ;;
  match uget matrix userId with
  | None => getFallbackRecommendations limit
  | Some userInteractions =>
      if Nat.eqb (JSMap.size userInteractions) 0
      then getFallbackRecommendations limit
      else
        let similarUsers := findSimilarUsers matrix userId 10 in
        if Nat.eqb (List.length similarUsers) 0
        then getFallbackRecommendations limit
        else
          let recommendations :=
            aggregate matrix userInteractions similarUsers in
          collaborative_fetch
            (sortedRecommendations recommendations limit)
  end.

Definition getCollaborativeRecommendations (userId : string) (limit : nat)
    : M (list Rec) :=
  try_catch (collaborative_body userId limit)
    (fun _ => getFallbackRecommendations limit).

(** *** getHybridRecommendations *)
Definition with_combined (rec : Rec) (score : Q) : Rec :=
  mkRec (rec_product rec) (similarity_score rec) hybrid (Some score).

Definition add_content (combinedRecs : list (Z * Rec)) (rec : Rec)
    : list (Z * Rec) :=
  mset combinedRecs (rec_id rec)
    (with_combined rec (similarity_score rec * 0.6)).

Definition add_collab (combinedRecs : list (Z * Rec)) (rec : Rec)
    : list (Z * Rec) :=
  match mget combinedRecs (rec_id rec) with
  | Some existing =>
      mset combinedRecs (rec_id rec)
        (mkRec (rec_product existing) (similarity_score existing)
           (recommendation_type existing)
           (Some (or_zero (combined_score existing)
                  + similarity_score rec * 0.4)))
  | None =>
      mset combinedRecs (rec_id rec)
        (with_combined rec (similarity_score rec * 0.4))
  end.

Definition combine (contentRecs collabRecs : list Rec) : list (Z * Rec) :=
  fold_left add_collab collabRecs (fold_left add_content contentRecs []).

Definition blend (contentRecs collabRecs : list Rec) (limit : nat)
    : list Rec :=
  slice0 limit
    (js_sort (desc_by (fun r => or_zero (combined_score r)))
       (JSMap.values (combine contentRecs collabRecs))).

(** [await Promise.all([first, second])] over two calls that only read the
    world. Both are started before either is awaited, and each runs up to
    its next database round trip in turn: the round trips of the two
    alternate, the first call's ahead, until one call is done; the other
    then has the rest of the fault schedule to itself. *)
Fixpoint evens (l : list bool) : list bool :=
  match l with
  | x :: _ :: rest => x :: evens rest
  | short => short
  end.

Definition odds (l : list bool) : list bool := evens (tl l).

(** The number of round trips a call makes when they meet the faults [fs]:
    the entries it takes off a schedule that continues [fs] with eight round
    trips that succeed. No operation of the engine makes more than four. *)
Definition round_trips {A} (c : M A) (fs : list bool) (w : World) : nat :=
  let schedule := fs ++ repeat false 8 in
  (List.length schedule
   - List.length (db_faults (snd (c (set_faults schedule w)))))%nat.

Definition promise_all2 {A B} (first : M A) (second : M B) : M (A * B) :=
  fun w =>
    let fs := db_faults w in
    let n1 := round_trips first (evens fs) w in
    let n2 := round_trips second (odds fs) w in
    let fs1 :=
      if Nat.leb n1 n2 then evens fs
      else firstn (S n2) (evens fs) ++ skipn (S (2 * n2)) fs in
    let fs2 :=
      if Nat.leb n1 n2 then firstn n1 (odds fs) ++ skipn (2 * n1) fs
      else odds fs in
    let used := (round_trips first fs1 w + round_trips second fs2 w)%nat in
    let w' := set_faults (skipn used fs) w in
    match fst (first (set_faults fs1 w)), fst (second (set_faults fs2 w)) with
    | Return a, Return b => (Return (a, b), w')
    | Throw e, _ => (Throw e, w')
    | Return _, Throw e => (Throw e, w')
    end.

Definition hybrid_body (userId : string) (limit : nat) : M (list Rec) :=
  lists <-
    promise_all2
      (getContentBasedRecommendations userId None (ceil_07 limit))
      (getCollaborativeRecommendations userId (ceil_07 limit)) ;;
  let '(contentRecs, collabRecs) := lists in
  ret (blend contentRecs collabRecs limit).

Definition getHybridRecommendations (userId : string) (limit : nat)
    : M (list Rec) :=
  try_catch (hybrid_body userId limit)
    (fun _ => getFallbackRecommendations limit).

(** *** updateUserInteraction *)
Definition update_metrics (product : Product) (interactionType : string)
    : M unit :=
  if String.eqb interactionType "view" then incrementViewCount product
  else if String.eqb interactionType "like" then incrementLikeCount product
  else if String.eqb interactionType "purchase"
       then incrementPurchaseCount product
       else ret tt.

Definition update_matrix (userId : string) (productId : Z)
    (interactionType : string) (matrix : Matrix) : Matrix :=
  let userInteractions :=
    match uget matrix userId with Some row => row | None => [] end in
  let weight := getInteractionWeight interactionType in
  let currentWeight := or_zero (mget userInteractions productId) in
  uset matrix userId
    (mset userInteractions productId (currentWeight + weight)).

Definition update_body (userId : string) (productId : Z)
    (interactionType : string) (rating : option Q) : M unit :=
  user <- User_findById userId ;;
  match user with
  | Some u =>
      addInteraction u productId interactionType rating ;;;
      modify (fun w =>
        set_matrix
          (update_matrix userId productId interactionType
             (userItemMatrix w)) w) ;;;
      product <- Product_findOne productId ;;
      match product with
      | Some p => update_metrics p interactionType
      | None => ret tt
      end
  | None => ret tt
  end.

Definition updateUserInteraction (userId : string) (productId : Z)
    (interactionType : string) (rating : option Q) : M unit :=
  try_catch (update_body userId productId interactionType rating)
    (fun _ => ret tt).

End Engine.

(** * Specification vocabulary *)

(** ** Worlds that differ only in the remaining fault schedule *)

Definition same_data (w w' : World) : Prop :=
  exists fs, w' = set_faults fs w.

(** A computation that only reads: it always leaves the data alone, and
    without pending faults it leaves the world alone. *)
Definition reads_only {A} (c : M A) : Prop :=
  forall w, same_data w (snd (c w)) /\
            (db_faults w = [] -> snd (c w) = w).

(** A computation that leaves the world as it was but for the faults its
    round trips have met, the first [n] of the schedule. *)
Definition consumes {A} (c : M A) : Prop :=
  forall w, exists n, snd (c w) = set_faults (skipn n (db_faults w)) w.

(** The list [getFallbackRecommendations] computes when the query succeeds. *)
Definition fallback_list (products : list Product) (limit : nat) : list Rec :=
  map fallback_rec (db_limit limit (js_sort popularity_cmp products)).

Definition is_fallback (r : Rec) : Prop := recommendation_type r = fallback.


(** ** The five similarity terms, in the words of the specification *)

Definition unit_interval (q : Q) : Prop := 0 <= q /\ q <= 1.

Definition features_valid (f : Features) : Prop :=
  0 <= f_price f /\ 0 <= f_rating f /\ f_rating f <= 5.

Section SpecTerms.
Variable tfidf_measure : list string -> string -> nat -> Q.
Variable docs : list string.
Variables a b : Features.

(** The value the tf-idf call returns for the pair. *)
Definition text_term : Q :=
  tfidf_measure docs (decimal (textIndex a)) (textIndex b).

Definition category_term : Q :=
  if String.eqb (f_category a) (f_category b) then 1 else 0.

Definition subcategory_term : Q :=
  if String.eqb (f_category a) (f_category b)
     && String.eqb (f_subcategory a) (f_subcategory b)
  then 1 else 0.

Definition price_term : Q :=
  if Qeqb (f_price a) 0 && Qeqb (f_price b) 0 then 1
  else 1 - Qabs (f_price a - f_price b) / Qmax (f_price a) (f_price b).

Definition rating_term : Q := 1 - Qabs (f_rating a - f_rating b) / 5.

Definition weighted_sum : Q :=
  text_term * 0.40 + category_term * 0.30 + subcategory_term * 0.10
  + price_term * 0.10 + rating_term * 0.10.
End SpecTerms.

(** ** The blend, read back by item *)

(** The combined score the blend holds for an item, if it holds one. *)
Definition combined_of (combinedRecs : list (Z * Rec)) (id : Z) : option Q :=
  match mget combinedRecs id with
  | Some r => combined_score r
  | None => None
  end.

(** The record [add_collab] writes for [rec]. *)
Definition collab_entry (combinedRecs : list (Z * Rec)) (rec : Rec) : Rec :=
  match mget combinedRecs (rec_id rec) with
  | Some existing =>
      mkRec (rec_product existing) (similarity_score existing)
        (recommendation_type existing)
        (Some (or_zero (combined_score existing)
               + similarity_score rec * 0.4))
  | None => with_combined rec (similarity_score rec * 0.4)
  end.

(** Every key is the id of its record, every record is tagged hybrid, and
    no key occurs twice. *)
Definition blend_ok (m : list (Z * Rec)) : Prop :=
  NoDup (JSMap.keys m) /\
  forall k r, In (k, r) m -> k = rec_id r /\ recommendation_type r = hybrid.

(** Every value the computation can return satisfies [P]. *)
Definition yields {A} (P : A -> Prop) (c : M A) : Prop :=
  forall w a w', c w = (Return a, w') -> P a.

(** The same, for runs over the data of the world [w0]. *)
Definition yields_at (w0 : World) {A} (P : A -> Prop) (c : M A) : Prop :=
  forall w a w', same_data w0 w -> c w = (Return a, w') -> P a.

(** Descending order of a score. *)
Definition descending {A} (score : A -> Q) : list A -> Prop :=
  StronglySorted (fun x y => score y <= score x).

(** A ranked list: descending scores, at most [limit] records. *)
Definition ranked (limit : nat) (recs : list Rec) : Prop :=
  descending similarity_score recs /\ (List.length recs <= limit)%nat.

(** [l1] is [l2] with some elements left out, the others in their order. *)
Inductive subseq {A : Type} : list A -> list A -> Prop :=
| subseq_nil : forall l, subseq [] l
| subseq_skip : forall x l1 l2, subseq l1 l2 -> subseq l1 (x :: l2)
| subseq_take : forall x l1 l2, subseq l1 l2 -> subseq (x :: l1) (x :: l2).

Definition RecType_eqb (a b : RecType) : bool :=
  match a, b with
  | content_based, content_based => true
  | collaborative, collaborative => true
  | hybrid, hybrid => true
  | fallback, fallback => true
  | _, _ => false
  end.

(** The records of one kind that share the score [s]. *)
Definition tied_at (kind : RecType) (s : Q) (recs : list Rec) : list Rec :=
  filter (fun r => RecType_eqb (recommendation_type r) kind
                   && Qeqb (similarity_score r) s) recs.

(** The candidates of the content ranking for [target], as the query
    enumerates them. *)
Definition content_candidates (w : World) (target : Z) : list Product :=
  filter (fun p => negb (Z.eqb (product_id p) target)) (db_products w).

(** ** Reading a result list *)

Definition key_score (r : Rec) : Z * Q := (rec_id r, similarity_score r).

Definition is_collaborative (r : Rec) : Prop :=
  recommendation_type r = collaborative.

(** The ranked pairs [getCollaborativeRecommendations] works from when user
    [uid] has the row [ui]. *)
Definition collaborative_ranking (matrix : Matrix) (uid : string)
    (ui : list (Z * Q)) (limit : nat) : list (Z * Q) :=
  sortedRecommendations
    (aggregate matrix ui (findSimilarUsers matrix uid 10)) limit.

(** ** A user without interactions *)

Definition no_interactions (w : World) (uid : string) : Prop :=
  match find (fun u => String.eqb (_id u) uid) (db_users w) with
  | Some u => interactions u = []
  | None => True
  end /\
  match uget (userItemMatrix w) uid with
  | Some row => row = []
  | None => True
  end.

(** A record that entered the blend from both lists with the same score. *)
Definition blended (r : Rec) : Rec :=
  with_combined r (similarity_score r * 0.6 + similarity_score r * 0.4).

(** ** Concrete worlds used to exercise the operations *)

Module Scenario.

Definition item (id : Z) (cat : string) (p r : Q) : Product :=
  mkProduct id "item" cat "general" p "acme" "an item" r false false 0 0 0.

(** Six products, two users without interactions, an empty engine. *)
Definition shop : World :=
  mkWorld
    [item 1 "electronics" 100 4; item 2 "electronics" 110 4.5;
     item 3 "books" 15 3; item 4 "books" 20 5; item 5 "toys" 5 2;
     item 6 "toys" 7 1]
    [mkUser "A" []; mkUser "B" []] [] 0 [] [] [].

(** The same shop after [initialize], with a stemmer that leaves the text
    as it is. *)
Definition indexed : World := snd (initialize (fun s => s) shop).

Definition features_1 : Features :=
  mkFeatures "electronics" "general" 100 4 false false "acme" 0.
Definition features_2 : Features :=
  mkFeatures "electronics" "general" 110 4.5 false false "acme" 1.

(** A library that gives every term the weight 0 in every document. *)
Definition no_text (_ : list string) (_ : string) (_ : nat) : Q := 0.

(** One recorded event; a second passes before the next one. *)
Definition tick (w : World) : World :=
  mkWorld (db_products w) (db_users w) (db_faults w) (clock w + 1)
          (tfidf_documents w) (productFeatures w) (userItemMatrix w).

Definition record (uid : string) (pid : Z) (ty : string) (w : World)
    : World :=
  tick (snd (updateUserInteraction uid pid ty None w)).

(** A purchases item 1; B likes item 1 and purchases item 2. *)
Definition after_events : World :=
  record "B" 2 "purchase" (record "B" 1 "like" (record "A" 1 "purchase" shop)).

(** A purchased item 1 and nobody else has interacted. *)
Definition lone_buyer : World := record "A" 1 "purchase" shop.

Definition content_list : list Rec :=
  [mkRec (item 1 "electronics" 100 4) 0.5 content_based None;
   mkRec (item 2 "electronics" 110 4.5) 0.25 content_based None].
Definition collab_list : list Rec :=
  [mkRec (item 2 "electronics" 110 4.5) 10 collaborative None;
   mkRec (item 3 "books" 15 3) 5 collaborative None].

(** B's row lists item 3 before item 2, both with weight 5. *)
Definition tied : World :=
  record "B" 2 "cart_add"
    (record "B" 3 "cart_add"
       (record "B" 1 "purchase" (record "A" 1 "purchase" shop))).

(** The same state with the index and the matrix rebuilt. *)
Definition busy : World := snd (initialize (fun s => s) tied).

End Scenario.

(** * Vocabulary for the further properties *)

(** Every indexed product points at a document that exists, as after
    [buildProductFeatures] on an engine that held no features. *)
Definition index_consistent (docs : list string) (pf : list (Z * Features))
    : Prop :=
  forall id f, mget pf id = Some f -> (textIndex f < List.length docs)%nat.

(** The accumulated weight the matrix holds for a user and an item. *)
Definition row_of (m : Matrix) (uid : string) : list (Z * Q) :=
  match uget m uid with Some row => row | None => [] end.

Definition vectorFor (m : Matrix) (uid : string) (pid : Z) : Q :=
  or_zero (mget (row_of m uid) pid).

Definition find_user (w : World) (uid : string) : option User :=
  find (fun u => String.eqb (_id u) uid) (db_users w).

Definition find_product (w : World) (pid : Z) : option Product :=
  find (fun p => Z.eqb (product_id p) pid) (db_products w).

(** The counter an interaction type bumps on the product document. *)
Definition counted (ty kind : string) : Z :=
  if String.eqb ty kind then 1%Z else 0%Z.

(** More concrete worlds. *)
Module Cases.

(** The shop when the third database round trip is going to fail. *)
Definition flaky : World := set_faults [false; false; true] Scenario.shop.

(** The shop when the database is unreachable for the next two calls. *)
Definition down : World := set_faults [true; true] Scenario.indexed.

(** An index where items 3 and 7 differ only in category; item 7 shares the
    category of item 1. *)
Definition twin_documents : list string :=
  ["item an item electronics general acme";
   "item an item books general acme";
   "item an item electronics general acme"].

Definition twin_index : list (Z * Features) :=
  [(1%Z, Scenario.features_1);
   (3%Z, mkFeatures "books" "general" 15 3 false false "acme" 1);
   (7%Z, mkFeatures "electronics" "general" 15 3 false false "acme" 2)].

(** Eleven products at the same price and rating, indexed in this order;
    the description of the first one holds the word 10, which is also the
    decimal string of the last one's index. *)
Definition stocked (id : Z) (cat descr : string) : Product :=
  mkProduct id "item" cat "general" 20 "acme" descr 4 false false 0 0 0.

Definition eleven : World :=
  snd (initialize (fun s => s)
         (mkWorld
            [stocked 100 "books" "pack of 10"; stocked 101 "books" "an item";
             stocked 102 "books" "an item"; stocked 103 "books" "an item";
             stocked 104 "books" "an item"; stocked 105 "books" "an item";
             stocked 106 "books" "an item"; stocked 107 "books" "an item";
             stocked 108 "books" "an item"; stocked 109 "books" "an item";
             stocked 110 "toys" "an item"]
            [] [] 0 [] [] [])).

Definition features_100 : Features :=
  mkFeatures "books" "general" 20 4 false false "acme" 0.
Definition features_110 : Features :=
  mkFeatures "toys" "general" 20 4 false false "acme" 10.

(** The weights natural computes on those eleven documents, to two
    decimals: the term 10 occurs once in document 0 and in no other
    document, which gives it 1 + ln(11 / 2) there; no document holds the
    term 0. *)
Definition eleven_weights (_ : list string) (term : string) (d : nat) : Q :=
  if String.eqb term "10" && Nat.eqb d 0 then 2.7 else 0.


(** The indexed shop after every product but item 1 was withdrawn, the
    engine initialized again, and the products put back: the index still
    holds the features of items 2 to 6, pointing at documents that are
    gone. *)
Definition restocked : World :=
  set_products (db_products Scenario.shop)
    (snd (initialize (fun s => s)
            (set_products [Scenario.item 1 "electronics" 100 4]
               Scenario.indexed))).


End Cases.

(** No interaction type, and no product category, that names a member
    every object inherits: true of the types the schema admits. *)
Definition plain_types (l : list Interaction) : Prop :=
  forallb (fun i => negb (inherited_key (i_type i))) l = true.

Definition plain_categories (ps : list Product) : Prop :=
  forallb (fun p => negb (inherited_key (category p))) ps = true.

(** The total weight of the interactions in [l] that are about item [pid]. *)
Fixpoint weight_sum (l : list Interaction) (pid : Z) : Q :=
  match l with
  | [] => 0
  | i :: rest =>
      if Z.eqb (i_productId i) pid
      then getInteractionWeight (i_type i) + weight_sum rest pid
      else weight_sum rest pid
  end.

(** The features [buildProductFeatures] stores for a product indexed at
    position [i]. *)
Definition features_of (p : Product) (i : nat) : Features :=
  mkFeatures (category p) (subcategory p) (price p) (rating p)
    (is_featured p) (is_on_sale p) (manufacturer p) i.

(** What one neighbour's row contributes to item [k]: weight times
    similarity for every entry of the row about [k]. *)
Fixpoint row_contribution (row : list (Z * Q)) (similarity : Q) (k : Z) : Q :=
  match row with
  | [] => 0
  | (productId, weight) :: rest =>
      if Z.eqb productId k
      then weight * similarity + row_contribution rest similarity k
      else row_contribution rest similarity k
  end.

(** The sum of the contributions of all the similar users. *)
Fixpoint neighbours_score (matrix : Matrix) (similarUsers : list (string * Q))
    (k : Z) : Q :=
  match similarUsers with
  | [] => 0
  | (similarUserId, similarity) :: rest =>
      match uget matrix similarUserId with
      | Some row => row_contribution row similarity k
      | None => 0
      end + neighbours_score matrix rest k
  end.

(** The order of [.sort({ rating: -1, view_count: -1, is_featured: -1 })],
    spelled out: [a] may come before [b]. *)
Definition popular_before (a b : Product) : Prop :=
  rating b < rating a \/
  (rating a == rating b /\
   ((view_count b < view_count a)%Z \/
    (view_count a = view_count b /\
     (is_featured b = true -> is_featured a = true)))).

(** * The controllers that call the engine
    (controllers/productController.js, recommendationController.js) *)

(** [req.user], as the authentication middleware loads it. *)
Record Preferences := mkPreferences {
  favoriteCategories : list string;
  priceRange : Q * Q
}.

Record Account := mkAccount {
  account_user : User;
  account_preferences : Preferences;
  account_createdAt : Z
}.

Definition account_id (a : Account) : string := _id (account_user a).

(** The JSON bodies the controllers send. *)
Inductive Body :=
| ErrorBody (error message : string)
| ProductBody (product : Product)
| TrackedBody (message : string) (productId : Z) (type : string)
    (rating : option Q) (timestamp : Z)
| RecommendationsBody (recommendations : list Rec) (count : nat)
    (type : string) (userId : option string)
| StatsBody (userId : string) (totalInteractions : nat)
    (uniqueProductsInteracted : nat)
    (interactionsByType : list (string * Z))
    (topCategories : list (string * Z))
    (preferences : Preferences) (memberSince : Z).

(** [res.status(code).json(body)]; [res.json(body)] answers 200. *)
Record Response := mkResponse {
  status : nat;
  body : Body
}.

Definition json (b : Body) : M Response := ret (mkResponse 200 b).
Definition status_json (code : nat) (b : Body) : M Response :=
  ret (mkResponse code b).

Definition validTypes : list string := ["view"; "like"; "cart_add"; "purchase"].

(** [validTypes.includes(type)]; [None] is a body without a string type. *)
Definition includes_type (ty : option string) : bool :=
  match ty with
  | Some t => existsb (String.eqb t) validTypes
  | None => false
  end.

(** A plain object used as a counter table: [o[k] = (o[k] || 0) + 1]. Keys
    are kept in insertion order, as [Object.entries] lists them for keys that
    are not array indices. For a key that is an [inherited_key] the first
    lookup finds the inherited member instead of a count: those keys are
    outside the domain of this definition. *)
Definition count_up (o : list (string * Z)) (k : string) : list (string * Z) :=
  uset o k ((match uget o k with Some n => n | None => 0 end) + 1)%Z.

Section Controllers.

Variable tfidf_measure : list string -> string -> nat -> Q.
(** [parseInt] on a route parameter; [None] is NaN. *)
Variable parseInt : string -> option Z.

(** [Product.findOne({ product_id: parseInt(raw) })]: NaN does not cast to
    a Number and the query is rejected. *)
Definition findOne_param (raw : string) : M (option Product) :=
  match parseInt raw with
  | Some pid => Product_findOne pid
  | None => throw (NamedError "CastError")
  end.


(** productController.js, [trackInteraction] *)
Definition trackInteraction (user : option Account) (productId : string)
    (type : option string) (rating : option Q) : M Response :=
  try_catch
    (match user with
     | None =>
         status_json 401
           (ErrorBody "Authentication required"
              "You must be logged in to track interactions")
     | Some a =>
         if negb (includes_type type) then
           status_json 400
             (ErrorBody "Invalid interaction type"
                ("Interaction type must be one of: "
                 ++ String.concat ", " validTypes))
         else
           product <- findOne_param productId ;;
           match product, parseInt productId, type with
           | None, _, _ =>
               status_json 404
                 (ErrorBody "Product not found"
                    "Product with the specified ID was not found")
           | Some _, Some pid, Some ty =>
               updateUserInteraction (account_id a) pid ty rating ;;;
               now <- gets clock ;;
               json (TrackedBody "Interaction tracked successfully" pid ty
                       rating now)
           | Some _, _, _ => throw TypeError
           end
     end)
    (fun _ =>
       status_json 500
         (ErrorBody "Failed to track interaction"
            "An error occurred while tracking the interaction")).

(** recommendationController.js, [getUserRecommendations]; [limit] is the
    value of [parseInt(limit)]. *)
Definition getUserRecommendations (user : option Account) (type : string)
    (limit : nat) : M Response :=
  try_catch
    (match user with
     | None =>
         status_json 401
           (ErrorBody "Authentication required"
              "You must be logged in to get personalized recommendations")
     | Some a =>
         recommendations <-
           (if String.eqb type "content" then
              getContentBasedRecommendations tfidf_measure (account_id a)
                None limit
            else if String.eqb type "collaborative" then
              getCollaborativeRecommendations (account_id a) limit
            else
              getHybridRecommendations tfidf_measure (account_id a) limit) ;;
         json (RecommendationsBody recommendations
                 (List.length recommendations) type (Some (account_id a)))
     end)
    (fun _ =>
       status_json 500
         (ErrorBody "Failed to get recommendations"
            "An error occurred while fetching personalized recommendations")).

(** recommendationController.js, [getTrendingProducts] *)
Definition getTrendingProducts (limit : nat) : M Response :=
  try_catch
    (recommendations <- getFallbackRecommendations limit ;;
     json (RecommendationsBody recommendations
             (List.length recommendations) "trending" None))
    (fun _ =>
       status_json 500
         (ErrorBody "Failed to get trending products"
            "An error occurred while fetching trending products")).

(** recommendationController.js, [getSimilarUsersRecommendations] *)
Definition getSimilarUsersRecommendations (user : option Account)
    (limit : nat) : M Response :=
  try_catch
    (match user with
     | None =>
         status_json 401
           (ErrorBody "Authentication required"
              "You must be logged in to get similar users recommendations")
     | Some a =>
         recommendations <-
           getCollaborativeRecommendations (account_id a) limit ;;
         json (RecommendationsBody recommendations
                 (List.length recommendations) "similar_users"
                 (Some (account_id a)))
     end)
    (fun _ =>
       status_json 500
         (ErrorBody "Failed to get similar users recommendations"
            "An error occurred while fetching similar users recommendations")).

(** recommendationController.js, [getRecommendationStats] *)
Definition interactionStats (l : list Interaction) : list (string * Z) :=
  fold_left (fun stats interaction => count_up stats (i_type interaction))
    l [].

Definition uniqueProducts (l : list Interaction) : nat :=
  List.length
    (fold_left (fun s i => JSSet.add Z.eqb s (i_productId i)) l []).

Fixpoint categoryInteractions (l : list Interaction)
    (acc : list (string * Z)) : M (list (string * Z)) :=
  match l with
  | [] => ret acc
  | interaction :: rest =>
      product <- Product_findOne (i_productId interaction) ;;
      match product with
      | Some p => categoryInteractions rest (count_up acc (category p))
      | None => categoryInteractions rest acc
      end
  end.

Definition topCategories_of (counts : list (string * Z))
    : list (string * Z) :=
  slice0 5 (js_sort (desc_by (fun e => inject_Z (snd e))) counts).

Definition getRecommendationStats (user : option Account) : M Response :=
  try_catch
    (match user with
     | None =>
         status_json 401
           (ErrorBody "Authentication required"
              "You must be logged in to view recommendation statistics")
     | Some a =>
         let l := interactions (account_user a) in
         counts <- categoryInteractions l [] ;;
         json (StatsBody (account_id a) (List.length l) (uniqueProducts l)
                 (interactionStats l) (topCategories_of counts)
                 (account_preferences a) (account_createdAt a))
     end)
    (fun _ =>
       status_json 500
         (ErrorBody "Failed to get recommendation statistics"
            "An error occurred while fetching recommendation statistics")).

End Controllers.

(** The sum of the counters of a counter table. *)
Definition total_count (o : list (string * Z)) : Z :=
  fold_right (fun e acc => (snd e + acc)%Z) 0%Z o.

(** A request from a logged-in user. *)
Module Requests.

Definition alice : Account :=
  mkAccount (mkUser "A" []) (mkPreferences ["books"] (0, 1000)) 0.

Definition carol : Account :=
  mkAccount
    (mkUser "C"
       [mkInteraction 1 "view" 1 None; mkInteraction 3 "like" 2 None;
        mkInteraction 3 "purchase" 3 (Some 5)])
    (mkPreferences [] (0, 1000)) 0.

(** [parseInt] for the ids of the shop's products, NaN for anything else. *)
Definition parse (s : string) : option Z :=
  if String.eqb s "1" then Some 1%Z
  else if String.eqb s "2" then Some 2%Z
  else if String.eqb s "3" then Some 3%Z
  else if String.eqb s "99" then Some 99%Z
  else None.

End Requests.

(** * Properties *)

Example sqrt_100 : Qsqrt 100 = 10.
Proof. vm_compute. reflexivity. Qed.

Example ceil_07_5 : ceil_07 5 = 4%nat.
Proof. vm_compute. reflexivity. Qed.

(** ** Worlds that differ only in the remaining fault schedule *)

Lemma same_data_refl w : same_data w w.
Proof. exists (db_faults w). destruct w; reflexivity. Qed.

Lemma same_data_trans w1 w2 w3 :
  same_data w1 w2 -> same_data w2 w3 -> same_data w1 w3.
Proof.
  intros [f1 ->] [f2 ->]. exists f2. reflexivity.
Qed.

Lemma same_data_fields w w' :
  same_data w w' ->
  db_products w' = db_products w /\ db_users w' = db_users w /\
  clock w' = clock w /\ tfidf_documents w' = tfidf_documents w /\
  productFeatures w' = productFeatures w /\
  userItemMatrix w' = userItemMatrix w.
Proof. intros [fs ->]. repeat split. Qed.

Lemma db_call_reads : reads_only db_call.
Proof.
  intros w. unfold db_call. destruct (db_faults w) as [|[] fs] eqn:E; simpl.
  - split; [apply same_data_refl | reflexivity].
  - split; [exists fs; reflexivity | discriminate].
  - split; [exists fs; reflexivity | discriminate].
Qed.

Lemma db_call_no_fault w : db_faults w = [] -> db_call w = (Return tt, w).
Proof. intros E. unfold db_call. rewrite E. reflexivity. Qed.

Lemma ret_reads {A} (a : A) : reads_only (ret a).
Proof. intros w. split; [apply same_data_refl | reflexivity]. Qed.

Lemma throw_reads {A} (e : JSError) : reads_only (@throw A e).
Proof. intros w. split; [apply same_data_refl | reflexivity]. Qed.

Lemma gets_reads {A} (f : World -> A) : reads_only (gets f).
Proof. intros w. split; [apply same_data_refl | reflexivity]. Qed.

Lemma lift_reads {A} (o : Outcome A) : reads_only (lift o).
Proof. intros w. split; [apply same_data_refl | reflexivity]. Qed.

Lemma bind_reads {A B} (c : M A) (k : A -> M B) :
  reads_only c -> (forall a, reads_only (k a)) -> reads_only (bind c k).
Proof.
  intros Hc Hk w. unfold bind. destruct (Hc w) as [S1 N1].
  destruct (c w) as [[a|e] w1] eqn:E; simpl in *.
  - destruct (Hk a w1) as [S2 N2]. split.
    + eapply same_data_trans; eauto.
    + intros F. rewrite (N1 F) in *. apply N2, F.
  - split; assumption.
Qed.

Lemma try_catch_reads {A} (c : M A) (h : JSError -> M A) :
  reads_only c -> (forall e, reads_only (h e)) -> reads_only (try_catch c h).
Proof.
  intros Hc Hh w. unfold try_catch. destruct (Hc w) as [S1 N1].
  destruct (c w) as [[a|e] w1] eqn:E; simpl in *.
  - split; assumption.
  - destruct (Hh e w1) as [S2 N2]. split.
    + eapply same_data_trans; eauto.
    + intros F. rewrite (N1 F) in *. apply N2, F.
Qed.

Create HintDb reads.
#[local] Hint Resolve db_call_reads ret_reads throw_reads gets_reads
  lift_reads : reads.

Ltac reads_tac :=
  repeat first
    [ apply bind_reads; [| intros ?]
    | apply try_catch_reads; [| intros ?]
    | solve [auto with reads]
    | match goal with
      | |- reads_only (match ?x with _ => _ end) => destruct x
      | |- reads_only (if ?b then _ else _) => destruct b
      end ].

Lemma Product_findOne_reads pid : reads_only (Product_findOne pid).
Proof. unfold Product_findOne. reads_tac. Qed.
Lemma Product_find_ne_reads pid : reads_only (Product_find_ne pid).
Proof. unfold Product_find_ne. reads_tac. Qed.
Lemma Product_find_in_reads ids : reads_only (Product_find_in ids).
Proof. unfold Product_find_in. reads_tac. Qed.
Lemma Product_find_popular_reads n : reads_only (Product_find_popular n).
Proof. unfold Product_find_popular. reads_tac. Qed.
Lemma User_findById_reads uid : reads_only (User_findById uid).
Proof. unfold User_findById. reads_tac. Qed.
#[local] Hint Resolve Product_findOne_reads Product_find_ne_reads
  Product_find_in_reads Product_find_popular_reads User_findById_reads
  : reads.

(** ** Returning normally *)

Lemma try_catch_returns {A} (body : M A) (handler : JSError -> M A) :
  (forall e w, returns (handler e) w) ->
  forall w, returns (try_catch body handler) w.
Proof.
  intros H w. unfold returns, try_catch.
  destruct (body w) as [[a|e] w1]; [eauto | apply H].
Qed.

Lemma getFallback_returns limit w :
  returns (getFallbackRecommendations limit) w.
Proof.
  apply try_catch_returns. intros e w1. exists [], w1. reflexivity.
Qed.

Lemma getFallback_reads limit : reads_only (getFallbackRecommendations limit).
Proof. unfold getFallbackRecommendations, fallback_body. reads_tac. Qed.
#[local] Hint Resolve getFallback_reads : reads.

Lemma fallback_list_tagged products limit :
  Forall is_fallback (fallback_list products limit).
Proof.
  unfold fallback_list. apply Forall_forall. intros r H.
  apply in_map_iff in H. destruct H as [p [<- _]]. reflexivity.
Qed.

Lemma getFallback_spec limit w :
  exists recs w',
    getFallbackRecommendations limit w = (Return recs, w') /\
    same_data w w' /\
    (recs = fallback_list (db_products w) limit \/ recs = []) /\
    (db_faults w = [] ->
     recs = fallback_list (db_products w) limit /\ w' = w).
Proof.
  unfold getFallbackRecommendations, try_catch, fallback_body,
    Product_find_popular, bind.
  destruct (db_call_reads w) as [S N].
  destruct (db_call w) as [[[]|e] w1] eqn:E; simpl in *.
  - exists (fallback_list (db_products w1) limit), w1.
    destruct (same_data_fields _ _ S) as [P _]. rewrite P.
    split; [reflexivity|]. split; [assumption|].
    split; [left; reflexivity|].
    intros F. split; [reflexivity | apply N, F].
  - exists [], w1.
    split; [reflexivity|]. split; [assumption|].
    split; [right; reflexivity|].
    intros F. rewrite (db_call_no_fault _ F) in E. discriminate.
Qed.

(** ** The four public operations return normally *)

Lemma content_returns tf uid pid limit w :
  returns (getContentBasedRecommendations tf uid pid limit) w.
Proof.
  apply try_catch_returns. intros e w1. apply getFallback_returns.
Qed.

Lemma collaborative_returns uid limit w :
  returns (getCollaborativeRecommendations uid limit) w.
Proof.
  apply try_catch_returns. intros e w1. apply getFallback_returns.
Qed.

Lemma hybrid_returns tf uid limit w :
  returns (getHybridRecommendations tf uid limit) w.
Proof.
  apply try_catch_returns. intros e w1. apply getFallback_returns.
Qed.

Lemma update_returns uid pid ty r w :
  returns (updateUserInteraction uid pid ty r) w.
Proof.
  apply try_catch_returns. intros e w1. exists tt, w1. reflexivity.
Qed.


(** ** Recording an interaction of an unknown type *)

Lemma invalid_type_fails_validation l pid ty now r :
  valid_type ty = false ->
  forallb validate_interaction (l ++ [mkInteraction pid ty now r]) = false.
Proof.
  intros H. rewrite forallb_app. simpl. unfold validate_interaction. simpl.
  rewrite H. simpl. apply andb_false_r.
Qed.

(** C1, as the code has it. For every call of [updateUserInteraction] with a
    type outside view, like, cart_add, purchase, the operation raises nothing:
    the schema validation error of [user.save()] is caught inside, the
    operation returns with no result, and the user-item matrix and both
    collections are what they were before the call. *)
Theorem invalid_type_leaves_ledger_unchanged :
  forall uid pid ty rating w,
    valid_type ty = false ->
    exists w',
      updateUserInteraction uid pid ty rating w = (Return tt, w') /\
      userItemMatrix w' = userItemMatrix w /\
      db_users w' = db_users w /\
      db_products w' = db_products w.
Proof.
  intros uid pid ty rating w Hty.
  unfold updateUserInteraction, try_catch, update_body, User_findById, bind.
  destruct (db_call_reads w) as [S _].
  destruct (db_call w) as [[[]|e] w1] eqn:E; simpl in *.
  - destruct (same_data_fields _ _ S) as (P & U & _ & _ & _ & Mx).
    destruct (find _ (db_users w1)) as [u|].
    + unfold addInteraction, user_save, bind, gets.
      cbn [interactions].
      rewrite (invalid_type_fails_validation _ _ _ _ _ Hty). simpl.
      exists w1. auto.
    + exists w1. auto.
  - destruct (same_data_fields _ _ S) as (P & U & _ & _ & _ & Mx).
    exists w1. auto.
Qed.

Lemma invalid_type_leaves_ledger_unchanged_witness :
  exists w',
    updateUserInteraction "A" 1 "wishlist" None Scenario.after_events
      = (Return tt, w') /\
    userItemMatrix w' = userItemMatrix Scenario.after_events /\
    db_users w' = db_users Scenario.after_events /\
    db_products w' = db_products Scenario.after_events.
Proof.
  apply (invalid_type_leaves_ledger_unchanged "A" 1 "wishlist" None
           Scenario.after_events).
  reflexivity.
Defined.

(** C1, as stated, fails: with type "wishlist" the operation returns
    normally instead of raising InvalidInteractionTypeError. *)
Lemma invalid_type_raises_nothing :
  valid_type "wishlist" = false /\
  fst (updateUserInteraction "A" 1 "wishlist" None Scenario.after_events)
    = Return tt /\
  fst (updateUserInteraction "A" 1 "wishlist" None Scenario.after_events)
    <> Throw (NamedError "InvalidInteractionTypeError").
Proof.
  split; [reflexivity|].
  assert (H : fst (updateUserInteraction "A" 1 "wishlist" None
                     Scenario.after_events) = Return tt)
    by (vm_compute; reflexivity).
  split; [exact H | rewrite H; discriminate].
Qed.

(** ** An anchor item that is not indexed *)

Lemma find_id_eq pid ps p :
  find (fun p => Z.eqb (product_id p) pid) ps = Some p -> product_id p = pid.
Proof.
  intros H. apply find_some in H. destruct H as [_ H].
  apply Z.eqb_eq in H. exact H.
Qed.

Lemma content_from_target_unindexed tf t limit w :
  (forall tp, t = Some tp -> mget (productFeatures w) (product_id tp) = None) ->
  content_from_target tf t limit w = getFallbackRecommendations limit w.
Proof.
  intros H. unfold content_from_target. destruct t as [tp|]; [|reflexivity].
  unfold bind, gets. rewrite (H tp eq_refl). reflexivity.
Qed.

(** C5, as the code has it. For every non-zero anchor id absent from the
    content index, [getContentBasedRecommendations] raises nothing and returns
    a list whose records are all tagged fallback: the popularity fallback
    list, which is exactly [fallback_list] when no database call fails. *)
Theorem unknown_anchor_falls_back :
  forall tf uid pid limit w,
    pid <> 0%Z ->
    mget (productFeatures w) pid = None ->
    exists recs w',
      getContentBasedRecommendations tf uid (Some pid) limit w
        = (Return recs, w') /\
      Forall is_fallback recs /\
      (db_faults w = [] -> recs = fallback_list (db_products w) limit).
Proof.
  intros tf uid pid limit w Hnz Hidx.
  unfold getContentBasedRecommendations, try_catch, content_body.
  unfold truthy_id. apply Z.eqb_neq in Hnz. rewrite Hnz. simpl.
  unfold Product_findOne, bind.
  destruct (db_call_reads w) as [S N].
  destruct (db_call w) as [[[]|e] w1] eqn:E; cbn [fst snd] in *; simpl.
  - destruct (same_data_fields _ _ S) as (P & _ & _ & _ & F & _).
    rewrite content_from_target_unindexed.
    2:{ intros tp Htp. apply find_id_eq in Htp. rewrite Htp, F. exact Hidx. }
    destruct (getFallback_spec limit w1) as (recs & w2 & R & _ & Hor & Hnf).
    rewrite R. exists recs, w2. split; [reflexivity|]. split.
    + destruct Hor as [-> | ->]; [apply fallback_list_tagged | constructor].
    + intros Fl. rewrite (N Fl) in *. apply Hnf, Fl.
  - destruct (same_data_fields _ _ S) as (P & _ & _ & _ & F & _).
    destruct (getFallback_spec limit w1) as (recs & w2 & R & _ & Hor & Hnf).
    rewrite R. exists recs, w2. split; [reflexivity|]. split.
    + destruct Hor as [-> | ->]; [apply fallback_list_tagged | constructor].
    + intros Fl. rewrite (db_call_no_fault _ Fl) in E. discriminate.
Qed.

Lemma unknown_anchor_falls_back_witness :
  exists recs w',
    getContentBasedRecommendations Scenario.no_text "A" (Some 99%Z) 3
      Scenario.shop = (Return recs, w') /\
    Forall is_fallback recs /\
    (db_faults Scenario.shop = [] ->
     recs = fallback_list (db_products Scenario.shop) 3).
Proof.
  apply (unknown_anchor_falls_back Scenario.no_text "A" 99%Z 3 Scenario.shop).
  - discriminate.
  - reflexivity.
Defined.

(** C5, as stated, fails: for anchor 99, which is not indexed, the operation
    returns the three most popular products instead of raising
    UnknownItemError. *)
Lemma unknown_anchor_raises_nothing :
  mget (productFeatures Scenario.shop) 99%Z = None /\
  (exists recs,
     fst (getContentBasedRecommendations Scenario.no_text "A" (Some 99%Z) 3
            Scenario.shop) = Return recs /\
     map rec_id recs = [4; 2; 1]%Z) /\
  fst (getContentBasedRecommendations Scenario.no_text "A" (Some 99%Z) 3
         Scenario.shop) <> Throw (NamedError "UnknownItemError").
Proof.
  split; [reflexivity|]. split.
  - eexists. split; [vm_compute; reflexivity | vm_compute; reflexivity].
  - vm_compute. discriminate.
Qed.

(** ** Content similarity *)

Lemma Qgtb_true x y : Qgtb x y = true <-> y < x.
Proof.
  unfold Qgtb. rewrite negb_true_iff. split; intros H.
  - apply Qnot_le_lt. intros L. apply Qle_bool_iff in L. congruence.
  - destruct (Qle_bool x y) eqn:E; [|reflexivity].
    apply Qle_bool_iff in E. exfalso. apply (Qlt_not_le _ _ H E).
Qed.

Lemma Qgtb_false x y : Qgtb x y = false <-> x <= y.
Proof.
  unfold Qgtb. rewrite negb_false_iff. apply Qle_bool_iff.
Qed.

Lemma Qeqb_true x y : Qeqb x y = true <-> x == y.
Proof. apply Qeq_bool_iff. Qed.

Lemma Qabs_diff_le_max p1 p2 :
  0 <= p1 -> 0 <= p2 -> Qabs (p1 - p2) <= Qmax p1 p2.
Proof.
  intros H1 H2. apply Qabs_Qle_condition.
  pose proof (Q.le_max_l p1 p2). pose proof (Q.le_max_r p1 p2).
  split; lra.
Qed.

Lemma price_ratio_bounds p1 p2 :
  0 <= p1 -> 0 <= p2 -> 0 < Qmax p1 p2 ->
  0 <= Qabs (p1 - p2) / Qmax p1 p2 /\ Qabs (p1 - p2) / Qmax p1 p2 <= 1.
Proof.
  intros H1 H2 Hm. split.
  - apply Qle_shift_div_l; [exact Hm|]. rewrite Qmult_0_l. apply Qabs_nonneg.
  - apply Qle_shift_div_r; [exact Hm|]. rewrite Qmult_1_l.
    apply Qabs_diff_le_max; assumption.
Qed.

Lemma rating_ratio_bounds r1 r2 :
  0 <= r1 -> r1 <= 5 -> 0 <= r2 -> r2 <= 5 ->
  0 <= Qabs (r1 - r2) / 5 /\ Qabs (r1 - r2) / 5 <= 1.
Proof.
  intros. pose proof (Qabs_nonneg (r1 - r2)).
  assert (Qabs (r1 - r2) <= 5) by (apply Qabs_Qle_condition; split; lra).
  split.
  - apply Qle_shift_div_l; [reflexivity | lra].
  - apply Qle_shift_div_r; [reflexivity | lra].
Qed.

Lemma max_zero_iff p1 p2 :
  0 <= p1 -> 0 <= p2 ->
  (Qgtb (Qmax p1 p2) 0 = false <-> Qeqb p1 0 && Qeqb p2 0 = true).
Proof.
  intros H1 H2. rewrite Qgtb_false, andb_true_iff, !Qeqb_true.
  pose proof (Q.le_max_l p1 p2). pose proof (Q.le_max_r p1 p2). split.
  - intros Hm. split; lra.
  - intros [E1 E2]. apply Q.max_lub; lra.
Qed.

Lemma bool_term_unit (c : bool) : unit_interval (if c then 1 else 0).
Proof. destruct c; split; lra. Qed.

Lemma price_term_code f1 f2 :
  0 <= f_price f1 -> 0 <= f_price f2 ->
  unit_interval (price_term f1 f2) /\
  (if Qgtb (Qmax (f_price f1) (f_price f2)) 0
   then 1 - Qabs (f_price f1 - f_price f2) / Qmax (f_price f1) (f_price f2)
   else 1) == price_term f1 f2.
Proof.
  intros P1 P2. unfold price_term.
  destruct (Qgtb (Qmax (f_price f1) (f_price f2)) 0) eqn:E.
  - assert (Z : Qeqb (f_price f1) 0 && Qeqb (f_price f2) 0 = false).
    { destruct (Qeqb (f_price f1) 0 && Qeqb (f_price f2) 0) eqn:B;
        [|reflexivity].
      apply (max_zero_iff _ _ P1 P2) in B. congruence. }
    rewrite Z. apply Qgtb_true in E.
    destruct (price_ratio_bounds _ _ P1 P2 E) as [L U].
    split; [split; lra | reflexivity].
  - apply (max_zero_iff _ _ P1 P2) in E. rewrite E.
    split; [split; lra | reflexivity].
Qed.

Lemma rating_term_unit f1 f2 :
  features_valid f1 -> features_valid f2 -> unit_interval (rating_term f1 f2).
Proof.
  intros (_ & R1 & R1') (_ & R2 & R2').
  destruct (rating_ratio_bounds _ _ R1 R1' R2 R2') as [Hr0 Hr1].
  unfold rating_term. split; lra.
Qed.

(** With both items indexed, the function returns or throws as the tf-idf
    call does. *)
Lemma similarity_indexed tf docs pf id1 id2 f1 f2 :
  mget pf id1 = Some f1 ->
  mget pf id2 = Some f2 ->
  (textIndex f2 < List.length docs)%nat ->
  calculateProductSimilarity tf docs pf id1 id2
    = Return (similarity_from (text_term tf docs f1 f2) f1 f2).
Proof.
  intros G1 G2 L. unfold calculateProductSimilarity, tfidf_call.
  rewrite G1, G2. apply Nat.ltb_lt in L. rewrite L. reflexivity.
Qed.

Lemma similarity_stale tf docs pf id1 id2 f1 f2 :
  mget pf id1 = Some f1 ->
  mget pf id2 = Some f2 ->
  (List.length docs <= textIndex f2)%nat ->
  calculateProductSimilarity tf docs pf id1 id2 = Throw TypeError.
Proof.
  intros G1 G2 L. unfold calculateProductSimilarity, tfidf_call.
  rewrite G1, G2. apply Nat.ltb_ge in L. rewrite L. reflexivity.
Qed.

(** The code's running total is the weighted sum, clamped from above. *)
Lemma similarity_clamped tf docs f1 f2 :
  features_valid f1 ->
  features_valid f2 ->
  similarity_from (text_term tf docs f1 f2) f1 f2
    == Qmin (weighted_sum tf docs f1 f2) 1.
Proof.
  intros (P1 & _) (P2 & _).
  destruct (price_term_code f1 f2 P1 P2) as [_ Hpe].
  unfold similarity_from.
  apply Q.min_compat; [|reflexivity].
  rewrite Hpe. unfold weighted_sum, category_term, subcategory_term,
    rating_term.
  destruct (String.eqb (f_category f1) (f_category f2));
    destruct (String.eqb (f_subcategory f1) (f_subcategory f2));
    simpl; ring.
Qed.

(** Whatever non-negative value the tf-idf call returns, the total lies in
    [0,1]. *)
Lemma similarity_in_unit_interval tf docs f1 f2 :
  features_valid f1 ->
  features_valid f2 ->
  0 <= text_term tf docs f1 f2 ->
  unit_interval (similarity_from (text_term tf docs f1 f2) f1 f2).
Proof.
  intros V1 V2 T0. unfold unit_interval.
  rewrite (similarity_clamped tf docs f1 f2 V1 V2).
  pose proof (bool_term_unit
                (String.eqb (f_category f1) (f_category f2))) as Hc.
  pose proof (bool_term_unit
                (String.eqb (f_category f1) (f_category f2)
                 && String.eqb (f_subcategory f1) (f_subcategory f2))) as Hs.
  pose proof (rating_term_unit f1 f2 V1 V2) as Hr.
  destruct V1 as (P1 & _), V2 as (P2 & _).
  destruct (price_term_code f1 f2 P1 P2) as [Hp _].
  fold (category_term f1 f2) in Hc. fold (subcategory_term f1 f2) in Hs.
  assert (Hge : 0 <= weighted_sum tf docs f1 f2).
  { unfold weighted_sum, unit_interval in *. lra. }
  split.
  - apply Q.min_glb; [exact Hge | lra].
  - apply Q.le_min_r.
Qed.

Example similarity_1_2 :
  exists q,
    calculateProductSimilarity Scenario.no_text
      (tfidf_documents Scenario.indexed) (productFeatures Scenario.indexed)
      1 2 = Return q /\
    q == 0.4 + (1 - 10 / 110) * 0.1 + (1 - 0.5 / 5) * 0.1.
Proof. eexists. split; [vm_compute; reflexivity | vm_compute; reflexivity]. Qed.

(** C3, at the failing input. On the eleven-product catalog the text term
    of the pair (110, 100) is the tf-idf weight of the term 10 in document
    0. Whenever the library gives that term a weight above 2 there (it
    gives 2.70), the text term is not normalized to [0,1], the weighted
    sum of the five terms exceeds 1, and [calculateProductSimilarity]
    returns 1 instead of the weighted sum. *)
Theorem text_term_is_not_a_cosine :
  forall tf,
    2 < tf (tfidf_documents Cases.eleven) "10" 0%nat ->
    mget (productFeatures Cases.eleven) 110 = Some Cases.features_110 /\
    mget (productFeatures Cases.eleven) 100 = Some Cases.features_100 /\
    text_term tf (tfidf_documents Cases.eleven)
        Cases.features_110 Cases.features_100
      = tf (tfidf_documents Cases.eleven) "10" 0%nat /\
    ~ unit_interval
        (text_term tf (tfidf_documents Cases.eleven)
           Cases.features_110 Cases.features_100) /\
    1 < weighted_sum tf (tfidf_documents Cases.eleven)
          Cases.features_110 Cases.features_100 /\
    exists q,
      calculateProductSimilarity tf (tfidf_documents Cases.eleven)
        (productFeatures Cases.eleven) 110 100 = Return q /\
      q == 1 /\
      ~ q == weighted_sum tf (tfidf_documents Cases.eleven)
             Cases.features_110 Cases.features_100.
Proof.
  intros tf Ht.
  set (docs := tfidf_documents Cases.eleven) in *.
  assert (L0 : (0 < List.length docs)%nat) by (vm_compute; lia).
  assert (L10 : (10 < List.length docs)%nat) by (vm_compute; lia).
  clearbody docs.
  assert (G1 : mget (productFeatures Cases.eleven) 110
               = Some Cases.features_110) by reflexivity.
  assert (G2 : mget (productFeatures Cases.eleven) 100
               = Some Cases.features_100) by reflexivity.
  assert (T : text_term tf docs Cases.features_110 Cases.features_100
              = tf docs "10" 0%nat) by reflexivity.
  assert (V1 : features_valid Cases.features_110)
    by (unfold features_valid; simpl; repeat split; lra).
  assert (V2 : features_valid Cases.features_100)
    by (unfold features_valid; simpl; repeat split; lra).
  assert (W : weighted_sum tf docs Cases.features_110 Cases.features_100
              == tf docs "10" 0%nat * 0.4 + 0.2).
  { unfold weighted_sum. rewrite T.
    assert (C : category_term Cases.features_110 Cases.features_100 = 0)
      by reflexivity.
    assert (S : subcategory_term Cases.features_110 Cases.features_100 = 0)
      by reflexivity.
    assert (P : price_term Cases.features_110 Cases.features_100 == 1)
      by (vm_compute; reflexivity).
    assert (R : rating_term Cases.features_110 Cases.features_100 == 1)
      by (vm_compute; reflexivity).
    rewrite C, S, P, R. ring. }
  split; [exact G1|]. split; [exact G2|]. split; [exact T|].
  assert (W1 : 1 < weighted_sum tf docs Cases.features_110 Cases.features_100)
    by (rewrite W; clear - Ht; lra).
  split; [intros [_ U]; rewrite T in U; clear - U Ht; lra|].
  split; [exact W1|].
  eexists. split.
  - apply (similarity_indexed tf docs _ 110 100 _ _ G1 G2). exact L0.
  - rewrite (similarity_clamped tf docs _ _ V1 V2).
    rewrite Q.min_r by (apply Qlt_le_weak, W1).
    split; [reflexivity|]. intros E. rewrite <- E in W1.
    apply (Qlt_irrefl _ W1).
Qed.

Lemma text_term_is_not_a_cosine_witness :
  mget (productFeatures Cases.eleven) 110 = Some Cases.features_110 /\
  mget (productFeatures Cases.eleven) 100 = Some Cases.features_100 /\
  text_term Cases.eleven_weights (tfidf_documents Cases.eleven)
      Cases.features_110 Cases.features_100
    = Cases.eleven_weights (tfidf_documents Cases.eleven) "10" 0%nat /\
  ~ unit_interval
      (text_term Cases.eleven_weights (tfidf_documents Cases.eleven)
         Cases.features_110 Cases.features_100) /\
  1 < weighted_sum Cases.eleven_weights (tfidf_documents Cases.eleven)
        Cases.features_110 Cases.features_100 /\
  exists q,
    calculateProductSimilarity Cases.eleven_weights
      (tfidf_documents Cases.eleven) (productFeatures Cases.eleven) 110 100
      = Return q /\
    q == 1 /\
    ~ q == weighted_sum Cases.eleven_weights (tfidf_documents Cases.eleven)
           Cases.features_110 Cases.features_100.
Proof.
  apply (text_term_is_not_a_cosine Cases.eleven_weights).
  vm_compute. reflexivity.
Defined.

Example eleven_similarities :
  calculateProductSimilarity Cases.eleven_weights
    (tfidf_documents Cases.eleven) (productFeatures Cases.eleven) 110 100
  = Return 1 /\
  exists q,
    calculateProductSimilarity Cases.eleven_weights
      (tfidf_documents Cases.eleven) (productFeatures Cases.eleven) 100 110
    = Return q /\
    q == 0.2.
Proof.
  split; [vm_compute; reflexivity|].
  eexists. split; [vm_compute; reflexivity | vm_compute; reflexivity].
Qed.

(** C6, at the failing input. On the eleven-product catalog items 100 and
    110 have the same price and rating and different categories. The
    similarity of (100, 110) reads the term 0 in document 10, the
    similarity of (110, 100) reads the term 10 in document 0. Whenever the
    library gives a positive weight to the term that occurs and none to the
    term that does not, the two similarities differ: 0.2 one way, more the
    other way. *)
Theorem similarity_depends_on_argument_order :
  forall tf,
    tf (tfidf_documents Cases.eleven) "0" 10%nat == 0 ->
    0 < tf (tfidf_documents Cases.eleven) "10" 0%nat ->
    exists q1 q2,
      calculateProductSimilarity tf (tfidf_documents Cases.eleven)
        (productFeatures Cases.eleven) 100 110 = Return q1 /\
      calculateProductSimilarity tf (tfidf_documents Cases.eleven)
        (productFeatures Cases.eleven) 110 100 = Return q2 /\
      q1 == 0.2 /\
      0.2 < q2 /\
      ~ q1 == q2.
Proof.
  intros tf H0 H1.
  set (docs := tfidf_documents Cases.eleven) in *.
  assert (L0 : (0 < List.length docs)%nat) by (vm_compute; lia).
  assert (L10 : (10 < List.length docs)%nat) by (vm_compute; lia).
  clearbody docs.
  assert (G1 : mget (productFeatures Cases.eleven) 110
               = Some Cases.features_110) by reflexivity.
  assert (G2 : mget (productFeatures Cases.eleven) 100
               = Some Cases.features_100) by reflexivity.
  assert (V1 : features_valid Cases.features_110)
    by (unfold features_valid; simpl; repeat split; lra).
  assert (V2 : features_valid Cases.features_100)
    by (unfold features_valid; simpl; repeat split; lra).
  assert (W1 : weighted_sum tf docs Cases.features_100 Cases.features_110
               == tf docs "0" 10%nat * 0.4 + 0.2).
  { unfold weighted_sum.
    change (text_term tf docs Cases.features_100 Cases.features_110)
      with (tf docs "0" 10%nat).
    assert (C : category_term Cases.features_100 Cases.features_110 = 0)
      by reflexivity.
    assert (S : subcategory_term Cases.features_100 Cases.features_110 = 0)
      by reflexivity.
    assert (P : price_term Cases.features_100 Cases.features_110 == 1)
      by (vm_compute; reflexivity).
    assert (R : rating_term Cases.features_100 Cases.features_110 == 1)
      by (vm_compute; reflexivity).
    rewrite C, S, P, R. ring. }
  assert (W2 : weighted_sum tf docs Cases.features_110 Cases.features_100
               == tf docs "10" 0%nat * 0.4 + 0.2).
  { unfold weighted_sum.
    change (text_term tf docs Cases.features_110 Cases.features_100)
      with (tf docs "10" 0%nat).
    assert (C : category_term Cases.features_110 Cases.features_100 = 0)
      by reflexivity.
    assert (S : subcategory_term Cases.features_110 Cases.features_100 = 0)
      by reflexivity.
    assert (P : price_term Cases.features_110 Cases.features_100 == 1)
      by (vm_compute; reflexivity).
    assert (R : rating_term Cases.features_110 Cases.features_100 == 1)
      by (vm_compute; reflexivity).
    rewrite C, S, P, R. ring. }
  assert (Q1 : similarity_from
                 (text_term tf docs Cases.features_100 Cases.features_110)
                 Cases.features_100 Cases.features_110 == 0.2).
  { rewrite (similarity_clamped tf docs _ _ V2 V1), W1, H0.
    rewrite Q.min_l by (clear; lra). ring. }
  assert (Q2 : 0.2 < similarity_from
                 (text_term tf docs Cases.features_110 Cases.features_100)
                 Cases.features_110 Cases.features_100).
  { rewrite (similarity_clamped tf docs _ _ V1 V2), W2.
    apply Q.min_glb_lt; clear - H1; lra. }
  eexists. eexists.
  split; [apply (similarity_indexed tf docs _ 100 110 _ _ G2 G1); exact L10|].
  split; [apply (similarity_indexed tf docs _ 110 100 _ _ G1 G2); exact L0|].
  split; [exact Q1|]. split; [exact Q2|].
  rewrite Q1. intros E. rewrite <- E in Q2. apply (Qlt_irrefl _ Q2).
Qed.

Lemma similarity_depends_on_argument_order_witness :
  exists q1 q2,
    calculateProductSimilarity Cases.eleven_weights
      (tfidf_documents Cases.eleven) (productFeatures Cases.eleven) 100 110
      = Return q1 /\
    calculateProductSimilarity Cases.eleven_weights
      (tfidf_documents Cases.eleven) (productFeatures Cases.eleven) 110 100
      = Return q2 /\
    q1 == 0.2 /\
    0.2 < q2 /\
    ~ q1 == q2.
Proof.
  apply (similarity_depends_on_argument_order Cases.eleven_weights).
  - vm_compute. reflexivity.
  - vm_compute. reflexivity.
Defined.

(** ** Facts about maps in insertion order *)

Section MapFacts.
Context {K V : Type}.
Variable keq : K -> K -> bool.
Hypothesis keq_eq : forall a b, keq a b = true <-> a = b.

Lemma keq_refl k : keq k k = true.
Proof. apply keq_eq. reflexivity. Qed.

Lemma keq_neq a b : a <> b -> keq a b = false.
Proof.
  intros N. destruct (keq a b) eqn:E; [|reflexivity].
  apply keq_eq in E. contradiction.
Qed.

Lemma get_set_same (m : list (K * V)) k v :
  JSMap.get keq (JSMap.set keq m k v) k = Some v.
Proof.
  induction m as [|[k' v'] m IH]; simpl.
  - rewrite keq_refl. reflexivity.
  - destruct (keq k' k) eqn:E; simpl; rewrite E; [reflexivity | exact IH].
Qed.

Lemma get_set_other (m : list (K * V)) k v k' :
  k <> k' -> JSMap.get keq (JSMap.set keq m k v) k' = JSMap.get keq m k'.
Proof.
  intros N. induction m as [|[k0 v0] m IH]; simpl.
  - rewrite (keq_neq _ _ N). reflexivity.
  - destruct (keq k0 k) eqn:E; simpl.
    + apply keq_eq in E. subst k0. rewrite (keq_neq _ _ N). reflexivity.
    + rewrite IH. reflexivity.
Qed.

Lemma get_in (m : list (K * V)) k v :
  JSMap.get keq m k = Some v -> In (k, v) m.
Proof.
  induction m as [|[k0 v0] m IH]; simpl; [discriminate|].
  destruct (keq k0 k) eqn:E.
  - apply keq_eq in E. intros [= ->]. left. subst. reflexivity.
  - intros H. right. apply IH, H.
Qed.

Lemma get_none_not_in (m : list (K * V)) k :
  JSMap.get keq m k = None -> ~ In k (JSMap.keys m).
Proof.
  induction m as [|[k0 v0] m IH]; simpl; [tauto|].
  destruct (keq k0 k) eqn:E; [discriminate|].
  intros H [->|I]; [rewrite keq_refl in E; discriminate | exact (IH H I)].
Qed.

Lemma in_get_nodup (m : list (K * V)) k v :
  NoDup (JSMap.keys m) -> In (k, v) m -> JSMap.get keq m k = Some v.
Proof.
  induction m as [|[k0 v0] m IH]; simpl; [tauto|].
  intros ND [H|H].
  - injection H as -> ->. rewrite keq_refl. reflexivity.
  - inversion ND as [|? ? Hn ND']; subst.
    destruct (keq k0 k) eqn:E.
    + apply keq_eq in E. subst k0. exfalso. apply Hn.
      apply (in_map fst) in H. exact H.
    + apply IH; assumption.
Qed.

Lemma in_set (m : list (K * V)) k v k' v' :
  In (k', v') (JSMap.set keq m k v) ->
  (k' = k /\ v' = v) \/ In (k', v') m.
Proof.
  induction m as [|[k0 v0] m IH]; simpl.
  - intros [[= <- <-]|[]]. left. split; reflexivity.
  - destruct (keq k0 k) eqn:E; simpl.
    + apply keq_eq in E. subst k0. intros [[= <- <-]|H].
      * left. split; reflexivity.
      * right. right. exact H.
    + intros [H|H].
      * right. left. exact H.
      * destruct (IH H) as [?|?]; [left; assumption|].
        right. right. assumption.
Qed.

Lemma keys_set (m : list (K * V)) k v :
  JSMap.keys (JSMap.set keq m k v)
  = if JSMap.has keq m k then JSMap.keys m else JSMap.keys m ++ [k].
Proof.
  unfold JSMap.has. induction m as [|[k0 v0] m IH]; simpl; [reflexivity|].
  destruct (keq k0 k) eqn:E; simpl; [reflexivity|].
  rewrite IH. destruct (JSMap.get keq m k); reflexivity.
Qed.

Lemma nodup_set (m : list (K * V)) k v :
  NoDup (JSMap.keys m) -> NoDup (JSMap.keys (JSMap.set keq m k v)).
Proof.
  intros ND. rewrite keys_set. unfold JSMap.has.
  destruct (JSMap.get keq m k) eqn:G; [exact ND|].
  apply get_none_not_in in G.
  apply NoDup_app; [exact ND | repeat constructor; simpl; tauto |].
  intros x Hx [<-|[]]. exact (G Hx).
Qed.
End MapFacts.

Lemma Z_eqb_eq : forall a b, Z.eqb a b = true <-> a = b.
Proof. exact Z.eqb_eq. Qed.
Lemma string_eqb_eq : forall a b, String.eqb a b = true <-> a = b.
Proof. exact String.eqb_eq. Qed.

Lemma mget_mset_same {V} (m : list (Z * V)) k v : mget (mset m k v) k = Some v.
Proof. apply (get_set_same Z.eqb Z_eqb_eq). Qed.

Lemma mget_mset_other {V} (m : list (Z * V)) k v k' :
  k <> k' -> mget (mset m k v) k' = mget m k'.
Proof. apply (get_set_other Z.eqb Z_eqb_eq). Qed.

(** ** Facts about the stable sort *)

Section SortFacts.
Context {A : Type}.
Variable cmp : A -> A -> Q.

Lemma sort_insert_perm x l : Permutation (sort_insert cmp x l) (x :: l).
Proof.
  induction l as [|y l IH]; simpl; [reflexivity|].
  destruct (Qle_bool (cmp x y) 0); [reflexivity|].
  rewrite IH. apply perm_swap.
Qed.

Lemma js_sort_perm l : Permutation (js_sort cmp l) l.
Proof.
  induction l as [|x l IH]; simpl; [reflexivity|].
  rewrite sort_insert_perm. constructor. exact IH.
Qed.

Lemma js_sort_in x l : In x (js_sort cmp l) <-> In x l.
Proof.
  split; apply Permutation_in; [|symmetry]; apply js_sort_perm.
Qed.

Lemma js_sort_length l : List.length (js_sort cmp l) = List.length l.
Proof. apply Permutation_length, js_sort_perm. Qed.

Section Order.
Variable R : A -> A -> Prop.
Hypothesis keeps : forall x y, Qle_bool (cmp x y) 0 = true -> R x y.
Hypothesis swaps : forall x y, Qle_bool (cmp x y) 0 = false -> R y x.
Hypothesis R_trans : forall x y z, R x y -> R y z -> R x z.

Lemma sort_insert_sorted x l :
  StronglySorted R l -> StronglySorted R (sort_insert cmp x l).
Proof.
  induction 1 as [|y l Hl IH Hy]; simpl.
  - repeat constructor.
  - destruct (Qle_bool (cmp x y) 0) eqn:E.
    + constructor; [constructor; assumption|].
      constructor; [apply keeps, E|].
      rewrite Forall_forall in *. intros z Hz.
      eapply R_trans; [apply keeps, E | apply Hy, Hz].
    + constructor; [exact IH|].
      rewrite Forall_forall in *. intros z Hz.
      apply (Permutation_in _ (sort_insert_perm x l)) in Hz.
      destruct Hz as [<-|Hz]; [apply swaps, E | apply Hy, Hz].
Qed.

Lemma js_sort_sorted l : StronglySorted R (js_sort cmp l).
Proof.
  induction l as [|x l IH]; simpl; [constructor|].
  apply sort_insert_sorted, IH.
Qed.
End Order.

(** A list already in order is left as it is. *)
Lemma js_sort_sorted_id l :
  Sorted (fun x y => Qle_bool (cmp x y) 0 = true) l -> js_sort cmp l = l.
Proof.
  induction 1 as [|x l Hl IH Hx]; simpl; [reflexivity|].
  rewrite IH. destruct Hx as [|y l Hxy]; simpl; [reflexivity|].
  rewrite Hxy. reflexivity.
Qed.

(** Stability: the elements selected by [p], none of which the comparator
    puts strictly before another, come out in the order they went in. *)
Lemma sort_insert_stable (p : A -> bool) x l :
  (forall a b, p a = true -> p b = true -> Qle_bool (cmp a b) 0 = true) ->
  filter p (sort_insert cmp x l) = filter p (x :: l).
Proof.
  intros Hp. induction l as [|y l IH]; simpl; [reflexivity|].
  destruct (Qle_bool (cmp x y) 0) eqn:E; [reflexivity|].
  simpl in *. rewrite IH.
  destruct (p x) eqn:Px, (p y) eqn:Py; try reflexivity.
  rewrite (Hp x y Px Py) in E. discriminate.
Qed.

Lemma js_sort_stable (p : A -> bool) l :
  (forall a b, p a = true -> p b = true -> Qle_bool (cmp a b) 0 = true) ->
  filter p (js_sort cmp l) = filter p l.
Proof.
  intros Hp. induction l as [|x l IH]; simpl; [reflexivity|].
  rewrite (sort_insert_stable p x _ Hp). simpl. rewrite IH. reflexivity.
Qed.
End SortFacts.

Lemma desc_keeps {A} (score : A -> Q) x y :
  Qle_bool (desc_by score x y) 0 = true -> score y <= score x.
Proof. unfold desc_by. intros H. apply Qle_bool_iff in H. lra. Qed.

Lemma desc_swaps {A} (score : A -> Q) x y :
  Qle_bool (desc_by score x y) 0 = false -> score x <= score y.
Proof.
  unfold desc_by. intros H.
  destruct (Qlt_le_dec (score y) (score x)) as [L|L]; [|exact L].
  assert (T : Qle_bool (score y - score x) 0 = true)
    by (apply Qle_bool_iff; lra).
  congruence.
Qed.

Lemma js_sort_descending {A} (score : A -> Q) l :
  descending score (js_sort (desc_by score) l).
Proof.
  apply js_sort_sorted.
  - apply desc_keeps.
  - apply desc_swaps.
  - intros x y z H1 H2. lra.
Qed.

Lemma in_firstn {A} (x : A) n l : In x (firstn n l) -> In x l.
Proof.
  revert l. induction n as [|n IH]; intros [|y l]; simpl; try tauto.
  intros [H|H]; [left; exact H | right; apply IH, H].
Qed.

Lemma descending_firstn {A} (score : A -> Q) n l :
  descending score l -> descending score (firstn n l).
Proof.
  intros H. revert n. induction H as [|x l Hl IH Hx]; intros [|n]; simpl;
    try constructor.
  - apply IH.
  - rewrite Forall_forall in *. intros y Hy. apply Hx.
    eapply in_firstn. exact Hy.
Qed.

Lemma descending_filter {A} (score : A -> Q) p l :
  descending score l -> descending score (filter p l).
Proof.
  induction 1 as [|x l Hl IH Hx]; simpl; [constructor|].
  destruct (p x); [|exact IH]. constructor; [exact IH|].
  rewrite Forall_forall in *. intros y Hy. apply Hx.
  apply filter_In in Hy. tauto.
Qed.

Lemma descending_map {A B} (f : A -> B) (sa : A -> Q) (sb : B -> Q) l :
  (forall x, sb (f x) = sa x) ->
  descending sa l -> descending sb (map f l).
Proof.
  intros Hf. induction 1 as [|x l Hl IH Hx]; simpl; constructor.
  - exact IH.
  - rewrite Forall_forall in *. intros y Hy.
    apply in_map_iff in Hy. destruct Hy as [z [<- Hz]].
    rewrite !Hf. apply Hx, Hz.
Qed.

(** ** The hybrid blend *)

Lemma add_collab_set m k :
  add_collab m k = mset m (rec_id k) (collab_entry m k).
Proof.
  unfold add_collab, collab_entry. destruct (mget m (rec_id k)); reflexivity.
Qed.

Lemma content_pass l :
  forall m, NoDup (map rec_id l) ->
    (forall c, In c l ->
       mget (fold_left add_content l m) (rec_id c)
       = Some (with_combined c (similarity_score c * 0.6))) /\
    (forall id, ~ In id (map rec_id l) ->
       mget (fold_left add_content l m) id = mget m id).
Proof.
  induction l as [|c0 l IH]; intros m ND; simpl.
  - split; [intros c [] | reflexivity].
  - inversion ND as [|? ? Hn ND']; subst.
    destruct (IH (add_content m c0) ND') as [Hin Hout]. split.
    + intros c [<-|Hc]; [|apply Hin, Hc].
      rewrite (Hout _ Hn). apply mget_mset_same.
    + intros id Hid. rewrite Hout by tauto.
      apply mget_mset_other. tauto.
Qed.

Lemma collab_pass l :
  forall m, NoDup (map rec_id l) ->
    (forall k, In k l ->
       mget (fold_left add_collab l m) (rec_id k) = Some (collab_entry m k)) /\
    (forall id, ~ In id (map rec_id l) ->
       mget (fold_left add_collab l m) id = mget m id).
Proof.
  induction l as [|k0 l IH]; intros m ND; simpl.
  - split; [intros k [] | reflexivity].
  - inversion ND as [|? ? Hn ND']; subst.
    destruct (IH (add_collab m k0) ND') as [Hin Hout]. split.
    + intros k [<-|Hk].
      * rewrite (Hout _ Hn), add_collab_set. apply mget_mset_same.
      * rewrite (Hin _ Hk). f_equal. unfold collab_entry.
        rewrite add_collab_set, mget_mset_other; [reflexivity|].
        intros E. apply Hn. rewrite E. apply in_map, Hk.
    + intros id Hid. rewrite Hout by tauto. rewrite add_collab_set.
      apply mget_mset_other. tauto.
Qed.

Lemma blend_ok_set m k r :
  blend_ok m -> k = rec_id r -> recommendation_type r = hybrid ->
  blend_ok (mset m k r).
Proof.
  intros [ND Hm] Hk Hr. split.
  - apply (nodup_set Z.eqb Z_eqb_eq), ND.
  - intros k' r' H. apply (in_set Z.eqb Z_eqb_eq) in H.
    destruct H as [[-> ->]|H]; [split; assumption | apply Hm, H].
Qed.

Lemma blend_ok_combine contentRecs collabRecs :
  blend_ok (combine contentRecs collabRecs).
Proof.
  unfold combine.
  assert (H0 : blend_ok []) by (split; [constructor | intros ? ? []]).
  assert (H1 : forall l m, blend_ok m -> blend_ok (fold_left add_content l m)).
  { induction l as [|c l IH]; intros m Hm; simpl; [exact Hm|].
    apply IH. apply blend_ok_set; [exact Hm | reflexivity | reflexivity]. }
  assert (H2 : forall l m, blend_ok m -> blend_ok (fold_left add_collab l m)).
  { induction l as [|k l IH]; intros m Hm; simpl; [exact Hm|].
    apply IH. rewrite add_collab_set. unfold collab_entry.
    destruct (mget m (rec_id k)) as [ex|] eqn:G.
    - apply (get_in Z.eqb Z_eqb_eq) in G. destruct Hm as [ND Hm'].
      destruct (Hm' _ _ G) as [Hk Ht].
      apply blend_ok_set; [split; assumption | exact Hk | exact Ht].
    - apply blend_ok_set; [exact Hm | reflexivity | reflexivity]. }
  apply H2, H1, H0.
Qed.

(** C4. For input lists that name each item at most once: an item in both
    lists has combined score content * 0.6 + collaborative * 0.4; an item
    only in the content list has content * 0.6; an item only in the
    collaborative list has collaborative * 0.4; and every record the blend
    returns is the record held for its item, tagged hybrid. *)
Theorem hybrid_combined_score :
  forall contentRecs collabRecs,
    NoDup (map rec_id contentRecs) ->
    NoDup (map rec_id collabRecs) ->
    (forall c k, In c contentRecs -> In k collabRecs -> rec_id c = rec_id k ->
       combined_of (combine contentRecs collabRecs) (rec_id c)
       = Some (similarity_score c * 0.6 + similarity_score k * 0.4)) /\
    (forall c, In c contentRecs -> ~ In (rec_id c) (map rec_id collabRecs) ->
       combined_of (combine contentRecs collabRecs) (rec_id c)
       = Some (similarity_score c * 0.6)) /\
    (forall k, In k collabRecs -> ~ In (rec_id k) (map rec_id contentRecs) ->
       combined_of (combine contentRecs collabRecs) (rec_id k)
       = Some (similarity_score k * 0.4)) /\
    (forall limit r, In r (blend contentRecs collabRecs limit) ->
       mget (combine contentRecs collabRecs) (rec_id r) = Some r /\
       recommendation_type r = hybrid).
Proof.
  intros cs ks NDc NDk.
  destruct (content_pass cs [] NDc) as [Cin Cout].
  destruct (collab_pass ks (fold_left add_content cs []) NDk) as [Kin Kout].
  unfold combined_of, combine. repeat split.
  - intros c k Hc Hk E. rewrite E, (Kin _ Hk). unfold collab_entry.
    rewrite <- E, (Cin _ Hc). reflexivity.
  - intros c Hc Hn. rewrite (Kout _ Hn), (Cin _ Hc). reflexivity.
  - intros k Hk Hn. rewrite (Kin _ Hk). unfold collab_entry.
    rewrite (Cout _ Hn). reflexivity.
  - unfold blend, slice0 in H. apply in_firstn in H.
    apply js_sort_in in H. unfold JSMap.values in H.
    apply in_map_iff in H. destruct H as [[k r'] [E H]]. simpl in E. subst r'.
    destruct (blend_ok_combine cs ks) as [ND Hm].
    destruct (Hm _ _ H) as [-> _].
    apply (in_get_nodup Z.eqb Z_eqb_eq); assumption.
  - unfold blend, slice0 in H. apply in_firstn in H.
    apply js_sort_in in H. unfold JSMap.values in H.
    apply in_map_iff in H. destruct H as [[k r'] [E H]]. simpl in E. subst r'.
    destruct (blend_ok_combine cs ks) as [ND Hm].
    apply (Hm _ _ H).
Qed.

Lemma hybrid_combined_score_witness :
  (forall c k, In c Scenario.content_list -> In k Scenario.collab_list ->
     rec_id c = rec_id k ->
     combined_of (combine Scenario.content_list Scenario.collab_list)
       (rec_id c)
     = Some (similarity_score c * 0.6 + similarity_score k * 0.4)) /\
  (forall c, In c Scenario.content_list ->
     ~ In (rec_id c) (map rec_id Scenario.collab_list) ->
     combined_of (combine Scenario.content_list Scenario.collab_list)
       (rec_id c)
     = Some (similarity_score c * 0.6)) /\
  (forall k, In k Scenario.collab_list ->
     ~ In (rec_id k) (map rec_id Scenario.content_list) ->
     combined_of (combine Scenario.content_list Scenario.collab_list)
       (rec_id k)
     = Some (similarity_score k * 0.4)) /\
  (forall limit r,
     In r (blend Scenario.content_list Scenario.collab_list limit) ->
     mget (combine Scenario.content_list Scenario.collab_list) (rec_id r)
     = Some r /\
     recommendation_type r = hybrid).
Proof.
  apply (hybrid_combined_score Scenario.content_list Scenario.collab_list).
  - simpl. repeat constructor; simpl; intuition discriminate.
  - simpl. repeat constructor; simpl; intuition discriminate.
Defined.

Example blend_scores :
  map (fun r => (rec_id r, combined_score r))
    (blend Scenario.content_list Scenario.collab_list 10)
  = [(2%Z, Some (0.25 * 0.6 + 10 * 0.4)); (3%Z, Some (5 * 0.4));
     (1%Z, Some (0.5 * 0.6))].
Proof. reflexivity. Qed.

(** ** The two-user scenario *)

(** C7. After A purchased item 1 and B liked item 1 and purchased item 2,
    A's vector is item 1 -> 10 and B's is item 1 -> 3, item 2 -> 10;
    [findSimilarUsers] for A returns exactly B with similarity 1; and
    [getCollaborativeRecommendations] for A returns a collaborative record
    for item 2 with score 10. *)
Theorem two_user_scenario :
  userItemMatrix Scenario.after_events
    = [("A", [(1%Z, 10)]); ("B", [(1%Z, 3); (2%Z, 10)])] /\
  (exists s,
     findSimilarUsers (userItemMatrix Scenario.after_events) "A" 10
       = [("B", s)] /\ s == 1) /\
  (exists recs w',
     getCollaborativeRecommendations "A" 10 Scenario.after_events
       = (Return recs, w') /\
     exists r,
       In r recs /\ rec_id r = 2%Z /\
       recommendation_type r = collaborative /\
       similarity_score r == 10).
Proof.
  split; [vm_compute; reflexivity|]. split.
  - eexists. split; [vm_compute; reflexivity | reflexivity].
  - eexists. eexists. split; [vm_compute; reflexivity|].
    eexists. split; [left; reflexivity|].
    repeat split; reflexivity.
Qed.

(** ** What the recommendation operations can return *)

Lemma getFallback_result (P : list Rec -> Prop) limit w :
  P [] -> (forall ps, P (fallback_list ps limit)) ->
  exists recs w',
    getFallbackRecommendations limit w = (Return recs, w') /\ P recs.
Proof.
  intros P0 Pf.
  destruct (getFallback_spec limit w) as (recs & w' & E & _ & Hor & _).
  exists recs, w'. split; [exact E|].
  destruct Hor as [-> | ->]; auto.
Qed.

Lemma attach_products_spec ps sorted w recs w' :
  attach_products ps sorted w = (Return recs, w') ->
  w' = w /\ map key_score recs = sorted /\ Forall is_collaborative recs.
Proof.
  revert recs. induction sorted as [|[pid score] sorted IH]; intros recs; simpl.
  - intros [= <- <-]. repeat split. constructor.
  - destruct (find _ ps) as [p|] eqn:F; [|discriminate].
    unfold bind.
    destruct (attach_products ps sorted w) as [[rs|e] w1]; [|discriminate].
    intros [= <- <-]. destruct (IH rs eq_refl) as (-> & Hm & Hc).
    split; [reflexivity|]. split.
    + simpl. unfold key_score at 1, rec_id. simpl.
      rewrite (find_id_eq _ _ _ F), Hm. reflexivity.
    + constructor; [reflexivity | exact Hc].
Qed.

Lemma collaborative_fetch_spec sorted w recs w' :
  collaborative_fetch sorted w = (Return recs, w') ->
  exists full,
    map key_score full = sorted /\ Forall is_collaborative full /\
    recs = filter (fun item => truthy_id (rec_id item)) full.
Proof.
  unfold collaborative_fetch, bind.
  destruct (Product_find_in (map fst sorted) w) as [[ps|e] w1];
    [|discriminate].
  destruct (attach_products ps sorted w1) as [[full|e] w2] eqn:E;
    [|discriminate].
  intros [= <- <-]. apply attach_products_spec in E.
  exists full. tauto.
Qed.

Lemma collaborative_body_cases uid limit w :
  collaborative_body uid limit w = getFallbackRecommendations limit w \/
  exists ui,
    uget (userItemMatrix w) uid = Some ui /\
    collaborative_body uid limit w
    = collaborative_fetch
        (collaborative_ranking (userItemMatrix w) uid ui limit) w.
Proof.
  unfold collaborative_body, bind, gets.
  destruct (uget (userItemMatrix w) uid) as [ui|]; [|left; reflexivity].
  destruct (Nat.eqb (JSMap.size ui) 0); [left; reflexivity|].
  destruct (Nat.eqb _ 0); [left; reflexivity|].
  right. exists ui. split; reflexivity.
Qed.

Lemma collaborative_result (P : list Rec -> Prop) uid limit w :
  P [] -> (forall ps, P (fallback_list ps limit)) ->
  (forall ui full,
     uget (userItemMatrix w) uid = Some ui ->
     map key_score full
       = collaborative_ranking (userItemMatrix w) uid ui limit ->
     Forall is_collaborative full ->
     P (filter (fun item => truthy_id (rec_id item)) full)) ->
  exists recs w',
    getCollaborativeRecommendations uid limit w = (Return recs, w') /\ P recs.
Proof.
  intros P0 Pf Pm. unfold getCollaborativeRecommendations, try_catch.
  destruct (collaborative_body_cases uid limit w) as [E | (ui & G & E)];
    rewrite E.
  - destruct (getFallback_result P limit w P0 Pf) as (recs & w' & R & HP).
    rewrite R. eauto.
  - destruct (collaborative_fetch _ w) as [[recs|e] w1] eqn:F.
    + apply collaborative_fetch_spec in F.
      destruct F as (full & Hm & Hc & ->). eauto.
    + apply getFallback_result; assumption.
Qed.

(** ** Collaborative recommendations and the user's own items *)

Lemma add_neighbour_items_keys ui sim items :
  forall recs,
    (forall k, In k (JSMap.keys recs) -> mget ui k = None) ->
    forall k, In k (JSMap.keys (add_neighbour_items ui sim recs items)) ->
              mget ui k = None.
Proof.
  unfold add_neighbour_items.
  induction items as [|[pid weight] items IH]; intros recs Hr; simpl;
    [exact Hr|].
  apply IH. unfold mhas, JSMap.has. fold (@mget Q ui pid).
  destruct (mget ui pid) eqn:G; simpl; [exact Hr|].
  intros k Hk. unfold JSMap.keys in Hk. apply in_map_iff in Hk.
  destruct Hk as [[k' v'] [<- Hk]]. simpl.
  apply (in_set Z.eqb Z_eqb_eq) in Hk. destruct Hk as [[-> _]|Hk];
    [exact G|].
  apply Hr. apply (in_map fst) in Hk. exact Hk.
Qed.

Lemma aggregate_keys matrix ui sus :
  forall k, In k (JSMap.keys (aggregate matrix ui sus)) -> mget ui k = None.
Proof.
  unfold aggregate.
  assert (H : forall recs,
             (forall k, In k (JSMap.keys recs) -> mget ui k = None) ->
             forall k,
               In k (JSMap.keys
                       (fold_left
                          (fun recs su =>
                             let '(similarUserId, similarity) := su in
                             match uget matrix similarUserId with
                             | Some sui =>
                                 add_neighbour_items ui similarity recs sui
                             | None => recs
                             end) sus recs)) ->
               mget ui k = None).
  { induction sus as [|[su sim] sus IH]; intros recs Hr; simpl; [exact Hr|].
    apply IH. destruct (uget matrix su); [|exact Hr].
    apply add_neighbour_items_keys, Hr. }
  apply H. intros k [].
Qed.




(** ** Results of the content operation *)

Lemma yields_ret {A} (P : A -> Prop) a : P a -> yields P (ret a).
Proof. intros H w a' w' [= <- _]. exact H. Qed.

Lemma yields_bind {A B} (P : B -> Prop) (c : M A) (k : A -> M B) :
  (forall a, yields P (k a)) -> yields P (bind c k).
Proof.
  intros H w b w'. unfold bind.
  destruct (c w) as [[a|e] w1]; [apply H | discriminate].
Qed.

Lemma yields_try_catch {A} (P : A -> Prop) (body : M A) h :
  yields P body -> (forall e, yields P (h e)) -> yields P (try_catch body h).
Proof.
  intros Hb Hh w a w'. unfold try_catch.
  destruct (body w) as [[a1|e] w1] eqn:E.
  - intros [= <- <-]. eapply Hb, E.
  - apply Hh.
Qed.

Lemma yields_fallback (P : list Rec -> Prop) limit :
  P [] -> (forall ps, P (fallback_list ps limit)) ->
  yields P (getFallbackRecommendations limit).
Proof.
  intros P0 Pf w recs w' E.
  destruct (getFallback_result P limit w P0 Pf) as (recs' & w'' & E' & HP).
  rewrite E in E'. injection E' as <- _. exact HP.
Qed.

Lemma yields_at_any {A} w0 (P : A -> Prop) c : yields P c -> yields_at w0 P c.
Proof. intros H w a w' _ E. exact (H w a w' E). Qed.

(** One step of a computation that only reads: what it returns satisfies
    [Q], and the rest runs over the same data. *)
Lemma yields_at_bind {A B} w0 (Q : A -> Prop) (P : B -> Prop)
    (c : M A) (k : A -> M B) :
  reads_only c ->
  yields_at w0 Q c ->
  (forall a, Q a -> yields_at w0 P (k a)) ->
  yields_at w0 P (bind c k).
Proof.
  intros Rc Hc Hk w b w' S E. unfold bind in E.
  destruct (Rc w) as [S1 _].
  destruct (c w) as [[a|e] w1] eqn:Ec; [|discriminate].
  apply (Hk a (Hc w a w1 S Ec) w1 b w'); [|exact E].
  eapply same_data_trans; [exact S | exact S1].
Qed.

Lemma yields_at_query {A} w0 (f : World -> A) :
  (forall fs, f (set_faults fs w0) = f w0) ->
  yields_at w0 (fun a => a = f w0) (db_call ;;; gets f).
Proof.
  intros Hf w a w' S E. unfold bind, gets in E.
  destruct (db_call_reads w) as [S1 _].
  destruct (db_call w) as [[[]|e] w1]; [|discriminate].
  injection E as <- _. simpl in S1.
  destruct (same_data_trans _ _ _ S S1) as [fs ->]. apply Hf.
Qed.

Lemma yields_at_gets {A} w0 (f : World -> A) :
  (forall fs, f (set_faults fs w0) = f w0) ->
  yields_at w0 (fun a => a = f w0) (gets f).
Proof.
  intros Hf w a w' [fs ->] E. unfold gets in E. injection E as <- _.
  apply Hf.
Qed.

Lemma query_reads {A} (f : World -> A) : reads_only (db_call ;;; gets f).
Proof. reads_tac. Qed.

(** The lists [getContentBasedRecommendations] can return in a world: the
    empty list, a popularity fallback list, or the ranking of the
    similarities computed for some target against the products the query
    enumerates. *)
Lemma yields_content (P : list Rec -> Prop) tf uid anchor limit w0 :
  P [] -> (forall ps, P (fallback_list ps limit)) ->
  (forall target similarities,
     similarities_of tf (tfidf_documents w0) (productFeatures w0) target
       (content_candidates w0 target) = Return similarities ->
     P (rankSimilarTo similarities limit)) ->
  yields_at w0 P (getContentBasedRecommendations tf uid anchor limit).
Proof.
  intros P0 Pf Pr.
  pose proof (yields_at_any w0 P _ (yields_fallback P limit P0 Pf)) as Hf.
  assert (Ht : forall t, yields_at w0 P (content_from_target tf t limit)).
  { intros [tp|]; simpl; [|exact Hf].
    apply (yields_at_bind w0 (fun pf => pf = productFeatures w0));
      [apply gets_reads | apply yields_at_gets; reflexivity |].
    intros pf ->. destruct (mget _ (product_id tp)); [|exact Hf].
    apply (yields_at_bind w0
             (fun ps => ps = content_candidates w0 (product_id tp)));
      [apply query_reads | apply (yields_at_query w0); reflexivity |].
    intros ps ->.
    apply (yields_at_bind w0 (fun docs => docs = tfidf_documents w0));
      [apply gets_reads | apply yields_at_gets; reflexivity |].
    intros docs ->. intros w recs w' _ E. unfold bind, lift in E.
    destruct (similarities_of _ _ _ _ _) as [sims|e] eqn:Es; [|discriminate].
    injection E as <- _. apply (Pr _ _ Es). }
  assert (Hh : yields_at w0 P (content_from_history tf uid limit)).
  { unfold content_from_history.
    apply (yields_at_bind w0 (fun _ => True));
      [apply User_findById_reads | intros ? ? ? _ _; exact I |].
    intros [u|] _; [|exact Hf].
    destruct (Nat.eqb _ 0); [exact Hf|].
    destruct (sortedInteractions _) as [|first rest].
    - intros w a w' _. discriminate.
    - apply (yields_at_bind w0 (fun _ => True));
        [apply Product_findOne_reads | intros ? ? ? _ _; exact I |].
      intros t _. apply Ht. }
  assert (Hb : yields_at w0 P (content_body tf uid anchor limit)).
  { unfold content_body. destruct anchor as [pid|]; [|exact Hh].
    destruct (truthy_id pid); [|exact Hh].
    apply (yields_at_bind w0 (fun _ => True));
      [apply Product_findOne_reads | intros ? ? ? _ _; exact I |].
    intros t _. apply Ht. }
  intros w recs w' S. unfold getContentBasedRecommendations, try_catch.
  destruct (content_body tf uid anchor limit w) as [[a|e] w1] eqn:E.
  - intros [= <- <-]. exact (Hb w a w1 S E).
  - apply (yields_fallback P limit P0 Pf).
Qed.

Lemma content_result (P : list Rec -> Prop) tf uid anchor limit w :
  P [] -> (forall ps, P (fallback_list ps limit)) ->
  (forall target similarities,
     similarities_of tf (tfidf_documents w) (productFeatures w) target
       (content_candidates w target) = Return similarities ->
     P (rankSimilarTo similarities limit)) ->
  exists recs w',
    getContentBasedRecommendations tf uid anchor limit w = (Return recs, w')
    /\ P recs.
Proof.
  intros P0 Pf Pr.
  destruct (content_returns tf uid anchor limit w) as (recs & w' & E).
  exists recs, w'. split; [exact E|].
  eapply (yields_content P tf uid anchor limit w P0 Pf Pr);
    [apply same_data_refl | exact E].
Qed.

(** ** Ranked lists are in descending order of score *)

Lemma popularity_keeps x y :
  Qle_bool (popularity_cmp x y) 0 = true -> rating y / 5 <= rating x / 5.
Proof.
  unfold popularity_cmp. intros H.
  assert (L : rating y <= rating x).
  { destruct (Qeqb (rating x) (rating y)) eqn:E; simpl in H.
    - apply Qeqb_true in E. lra.
    - apply Qle_bool_iff in H. lra. }
  unfold Qdiv. apply Qmult_le_compat_r; [exact L | discriminate].
Qed.

Lemma popularity_swaps x y :
  Qle_bool (popularity_cmp x y) 0 = false -> rating x / 5 <= rating y / 5.
Proof.
  unfold popularity_cmp. intros H.
  assert (L : rating x <= rating y).
  { destruct (Qeqb (rating x) (rating y)) eqn:E; simpl in H.
    - apply Qeqb_true in E. lra.
    - destruct (Qlt_le_dec (rating y) (rating x)) as [Lt|Le]; [|exact Le].
      assert (T : Qle_bool (rating y - rating x) 0 = true)
        by (apply Qle_bool_iff; lra).
      congruence. }
  unfold Qdiv. apply Qmult_le_compat_r; [exact L | discriminate].
Qed.

Lemma popular_descending ps :
  descending (fun p => rating p / 5) (js_sort popularity_cmp ps).
Proof.
  apply js_sort_sorted.
  - apply popularity_keeps.
  - apply popularity_swaps.
  - intros x y z H1 H2. lra.
Qed.

Lemma fallback_list_descending ps limit :
  descending similarity_score (fallback_list ps limit).
Proof.
  unfold fallback_list.
  apply (descending_map fallback_rec (fun p => rating p / 5));
    [reflexivity|].
  destruct limit as [|n]; unfold db_limit;
    [|apply (descending_firstn _ (S n))]; apply popular_descending.
Qed.

Lemma fallback_list_ranked ps limit :
  (0 < limit)%nat -> ranked limit (fallback_list ps limit).
Proof.
  intros Hl. split; [apply fallback_list_descending|].
  unfold fallback_list. rewrite length_map.
  destruct limit as [|n]; [lia|]. apply firstn_le_length.
Qed.

Lemma rankSimilarTo_ranked similarities limit :
  ranked limit (rankSimilarTo similarities limit).
Proof.
  unfold rankSimilarTo, slice0. split.
  - apply (descending_map content_rec snd); [reflexivity|].
    apply descending_firstn, js_sort_descending.
  - rewrite length_map. apply firstn_le_length.
Qed.

Lemma descending_unmap {A B} (f : A -> B) (sa : A -> Q) (sb : B -> Q) l :
  (forall x, sb (f x) = sa x) ->
  descending sb (map f l) -> descending sa l.
Proof.
  intros Hf. induction l as [|x l IH]; simpl; intros H; [constructor|].
  inversion H as [|? ? Hl Hx]; subst. constructor; [apply IH, Hl|].
  rewrite Forall_forall in *. intros y Hy.
  rewrite <- !Hf. apply Hx, in_map, Hy.
Qed.

Lemma collaborative_ranking_ranked matrix uid ui limit full :
  map key_score full = collaborative_ranking matrix uid ui limit ->
  ranked limit (filter (fun item => truthy_id (rec_id item)) full).
Proof.
  intros Hm. split.
  - apply descending_filter.
    apply (descending_unmap key_score similarity_score snd);
      [reflexivity|].
    rewrite Hm. unfold collaborative_ranking, sortedRecommendations, slice0.
    apply descending_firstn, js_sort_descending.
  - etransitivity; [apply filter_length_le|].
    rewrite <- (length_map key_score), Hm.
    unfold collaborative_ranking, sortedRecommendations, slice0.
    apply firstn_le_length.
Qed.

(** *** Ties *)

Lemma subseq_refl {A} (l : list A) : subseq l l.
Proof. induction l; constructor; assumption. Qed.

Lemma subseq_trans {A} (l1 l2 l3 : list A) :
  subseq l1 l2 -> subseq l2 l3 -> subseq l1 l3.
Proof.
  intros H12 H23. revert l1 H12.
  induction H23 as [l|x l2 l3 H IH|x l2 l3 H IH]; intros l1 H12.
  - inversion H12; subst. constructor.
  - apply subseq_skip, IH, H12.
  - inversion H12; subst.
    + constructor.
    + apply subseq_skip, IH. assumption.
    + apply subseq_take, IH. assumption.
Qed.

Lemma subseq_filter_imp {A} (p q : A -> bool) l1 l2 :
  (forall x, p x = true -> q x = true) ->
  subseq l1 l2 -> subseq (filter p l1) (filter q l2).
Proof.
  intros Hpq. induction 1 as [l|x l1 l2 H IH|x l1 l2 H IH]; simpl.
  - constructor.
  - destruct (q x); [apply subseq_skip|]; exact IH.
  - destruct (p x) eqn:Px.
    + rewrite (Hpq x Px). apply subseq_take, IH.
    + destruct (q x); [apply subseq_skip|]; exact IH.
Qed.

Lemma subseq_filter {A} (p : A -> bool) l : subseq (filter p l) l.
Proof.
  induction l as [|x l IH]; simpl; [constructor|].
  destruct (p x); [apply subseq_take | apply subseq_skip]; exact IH.
Qed.

Lemma subseq_firstn {A} n (l : list A) : subseq (firstn n l) l.
Proof.
  revert l. induction n as [|n IH]; intros [|x l]; simpl;
    try apply subseq_nil.
  apply subseq_take, IH.
Qed.

Lemma subseq_map {A B} (f : A -> B) l1 l2 :
  subseq l1 l2 -> subseq (map f l1) (map f l2).
Proof. induction 1; simpl; constructor; assumption. Qed.

Lemma filter_map_comm {A B} (f : A -> B) (p : B -> bool) l :
  filter p (map f l) = map f (filter (fun x => p (f x)) l).
Proof.
  induction l as [|x l IH]; simpl; [reflexivity|].
  destruct (p (f x)); simpl; rewrite IH; reflexivity.
Qed.

(** Among the candidates kept by the sort and the cut, those with the
    score [s] are still in the order of the candidates. *)
Lemma ties_of_ranking {A} (score : A -> Q) s n l :
  subseq
    (filter (fun c => Qeqb (score c) s)
       (firstn n (js_sort (desc_by score) l))) l.
Proof.
  eapply subseq_trans.
  - apply (subseq_filter_imp _ (fun c => Qeqb (score c) s));
      [auto | apply subseq_firstn].
  - rewrite js_sort_stable; [apply subseq_filter|].
    intros a b Ha Hb. apply Qeqb_true in Ha, Hb.
    unfold desc_by. apply Qle_bool_iff. lra.
Qed.

Lemma similarities_of_subseq tf docs pf target ps :
  forall similarities,
    similarities_of tf docs pf target ps = Return similarities ->
    subseq (map fst similarities) ps.
Proof.
  induction ps as [|p ps IH]; simpl; intros sims.
  - intros [= <-]. constructor.
  - destruct (calculateProductSimilarity _ _ _ _ _) as [q|e]; [|discriminate].
    destruct (similarities_of tf docs pf target ps) as [rest|e];
      [|discriminate].
    intros [= <-]. specialize (IH rest eq_refl).
    destruct (Qgtb q 0); simpl; [apply subseq_take | apply subseq_skip];
      exact IH.
Qed.

Lemma tied_at_other_kind kind other s recs :
  RecType_eqb other kind = false ->
  Forall (fun r => recommendation_type r = other) recs ->
  tied_at kind s recs = [].
Proof.
  intros Hk. unfold tied_at. induction 1 as [|r recs Hr _ IH]; simpl;
    [reflexivity|].
  rewrite Hr, Hk. simpl. exact IH.
Qed.

Lemma content_ties w tf target similarities limit s :
  similarities_of tf (tfidf_documents w) (productFeatures w) target
    (content_candidates w target) = Return similarities ->
  subseq (map rec_product
            (tied_at content_based s (rankSimilarTo similarities limit)))
    (db_products w).
Proof.
  intros E. unfold tied_at, rankSimilarTo, slice0.
  rewrite filter_map_comm, map_map. simpl.
  apply subseq_trans with (map fst similarities).
  - apply subseq_map. apply (ties_of_ranking snd s limit similarities).
  - eapply subseq_trans; [apply (similarities_of_subseq _ _ _ _ _ _ E)|].
    apply subseq_filter.
Qed.

Lemma collaborative_ties matrix uid ui limit full s :
  map key_score full = collaborative_ranking matrix uid ui limit ->
  subseq
    (map key_score
       (tied_at collaborative s
          (filter (fun item => truthy_id (rec_id item)) full)))
    (aggregate matrix ui (findSimilarUsers matrix uid 10)).
Proof.
  intros Hm.
  apply subseq_trans
    with (map key_score
            (filter (fun r => Qeqb (similarity_score r) s) full)).
  - apply subseq_map. unfold tied_at.
    apply subseq_filter_imp; [|apply subseq_filter].
    intros x Hx. apply andb_true_iff in Hx. tauto.
  - assert (E : map key_score
                  (filter (fun r => Qeqb (similarity_score r) s) full)
                = filter (fun e => Qeqb (snd e) s) (map key_score full)).
    { rewrite filter_map_comm. reflexivity. }
    rewrite E, Hm.
    unfold collaborative_ranking, sortedRecommendations, slice0.
    apply ties_of_ranking.
Qed.

(** C9, as the code has it. For a positive limit, the lists returned by
    [getContentBasedRecommendations] and [getCollaborativeRecommendations]
    are in descending order of score and hold at most [limit] records, and
    no tie is broken by item id: the content-based records that share a
    score are in the order in which the product query enumerates their
    products, and the collaborative records that share a score are in the
    order in which their items entered the aggregated map of the similar
    users. *)
Theorem rankings_descending_and_truncated :
  forall tf uid anchor limit w,
    (0 < limit)%nat ->
    (exists recs w',
       getContentBasedRecommendations tf uid anchor limit w
         = (Return recs, w') /\
       ranked limit recs /\
       forall s,
         subseq (map rec_product (tied_at content_based s recs))
           (db_products w)) /\
    (exists recs w',
       getCollaborativeRecommendations uid limit w = (Return recs, w') /\
       ranked limit recs /\
       forall s,
         subseq (map key_score (tied_at collaborative s recs))
           (aggregate (userItemMatrix w) (row_of (userItemMatrix w) uid)
              (findSimilarUsers (userItemMatrix w) uid 10))).
Proof.
  intros tf uid anchor limit w Hl.
  assert (P0 : ranked limit []) by (split; [constructor | simpl; lia]).
  split.
  - apply content_result.
    + split; [exact P0|]. intros s. constructor.
    + intros ps. split; [apply fallback_list_ranked, Hl|]. intros s.
      rewrite (tied_at_other_kind content_based fallback);
        [constructor | reflexivity | apply fallback_list_tagged].
    + intros target sims E. split; [apply rankSimilarTo_ranked|].
      intros s. apply (content_ties w tf target sims limit s E).
  - apply collaborative_result.
    + split; [exact P0|]. intros s. constructor.
    + intros ps. split; [apply fallback_list_ranked, Hl|]. intros s.
      rewrite (tied_at_other_kind collaborative fallback);
        [constructor | reflexivity | apply fallback_list_tagged].
    + intros ui full G Hm _. split.
      * apply (collaborative_ranking_ranked (userItemMatrix w) uid ui), Hm.
      * intros s. unfold row_of. rewrite G.
        apply (collaborative_ties _ _ _ limit), Hm.
Qed.

Lemma rankings_descending_and_truncated_witness :
  (exists recs w',
     getContentBasedRecommendations Scenario.no_text "A" (Some 1%Z) 3
       Scenario.busy = (Return recs, w') /\
     ranked 3 recs /\
     forall s,
       subseq (map rec_product (tied_at content_based s recs))
         (db_products Scenario.busy)) /\
  (exists recs w',
     getCollaborativeRecommendations "A" 3 Scenario.busy
       = (Return recs, w') /\
     ranked 3 recs /\
     forall s,
       subseq (map key_score (tied_at collaborative s recs))
         (aggregate (userItemMatrix Scenario.busy)
            (row_of (userItemMatrix Scenario.busy) "A")
            (findSimilarUsers (userItemMatrix Scenario.busy) "A" 10))).
Proof.
  apply (rankings_descending_and_truncated Scenario.no_text "A" (Some 1%Z) 3
           Scenario.busy).
  lia.
Defined.

Example busy_rankings :
  exists content collab,
    fst (getContentBasedRecommendations Scenario.no_text "A" (Some 1%Z) 3
           Scenario.busy) = Return content /\
    fst (getCollaborativeRecommendations "A" 3 Scenario.busy)
      = Return collab /\
    map rec_id content = [2; 4; 3]%Z /\
    map rec_id collab = [3; 2]%Z.
Proof.
  eexists. eexists. split; [vm_compute; reflexivity|].
  split; [vm_compute; reflexivity|]. split; reflexivity.
Qed.

Example similar_to_1 :
  exists recs,
    fst (getContentBasedRecommendations Scenario.no_text "A" (Some 1%Z) 2
           Scenario.indexed) = Return recs /\
    map rec_id recs = [2; 4]%Z /\
    Forall (fun r => recommendation_type r = content_based) recs.
Proof.
  eexists. split; [vm_compute; reflexivity|].
  split; [reflexivity | repeat constructor].
Qed.

(** C9, as stated, fails: items 3 and 2 reach A with the same score 5 and
    are returned in the order 3, 2, the order of B's row. *)
Lemma ties_keep_enumeration_order :
  exists r1 r2,
    fst (getCollaborativeRecommendations "A" 10 Scenario.tied)
      = Return [r1; r2] /\
    similarity_score r1 == similarity_score r2 /\
    rec_id r1 = 3%Z /\ rec_id r2 = 2%Z.
Proof.
  eexists. eexists. split; [vm_compute; reflexivity|].
  repeat split; reflexivity.
Qed.

(** ** The hybrid mode for a user without interactions *)

Lemma mset_append {V} (m : list (Z * V)) k v :
  ~ In k (JSMap.keys m) -> mset m k v = m ++ [(k, v)].
Proof.
  unfold mset.
  induction m as [|[k0 v0] m IH]; simpl; intros H; [reflexivity|].
  destruct (Z.eqb k0 k) eqn:E.
  - apply Z.eqb_eq in E. tauto.
  - rewrite IH by tauto. reflexivity.
Qed.

Lemma mget_middle {V} (m1 m2 : list (Z * V)) k v :
  ~ In k (JSMap.keys m1) -> mget (m1 ++ (k, v) :: m2) k = Some v.
Proof.
  unfold mget.
  induction m1 as [|[k0 v0] m1 IH]; simpl; intros H.
  - rewrite Z.eqb_refl. reflexivity.
  - destruct (Z.eqb k0 k) eqn:E.
    + apply Z.eqb_eq in E. tauto.
    + apply IH. tauto.
Qed.

Lemma mset_middle {V} (m1 m2 : list (Z * V)) k v v' :
  ~ In k (JSMap.keys m1) ->
  mset (m1 ++ (k, v) :: m2) k v' = m1 ++ (k, v') :: m2.
Proof.
  unfold mset.
  induction m1 as [|[k0 v0] m1 IH]; simpl; intros H.
  - rewrite Z.eqb_refl. reflexivity.
  - destruct (Z.eqb k0 k) eqn:E.
    + apply Z.eqb_eq in E. tauto.
    + rewrite IH by tauto. reflexivity.
Qed.

Lemma content_fold l :
  forall m, NoDup (JSMap.keys m ++ map rec_id l) ->
    fold_left add_content l m
    = m ++ map (fun r => (rec_id r,
                          with_combined r (similarity_score r * 0.6))) l.
Proof.
  induction l as [|r l IH]; intros m ND; simpl.
  - rewrite app_nil_r. reflexivity.
  - unfold add_content at 2. rewrite mset_append.
    + rewrite IH.
      * rewrite <- app_assoc. reflexivity.
      * unfold JSMap.keys in *. rewrite map_app, <- app_assoc. exact ND.
    + apply NoDup_remove_2 in ND. intros H. apply ND.
      apply in_or_app. left. exact H.
Qed.

Lemma collab_fold l :
  forall done, NoDup (JSMap.keys done ++ map rec_id l) ->
    fold_left add_collab l
      (done ++ map (fun r => (rec_id r,
                              with_combined r (similarity_score r * 0.6))) l)
    = done ++ map (fun r => (rec_id r, blended r)) l.
Proof.
  induction l as [|r l IH]; intros done ND; simpl; [reflexivity|].
  assert (Hd : ~ In (rec_id r) (JSMap.keys done)).
  { apply NoDup_remove_2 in ND. intros H. apply ND.
    apply in_or_app. left. exact H. }
  unfold add_collab at 2. rewrite (mget_middle _ _ _ _ Hd).
  rewrite (mset_middle _ _ _ _ _ Hd).
  change (done ++ ?x :: ?t) with (done ++ [x] ++ t). rewrite app_assoc.
  rewrite IH.
  - rewrite <- app_assoc. reflexivity.
  - unfold JSMap.keys in *. rewrite map_app, <- app_assoc. exact ND.
Qed.

Lemma combine_same l :
  NoDup (map rec_id l) ->
  JSMap.values (combine l l) = map blended l.
Proof.
  intros ND. unfold combine.
  rewrite (content_fold l []) by exact ND.
  rewrite (collab_fold l []) by exact ND.
  simpl. unfold JSMap.values. rewrite map_map. reflexivity.
Qed.

Lemma blended_in_order l :
  descending similarity_score l ->
  Sorted (fun x y =>
            Qle_bool (desc_by (fun r => or_zero (combined_score r)) x y) 0
            = true) (map blended l).
Proof.
  intros H. apply StronglySorted_Sorted.
  induction H as [|x l Hl IH Hx]; simpl; constructor; [exact IH|].
  rewrite Forall_forall in *. intros y Hy.
  apply in_map_iff in Hy. destruct Hy as [z [<- Hz]].
  specialize (Hx z Hz). unfold desc_by. simpl.
  apply Qle_bool_iff. lra.
Qed.

Lemma blend_same l limit :
  NoDup (map rec_id l) -> descending similarity_score l ->
  (List.length l <= limit)%nat ->
  blend l l limit = map blended l.
Proof.
  intros ND D L. unfold blend, slice0.
  rewrite (combine_same l ND), (js_sort_sorted_id _ _ (blended_in_order l D)).
  apply firstn_all2. rewrite length_map. exact L.
Qed.

Lemma NoDup_firstn {A} n (l : list A) : NoDup l -> NoDup (firstn n l).
Proof.
  intros H. rewrite <- (firstn_skipn n l) in H.
  apply NoDup_app_remove_r in H. exact H.
Qed.

Lemma fallback_list_ids ps limit :
  NoDup (map product_id ps) -> NoDup (map rec_id (fallback_list ps limit)).
Proof.
  intros ND. unfold fallback_list. rewrite map_map.
  change (fun x => rec_id (fallback_rec x)) with product_id.
  assert (S : NoDup (map product_id (js_sort popularity_cmp ps))).
  { eapply Permutation_NoDup; [|exact ND].
    apply Permutation_map. symmetry. apply js_sort_perm. }
  destruct limit as [|n]; unfold db_limit; [exact S|].
  rewrite <- firstn_map. apply NoDup_firstn, S.
Qed.

Lemma content_new_user tf uid limit w :
  db_faults w = [] -> no_interactions w uid ->
  getContentBasedRecommendations tf uid None limit w
  = (Return (fallback_list (db_products w) limit), w).
Proof.
  intros F [Hu _].
  destruct (getFallback_spec limit w) as (recs & w' & E & _ & _ & Hnf).
  destruct (Hnf F) as [-> ->].
  unfold getContentBasedRecommendations, try_catch, content_body,
    content_from_history, User_findById, bind.
  rewrite (db_call_no_fault _ F). unfold gets.
  destruct (find _ (db_users w)) as [u|]; simpl.
  - rewrite Hu. simpl. rewrite E. reflexivity.
  - rewrite E. reflexivity.
Qed.

Lemma collaborative_new_user uid limit w :
  db_faults w = [] -> no_interactions w uid ->
  getCollaborativeRecommendations uid limit w
  = (Return (fallback_list (db_products w) limit), w).
Proof.
  intros F [_ Hm].
  destruct (getFallback_spec limit w) as (recs & w' & E & _ & _ & Hnf).
  destruct (Hnf F) as [-> ->].
  unfold getCollaborativeRecommendations, try_catch, collaborative_body,
    bind, gets.
  destruct (uget (userItemMatrix w) uid) as [row|].
  - rewrite Hm. simpl. rewrite E. reflexivity.
  - rewrite E. reflexivity.
Qed.

(** *** The two lists awaited together *)

Lemma set_faults_same w : db_faults w = [] -> set_faults [] w = w.
Proof. intros F. destruct w. simpl in *. subst. reflexivity. Qed.

Lemma promise_all2_no_fault {A B} (first : M A) (second : M B) w a b :
  db_faults w = [] ->
  first w = (Return a, w) ->
  second w = (Return b, w) ->
  promise_all2 first second w = (Return (a, b), w).
Proof.
  intros F E1 E2. unfold promise_all2. rewrite F. cbn [evens odds tl].
  rewrite !firstn_nil, !skipn_nil. cbn [app].
  destruct (Nat.leb _ _); rewrite (set_faults_same w F), E1, E2;
    reflexivity.
Qed.

Lemma promise_all2_reads {A B} (first : M A) (second : M B) :
  reads_only (promise_all2 first second).
Proof.
  intros w. unfold promise_all2.
  set (fs1 := if Nat.leb _ _ then evens (db_faults w) else _).
  set (fs2 := if Nat.leb _ _ then _ else odds (db_faults w)).
  set (used := (_ + _)%nat).
  assert (H : forall o : Outcome (A * B),
             same_data w (snd (o, set_faults (skipn used (db_faults w)) w))
             /\ (db_faults w = [] ->
                 snd (o, set_faults (skipn used (db_faults w)) w) = w)).
  { intros o. split; [eexists; reflexivity|].
    intros F. simpl. rewrite F, skipn_nil. apply set_faults_same, F. }
  destruct (fst (first _)) as [a|e]; [|apply H].
  destruct (fst (second _)) as [b|e]; apply H.
Qed.

Lemma evens_cons x l : evens (x :: l) = x :: evens (tl l).
Proof. destruct l; reflexivity. Qed.

Lemma evens_odds_subseq l : subseq (evens l) l /\ subseq (odds l) l.
Proof.
  unfold odds. induction l as [|x l [IH1 IH2]].
  - split; constructor.
  - split.
    + rewrite evens_cons. apply subseq_take, IH2.
    + simpl tl. apply subseq_skip, IH1.
Qed.

Lemma evens_firstn n :
  forall l, firstn (S n) (evens l) = evens (firstn (S (2 * n)) l).
Proof.
  induction n as [|n IH]; intros l.
  - destruct l as [|x l]; [reflexivity|].
    rewrite evens_cons. reflexivity.
  - replace (S (2 * S n)) with (S (S (S (2 * n)))) by lia.
    destruct l as [|x [|y l]]; try reflexivity.
    change (evens (x :: y :: l)) with (x :: evens l).
    change (firstn (S (S (S (2 * n)))) (x :: y :: l))
      with (x :: y :: firstn (S (2 * n)) l).
    change (evens (x :: y :: firstn (S (2 * n)) l))
      with (x :: evens (firstn (S (2 * n)) l)).
    rewrite <- IH. reflexivity.
Qed.

Lemma odds_firstn n l : firstn n (odds l) = odds (firstn (2 * n) l).
Proof.
  destruct n as [|n]; [reflexivity|].
  replace (2 * S n)%nat with (S (S (2 * n))) by lia.
  destruct l as [|x l]; [reflexivity|].
  unfold odds. change (tl (x :: l)) with l.
  change (tl (firstn (S (S (2 * n))) (x :: l))) with (firstn (S (2 * n)) l).
  apply evens_firstn.
Qed.

Lemma subseq_app_tail {A} (l1 l2 r : list A) :
  subseq l1 l2 -> subseq (l1 ++ r) (l2 ++ r).
Proof.
  induction 1; simpl.
  - induction l as [|x l IH]; simpl; [apply subseq_refl|].
    apply subseq_skip, IH.
  - apply subseq_skip. assumption.
  - apply subseq_take. assumption.
Qed.

(** Each call meets a part of the pending faults, in their order. *)
Lemma lanes_subseq fs n :
  subseq (firstn (S n) (evens fs) ++ skipn (S (2 * n)) fs) fs /\
  subseq (firstn n (odds fs) ++ skipn (2 * n) fs) fs.
Proof.
  split.
  - rewrite evens_firstn.
    rewrite <- (firstn_skipn (S (2 * n)) fs) at 3.
    apply subseq_app_tail, evens_odds_subseq.
  - rewrite odds_firstn.
    rewrite <- (firstn_skipn (2 * n) fs) at 3.
    apply subseq_app_tail, evens_odds_subseq.
Qed.

Lemma hd_evens l : hd_error (evens l) = hd_error l.
Proof. destruct l as [|x [|y l]]; reflexivity. Qed.

Lemma hd_lane_first fs n :
  hd_error (firstn (S n) (evens fs) ++ skipn (S (2 * n)) fs) = hd_error fs.
Proof. destruct fs as [|x [|y l]]; reflexivity. Qed.

Lemma hd_lane_second fs n :
  (1 <= n)%nat ->
  hd_error (firstn n (odds fs) ++ skipn (2 * n) fs) = hd_error (tl fs).
Proof.
  intros Hn. destruct n as [|n]; [lia|].
  replace (2 * S n)%nat with (S (S (2 * n))) by lia.
  destruct fs as [|x [|y [|z l]]]; reflexivity.
Qed.

(** Each of the two calls sees the data of the world and a part of its
    fault schedule; the pair is returned as soon as both have returned.
    When the first call always makes a round trip, its first round trip
    meets the first pending fault and the first round trip of the second
    call meets the second one. *)
Lemma promise_all2_returns {A B} (first : M A) (second : M B) w :
  (forall w1, returns first w1) ->
  (forall w2, returns second w2) ->
  exists a b fs1 fs2 w',
    promise_all2 first second w = (Return (a, b), w') /\
    same_data w w' /\
    subseq fs1 (db_faults w) /\
    subseq fs2 (db_faults w) /\
    fst (first (set_faults fs1 w)) = Return a /\
    fst (second (set_faults fs2 w)) = Return b /\
    ((forall fs, (1 <= round_trips first fs w)%nat) ->
     hd_error fs1 = hd_error (db_faults w) /\
     hd_error fs2 = hd_error (tl (db_faults w))).
Proof.
  intros R1 R2. unfold promise_all2.
  set (n1 := round_trips first (evens (db_faults w)) w).
  set (n2 := round_trips second (odds (db_faults w)) w).
  set (fs1 := if Nat.leb n1 n2 then evens (db_faults w) else _).
  set (fs2 := if Nat.leb n1 n2 then _ else odds (db_faults w)).
  destruct (R1 (set_faults fs1 w)) as (a & w1 & E1).
  destruct (R2 (set_faults fs2 w)) as (b & w2 & E2).
  exists a, b, fs1, fs2. eexists. rewrite E1, E2. cbn [fst].
  split; [reflexivity|].
  split; [eexists; reflexivity|].
  split; [|split; [|split; [reflexivity|split; [reflexivity|]]]].
  - unfold fs1. destruct (Nat.leb n1 n2);
      [apply evens_odds_subseq | apply lanes_subseq].
  - unfold fs2. destruct (Nat.leb n1 n2);
      [apply lanes_subseq | apply evens_odds_subseq].
  - intros H1. pose proof (H1 (evens (db_faults w))) as Hn. fold n1 in Hn.
    unfold fs1, fs2. destruct (Nat.leb n1 n2).
    + split; [apply hd_evens | apply hd_lane_second, Hn].
    + split; [apply hd_lane_first|]. unfold odds. apply hd_evens.
Qed.

(** *** Round trips only take faults off the schedule *)

Lemma set_faults_self w : set_faults (db_faults w) w = w.
Proof. destruct w; reflexivity. Qed.

Lemma consumes_none {A} (c : M A) : (forall w, snd (c w) = w) -> consumes c.
Proof.
  intros H w. exists 0%nat. rewrite H. simpl. symmetry. apply set_faults_self.
Qed.

Lemma db_call_consumes : consumes db_call.
Proof.
  intros w. unfold db_call. destruct (db_faults w) as [|[] fs] eqn:E.
  - exists 0%nat. simpl. rewrite <- E. symmetry. apply set_faults_self.
  - exists 1%nat. reflexivity.
  - exists 1%nat. reflexivity.
Qed.

Lemma bind_consumes {A B} (c : M A) (k : A -> M B) :
  consumes c -> (forall a, consumes (k a)) -> consumes (bind c k).
Proof.
  intros Hc Hk w. unfold bind. destruct (Hc w) as [n1 E1].
  destruct (c w) as [[a|e] w1]; simpl in E1.
  - destruct (Hk a w1) as [n2 E2]. exists (n2 + n1)%nat.
    rewrite E2, E1. cbn [db_faults set_faults]. rewrite skipn_skipn.
    reflexivity.
  - exists n1. exact E1.
Qed.

Lemma try_catch_consumes {A} (c : M A) (h : JSError -> M A) :
  consumes c -> (forall e, consumes (h e)) -> consumes (try_catch c h).
Proof.
  intros Hc Hh w. unfold try_catch. destruct (Hc w) as [n1 E1].
  destruct (c w) as [[a|e] w1]; simpl in E1.
  - exists n1. exact E1.
  - destruct (Hh e w1) as [n2 E2]. exists (n2 + n1)%nat.
    rewrite E2, E1. cbn [db_faults set_faults]. rewrite skipn_skipn.
    reflexivity.
Qed.

Ltac consumes_tac :=
  repeat first
    [ apply bind_consumes; [| intros ?]
    | apply try_catch_consumes; [| intros ?]
    | apply db_call_consumes
    | solve [apply consumes_none; reflexivity]
    | match goal with
      | |- consumes (match ?x with _ => _ end) => destruct x
      | |- consumes (if ?b then _ else _) => destruct b
      end ].

Lemma getFallback_consumes limit :
  consumes (getFallbackRecommendations limit).
Proof.
  unfold getFallbackRecommendations, fallback_body, Product_find_popular.
  consumes_tac.
Qed.

Lemma content_from_target_consumes tf t limit :
  consumes (content_from_target tf t limit).
Proof.
  unfold content_from_target, Product_find_ne.
  consumes_tac; apply getFallback_consumes.
Qed.

(** A computation that starts with a round trip takes at least one entry
    off a schedule that has one. *)
Lemma starts_with_round_trip {A B} (f : World -> B) (k : B -> M A)
    (h : JSError -> M A) fs w :
  (forall b, consumes (k b)) -> (forall e, consumes (h e)) ->
  (1 <= round_trips (try_catch (bind (db_call ;;; gets f) k) h) fs w)%nat.
Proof.
  intros Hk Hh. unfold round_trips.
  set (schedule := fs ++ repeat false 8).
  assert (Hs : exists x rest, schedule = x :: rest).
  { unfold schedule. destruct fs as [|x fs]; simpl; eauto. }
  destruct Hs as (x & rest & Hs). rewrite Hs.
  assert (Hlen : (List.length
                    (db_faults
                       (snd (try_catch (bind (db_call ;;; gets f) k) h
                               (set_faults (x :: rest) w))))
                  <= List.length rest)%nat).
  { unfold try_catch, bind, db_call, gets. cbn [db_faults set_faults].
    destruct x; cbn [fst snd].
    - destruct (Hh MongoError
                  (set_faults rest (set_faults (true :: rest) w)))
        as [n E].
      rewrite E. cbn [db_faults set_faults]. rewrite length_skipn. lia.
    - destruct (Hk (f (set_faults rest (set_faults (false :: rest) w)))
                  (set_faults rest (set_faults (false :: rest) w)))
        as [n E].
      destruct (k _ _) as [[a|e] w1]; simpl in E.
      + cbn [snd]. rewrite E. cbn [db_faults set_faults].
        rewrite length_skipn. lia.
      + destruct (Hh e w1) as [n2 E2]. rewrite E2, E.
        cbn [db_faults set_faults]. rewrite !length_skipn. lia. }
  simpl List.length. lia.
Qed.

Lemma content_makes_a_round_trip tf uid limit fs w :
  (1 <= round_trips (getContentBasedRecommendations tf uid None limit) fs w)%nat.
Proof.
  unfold getContentBasedRecommendations, content_body, content_from_history,
    User_findById.
  apply starts_with_round_trip.
  - intros user. unfold Product_findOne.
    consumes_tac;
      first [apply getFallback_consumes | apply content_from_target_consumes].
  - intros e. apply getFallback_consumes.
Qed.

(** The body of the hybrid mode never throws: it returns the blend of what
    its two calls return. *)
Lemma hybrid_body_blend tf uid limit w :
  exists contentRecs collabRecs fs1 fs2 w',
    hybrid_body tf uid limit w
      = (Return (blend contentRecs collabRecs limit), w') /\
    same_data w w' /\
    subseq fs1 (db_faults w) /\
    subseq fs2 (db_faults w) /\
    fst (getContentBasedRecommendations tf uid None (ceil_07 limit)
           (set_faults fs1 w)) = Return contentRecs /\
    fst (getCollaborativeRecommendations uid (ceil_07 limit)
           (set_faults fs2 w)) = Return collabRecs /\
    hd_error fs1 = hd_error (db_faults w) /\
    hd_error fs2 = hd_error (tl (db_faults w)).
Proof.
  destruct (promise_all2_returns
              (getContentBasedRecommendations tf uid None (ceil_07 limit))
              (getCollaborativeRecommendations uid (ceil_07 limit)) w)
    as (a & b & fs1 & fs2 & w' & E & S & S1 & S2 & E1 & E2 & Hh).
  - intros w1. apply content_returns.
  - intros w2. apply collaborative_returns.
  - exists a, b, fs1, fs2, w'. unfold hybrid_body, bind. rewrite E.
    split; [reflexivity|]. split; [exact S|].
    split; [exact S1|]. split; [exact S2|].
    split; [exact E1|]. split; [exact E2|].
    apply Hh. intros fs. apply content_makes_a_round_trip.
Qed.

Lemma hybrid_new_user tf uid limit w :
  db_faults w = [] -> no_interactions w uid ->
  NoDup (map product_id (db_products w)) ->
  (0 < ceil_07 limit <= limit)%nat ->
  getHybridRecommendations tf uid limit w
  = (Return (map blended (fallback_list (db_products w) (ceil_07 limit))), w).
Proof.
  intros F Hn ND [Hc0 Hc].
  unfold getHybridRecommendations, try_catch, hybrid_body, bind.
  rewrite (promise_all2_no_fault _ _ w _ _ F
             (content_new_user tf uid _ w F Hn)
             (collaborative_new_user uid _ w F Hn)).
  unfold ret. rewrite blend_same; [reflexivity | | |].
  - apply fallback_list_ids, ND.
  - apply fallback_list_descending.
  - destruct (fallback_list_ranked (db_products w) (ceil_07 limit) Hc0).
    lia.
Qed.

(** C2, as the code has it. For a user without interactions, when no
    database call fails and product ids are unique,
    [getHybridRecommendations userId 5] returns the records of
    [getFallbackRecommendations 4] (4 is the ceiling of 5 * 0.7), in the
    same order, each tagged hybrid and carrying the combined score
    score * 0.6 + score * 0.4: at most four records, none tagged fallback. *)
Theorem hybrid_for_new_user :
  forall tf uid w,
    db_faults w = [] ->
    no_interactions w uid ->
    NoDup (map product_id (db_products w)) ->
    exists fb,
      getFallbackRecommendations 4 w = (Return fb, w) /\
      getHybridRecommendations tf uid 5 w = (Return (map blended fb), w) /\
      Forall (fun r => recommendation_type r = hybrid) (map blended fb) /\
      (List.length (map blended fb) <= 4)%nat.
Proof.
  intros tf uid w F Hn ND.
  exists (fallback_list (db_products w) 4).
  destruct (getFallback_spec 4 w) as (recs & w' & E & _ & _ & Hnf).
  destruct (Hnf F) as [-> ->].
  split; [exact E|]. split; [|split].
  - apply (hybrid_new_user tf uid 5 w F Hn ND).
    vm_compute. split; lia.
  - apply Forall_forall. intros r Hr. apply in_map_iff in Hr.
    destruct Hr as [x [<- _]]. reflexivity.
  - rewrite length_map.
    destruct (fallback_list_ranked (db_products w) 4) as [_ L]; [lia|].
    exact L.
Qed.

Lemma hybrid_for_new_user_witness :
  exists fb,
    getFallbackRecommendations 4 Scenario.shop = (Return fb, Scenario.shop) /\
    getHybridRecommendations Scenario.no_text "A" 5 Scenario.shop
      = (Return (map blended fb), Scenario.shop) /\
    Forall (fun r => recommendation_type r = hybrid) (map blended fb) /\
    (List.length (map blended fb) <= 4)%nat.
Proof.
  apply (hybrid_for_new_user Scenario.no_text "A" Scenario.shop).
  - reflexivity.
  - split; reflexivity.
  - simpl. repeat constructor; simpl; intuition discriminate.
Defined.

(** C2, as stated, fails: in a shop of six products, the hybrid mode with
    limit 5 returns four records tagged hybrid for the new user A, while
    [getFallbackRecommendations 5] returns five records tagged fallback. *)
Lemma hybrid_differs_from_fallback :
  no_interactions Scenario.shop "A" /\
  exists h f,
    fst (getHybridRecommendations Scenario.no_text "A" 5 Scenario.shop)
      = Return h /\
    fst (getFallbackRecommendations 5 Scenario.shop) = Return f /\
    List.length h = 4%nat /\ List.length f = 5%nat /\
    map recommendation_type h = [hybrid; hybrid; hybrid; hybrid] /\
    h <> f.
Proof.
  split; [split; reflexivity|].
  eexists. eexists.
  split; [vm_compute; reflexivity|].
  split; [vm_compute; reflexivity|].
  split; [reflexivity|]. split; [reflexivity|]. split; [reflexivity|].
  intros E. apply (f_equal (@List.length Rec)) in E. simpl in E. discriminate.
Qed.

(** ** The operations never throw *)




(** * Further properties of the engine *)

(** ** Recording an interaction *)

Lemma uget_uset_same {V} (m : list (string * V)) k v :
  uget (uset m k v) k = Some v.
Proof. apply (get_set_same String.eqb string_eqb_eq). Qed.

Lemma uget_uset_other {V} (m : list (string * V)) k v k' :
  k <> k' -> uget (uset m k v) k' = uget m k'.
Proof. apply (get_set_other String.eqb string_eqb_eq). Qed.

Lemma find_replace_first {A} (same : A -> bool) (x : A) l y :
  find same l = Some y -> same x = true ->
  find same (replace_first same x l) = Some x.
Proof.
  intros F Hx. induction l as [|z l IH]; simpl in *; [discriminate|].
  destruct (same z) eqn:E; simpl.
  - rewrite Hx. reflexivity.
  - rewrite E. apply IH, F.
Qed.

Lemma getInteractionWeight_values ty :
  getInteractionWeight ty = 1 \/ getInteractionWeight ty = 3 \/
  getInteractionWeight ty = 5 \/ getInteractionWeight ty = 10.
Proof.
  unfold getInteractionWeight.
  repeat match goal with |- context [String.eqb ?a ?b] =>
    destruct (String.eqb a b) end; tauto.
Qed.

Lemma valid_passes_validation l pid ty now r :
  forallb validate_interaction l = true ->
  valid_type ty = true -> valid_rating r = true ->
  forallb validate_interaction (l ++ [mkInteraction pid ty now r]) = true.
Proof.
  intros Hl H1 H2. rewrite forallb_app, Hl. simpl.
  unfold validate_interaction. simpl. rewrite H1, H2. reflexivity.
Qed.

Lemma replace_first_found {A} (f g : A -> bool) (p : A) l :
  find f l = Some p -> (forall x, g x = f x) -> replace_first g p l = l.
Proof.
  intros F Hg. induction l as [|x l IH]; simpl in *; [reflexivity|].
  rewrite Hg. destruct (f x).
  - injection F as ->. reflexivity.
  - rewrite IH by exact F. reflexivity.
Qed.

Lemma update_run uid pid ty r w u :
  db_faults w = [] ->
  find_user w uid = Some u ->
  interactions_valid u ->
  valid_type ty = true ->
  valid_rating r = true ->
  exists w',
    updateUserInteraction uid pid ty r w = (Return tt, w') /\
    userItemMatrix w' = update_matrix uid pid ty (userItemMatrix w) /\
    db_users w'
    = replace_first (fun u' => String.eqb (_id u') (_id u))
        (mkUser (_id u)
           (interactions u ++ [mkInteraction pid ty (clock w) r]))
        (db_users w) /\
    match find_product w pid with
    | Some p =>
        db_products w'
        = replace_first (fun p' => Z.eqb (product_id p') (product_id p))
            (mkProduct (product_id p) (product_name p) (category p)
               (subcategory p) (price p) (manufacturer p) (description p)
               (rating p) (is_featured p) (is_on_sale p)
               (view_count p + counted ty "view")
               (like_count p + counted ty "like")
               (purchase_count p + counted ty "purchase"))
            (db_products w)
    | None => db_products w' = db_products w
    end.
Proof.
  intros F Hu Hv Hty Hr.
  unfold updateUserInteraction, try_catch, update_body, User_findById, bind.
  rewrite (db_call_no_fault _ F). unfold gets at 1.
  unfold find_user in Hu. rewrite Hu.
  unfold addInteraction, user_save, bind, gets. cbn [interactions].
  rewrite (valid_passes_validation _ _ _ _ _ Hv Hty Hr).
  rewrite (db_call_no_fault _ F). unfold modify, Product_findOne, bind.
  cbn [fst snd].
  rewrite db_call_no_fault by exact F.
  unfold gets. cbn [db_products set_matrix set_users].
  unfold find_product.
  destruct (find _ (db_products w)) as [p|] eqn:Fp.
  - unfold update_metrics, counted.
    destruct (String.eqb ty "view") eqn:E1;
      [|destruct (String.eqb ty "like") eqn:E2;
        [|destruct (String.eqb ty "purchase") eqn:E3]].
    all: try (apply String.eqb_eq in E1; subst ty).
    all: try (apply String.eqb_eq in E2; subst ty).
    all: try (apply String.eqb_eq in E3; subst ty).
    all: unfold incrementViewCount, incrementLikeCount,
           incrementPurchaseCount, product_save, bind, modify, ret.
    all: try rewrite db_call_no_fault by exact F.
    all: eexists; split; [reflexivity|]; cbn.
    all: rewrite ?Z.add_0_r.
    all: try (split; [reflexivity|]; split; reflexivity).
    split; [reflexivity|]. split; [reflexivity|].
    symmetry. destruct p; cbn. rewrite ?Z.add_0_r.
    apply (replace_first_found _ _ _ _ Fp).
    intros x. apply find_id_eq in Fp. cbn in Fp. rewrite Fp. reflexivity.
  - eexists. split; [reflexivity|]. cbn. repeat split.
Qed.

Lemma update_matrix_vector uid pid ty m :
  vectorFor (update_matrix uid pid ty m) uid pid
  = vectorFor m uid pid + getInteractionWeight ty.
Proof.
  unfold vectorFor, row_of, update_matrix.
  rewrite uget_uset_same, mget_mset_same. reflexivity.
Qed.

Lemma update_matrix_other_item uid pid ty m pid' :
  pid' <> pid ->
  vectorFor (update_matrix uid pid ty m) uid pid' = vectorFor m uid pid'.
Proof.
  intros N. unfold vectorFor, row_of, update_matrix.
  rewrite uget_uset_same, mget_mset_other by congruence. reflexivity.
Qed.

Lemma update_matrix_other_user uid pid ty m uid' :
  uid' <> uid -> uget (update_matrix uid pid ty m) uid' = uget m uid'.
Proof.
  intros N. unfold update_matrix. apply uget_uset_other. congruence.
Qed.

(** X1. A valid interaction of an existing user whose stored interactions
    satisfy the schema, with no database failure, adds exactly the weight of its type to the user's accumulated weight for
    that item; the user's other items and every other user's row are left as
    they were, and the interaction is appended to the stored user document. *)
Theorem update_accumulates_weight :
  forall uid pid ty r w u,
    db_faults w = [] ->
    find_user w uid = Some u ->
    interactions_valid u ->
    valid_type ty = true ->
    valid_rating r = true ->
    exists w',
      updateUserInteraction uid pid ty r w = (Return tt, w') /\
      vectorFor (userItemMatrix w') uid pid
      = vectorFor (userItemMatrix w) uid pid + getInteractionWeight ty /\
      (forall pid', pid' <> pid ->
         vectorFor (userItemMatrix w') uid pid'
         = vectorFor (userItemMatrix w) uid pid') /\
      (forall uid', uid' <> uid ->
         uget (userItemMatrix w') uid' = uget (userItemMatrix w) uid') /\
      find_user w' uid
      = Some (mkUser (_id u)
                (interactions u ++ [mkInteraction pid ty (clock w) r])).
Proof.
  intros uid pid ty r w u F Hu Hv Hty Hr.
  destruct (update_run uid pid ty r w u F Hu Hv Hty Hr)
    as (w' & E & Hm & Hus & _).
  exists w'. split; [exact E|]. rewrite Hm.
  split; [apply update_matrix_vector|].
  split; [intros; apply update_matrix_other_item; assumption|].
  split; [intros; apply update_matrix_other_user; assumption|].
  unfold find_user in *. rewrite Hus.
  pose proof Hu as Hid. apply find_some in Hid. destruct Hid as [_ Hid].
  apply String.eqb_eq in Hid. subst uid.
  apply (find_replace_first _ _ _ _ Hu). simpl. apply String.eqb_refl.
Qed.

Lemma update_accumulates_weight_witness :
  exists w',
    updateUserInteraction "B" 2 "like" None Scenario.after_events
      = (Return tt, w') /\
    vectorFor (userItemMatrix w') "B" 2
    = vectorFor (userItemMatrix Scenario.after_events) "B" 2
      + getInteractionWeight "like" /\
    (forall pid', pid' <> 2%Z ->
       vectorFor (userItemMatrix w') "B" pid'
       = vectorFor (userItemMatrix Scenario.after_events) "B" pid') /\
    (forall uid', uid' <> "B" ->
       uget (userItemMatrix w') uid'
       = uget (userItemMatrix Scenario.after_events) uid') /\
    find_user w' "B"
    = Some (mkUser "B"
              ([mkInteraction 1 "like" 1 None;
                mkInteraction 2 "purchase" 2 None]
               ++ [mkInteraction 2 "like"
                     (clock Scenario.after_events) None])).
Proof.
  apply (update_accumulates_weight "B" 2%Z "like" None Scenario.after_events
           (mkUser "B" [mkInteraction 1 "like" 1 None;
                        mkInteraction 2 "purchase" 2 None])).
  - reflexivity.
  - reflexivity.
  - reflexivity.
  - reflexivity.
  - reflexivity.
Defined.



(** X3. For a user id that is not in the User collection, the operation
    changes nothing, whatever the database does: no row is created in the
    matrix and no collection is written. *)
Theorem update_unknown_user_is_noop :
  forall uid pid ty r w,
    find_user w uid = None ->
    exists w',
      updateUserInteraction uid pid ty r w = (Return tt, w') /\
      same_data w w'.
Proof.
  intros uid pid ty r w Hu.
  unfold updateUserInteraction, try_catch, update_body, User_findById, bind.
  destruct (db_call_reads w) as [S _].
  destruct (db_call w) as [[[]|e] w1] eqn:E; cbn [fst snd] in *.
  - destruct (same_data_fields _ _ S) as (_ & U & _).
    unfold gets, find_user in *. rewrite U, Hu.
    exists w1. split; [reflexivity | exact S].
  - exists w1. split; [reflexivity | exact S].
Qed.

Lemma update_unknown_user_is_noop_witness :
  exists w',
    updateUserInteraction "nobody" 1 "view" None Scenario.after_events
      = (Return tt, w') /\
    same_data Scenario.after_events w'.
Proof.
  apply (update_unknown_user_is_noop "nobody" 1%Z "view" None
           Scenario.after_events).
  reflexivity.
Defined.

Lemma invalid_rating_fails_validation l pid ty now r :
  valid_rating r = false ->
  forallb validate_interaction (l ++ [mkInteraction pid ty now r]) = false.
Proof.
  intros H. rewrite forallb_app. simpl. unfold validate_interaction. simpl.
  rewrite H, !andb_false_r. reflexivity.
Qed.

Lemma invalid_rating_same_data uid pid ty r w :
  valid_rating r = false ->
  exists w',
    updateUserInteraction uid pid ty r w = (Return tt, w') /\
    same_data w w'.
Proof.
  intros Hr.
  unfold updateUserInteraction, try_catch, update_body, User_findById, bind.
  destruct (db_call_reads w) as [S _].
  destruct (db_call w) as [[[]|e] w1] eqn:E; cbn [fst snd] in *.
  - unfold gets. destruct (find _ (db_users w1)) as [u|].
    + unfold addInteraction, user_save, bind, gets. cbn [interactions].
      rewrite (invalid_rating_fails_validation _ _ _ _ _ Hr). simpl.
      exists w1. split; [reflexivity | exact S].
    + exists w1. split; [reflexivity | exact S].
  - exists w1. split; [reflexivity | exact S].
Qed.

(** X4. A rating outside [1,5] fails the schema validation of the pushed
    interaction even when the type is valid: nothing is recorded, in the
    matrix or in either collection. *)
Theorem update_invalid_rating_not_recorded :
  forall uid pid ty r w,
    valid_rating r = false ->
    exists w',
      updateUserInteraction uid pid ty r w = (Return tt, w') /\
      same_data w w'.
Proof.
  intros uid pid ty r w Hr.
  unfold updateUserInteraction, try_catch, update_body, User_findById, bind.
  destruct (db_call_reads w) as [S _].
  destruct (db_call w) as [[[]|e] w1] eqn:E; cbn [fst snd] in *.
  - unfold gets. destruct (find _ (db_users w1)) as [u|].
    + unfold addInteraction, user_save, bind, gets. cbn [interactions].
      rewrite (invalid_rating_fails_validation _ _ _ _ _ Hr). simpl.
      exists w1. split; [reflexivity | exact S].
    + exists w1. split; [reflexivity | exact S].
  - exists w1. split; [reflexivity | exact S].
Qed.

Lemma update_invalid_rating_not_recorded_witness :
  exists w',
    updateUserInteraction "A" 1 "purchase" (Some 6) Scenario.after_events
      = (Return tt, w') /\
    same_data Scenario.after_events w'.
Proof.
  apply (update_invalid_rating_not_recorded "A" 1%Z "purchase" (Some 6)
           Scenario.after_events).
  reflexivity.
Defined.

Lemma db_call_ok w fs :
  db_faults w = false :: fs -> db_call w = (Return tt, set_faults fs w).
Proof. intros E. unfold db_call. rewrite E. reflexivity. Qed.

Lemma db_call_fails w fs :
  db_faults w = true :: fs -> db_call w = (Throw MongoError, set_faults fs w).
Proof. intros E. unfold db_call. rewrite E. reflexivity. Qed.

(** X5. Nothing is rolled back: when the user lookup and the save succeed
    (a valid interaction of a user whose stored interactions satisfy the
    schema) and the product lookup that follows fails, the operation still returns
    normally, the matrix keeps the added weight and the stored user keeps the
    new interaction, while no product counter is touched. *)
Theorem update_is_not_rolled_back :
  forall uid pid ty r w u fs,
    db_faults w = false :: false :: true :: fs ->
    find_user w uid = Some u ->
    interactions_valid u ->
    valid_type ty = true ->
    valid_rating r = true ->
    exists w',
      updateUserInteraction uid pid ty r w = (Return tt, w') /\
      vectorFor (userItemMatrix w') uid pid
      = vectorFor (userItemMatrix w) uid pid + getInteractionWeight ty /\
      find_user w' uid
      = Some (mkUser (_id u)
                (interactions u ++ [mkInteraction pid ty (clock w) r])) /\
      db_products w' = db_products w.
Proof.
  intros uid pid ty r w u fs F Hu Hv Hty Hr.
  unfold updateUserInteraction, try_catch, update_body, User_findById, bind.
  rewrite (db_call_ok _ _ F). unfold gets at 1.
  unfold find_user in Hu. cbn [db_users set_faults]. rewrite Hu.
  unfold addInteraction, user_save, bind, gets. cbn [interactions].
  rewrite (valid_passes_validation _ _ _ _ _ Hv Hty Hr).
  rewrite (db_call_ok _ (true :: fs)) by reflexivity.
  unfold modify, Product_findOne, bind. cbn [fst snd].
  rewrite (db_call_fails _ fs) by reflexivity.
  eexists. split; [reflexivity|].
  cbn [userItemMatrix db_users db_products set_faults set_matrix set_users].
  split; [apply update_matrix_vector|]. split; [|reflexivity].
  unfold find_user. cbn [db_users].
  pose proof Hu as Hid. apply find_some in Hid. destruct Hid as [_ Hid].
  apply String.eqb_eq in Hid. subst uid.
  apply (find_replace_first _ _ _ _ Hu). simpl. apply String.eqb_refl.
Qed.

Lemma update_is_not_rolled_back_witness :
  exists w',
    updateUserInteraction "A" 1 "purchase" None Cases.flaky
      = (Return tt, w') /\
    vectorFor (userItemMatrix w') "A" 1
    = vectorFor (userItemMatrix Cases.flaky) "A" 1
      + getInteractionWeight "purchase" /\
    find_user w' "A"
    = Some (mkUser "A"
              ([] ++ [mkInteraction 1 "purchase" (clock Cases.flaky) None]))
    /\
    db_products w' = db_products Cases.flaky.
Proof.
  apply (update_is_not_rolled_back "A" 1%Z "purchase" None Cases.flaky
           (mkUser "A" []) []).
  - reflexivity.
  - reflexivity.
  - reflexivity.
  - reflexivity.
  - reflexivity.
Defined.

(** ** The matrix and the stored interactions *)

Lemma user_row_snoc uid l i :
  user_row (mkUser uid (l ++ [i]))
  = mset (user_row (mkUser uid l)) (i_productId i)
      (or_zero (mget (user_row (mkUser uid l)) (i_productId i))
       + getInteractionWeight (i_type i)).
Proof. unfold user_row. simpl. rewrite fold_left_app. reflexivity. Qed.

(** X6. The incremental update agrees with a rebuild: if the user's row in
    the matrix is the row [buildUserItemMatrix] computes from the stored
    interactions, and those satisfy the schema, then after a valid
    [updateUserInteraction] with no database failure the new row is again
    the row computed from the new stored interactions. *)
Theorem update_keeps_row_in_sync :
  forall uid pid ty r w u,
    db_faults w = [] ->
    find_user w uid = Some u ->
    interactions_valid u ->
    valid_type ty = true ->
    valid_rating r = true ->
    row_of (userItemMatrix w) uid = user_row u ->
    exists w' u',
      updateUserInteraction uid pid ty r w = (Return tt, w') /\
      find_user w' uid = Some u' /\
      row_of (userItemMatrix w') uid = user_row u'.
Proof.
  intros uid pid ty r w u F Hu Hv Hty Hr Hsync.
  destruct (update_run uid pid ty r w u F Hu Hv Hty Hr)
    as (w' & E & Hm & Hus & _).
  exists w', (mkUser (_id u)
                (interactions u ++ [mkInteraction pid ty (clock w) r])).
  split; [exact E|]. split.
  - unfold find_user in *. rewrite Hus.
    pose proof Hu as Hid. apply find_some in Hid. destruct Hid as [_ Hid].
    apply String.eqb_eq in Hid. subst uid.
    apply (find_replace_first _ _ _ _ Hu). simpl. apply String.eqb_refl.
  - rewrite Hm, user_row_snoc. simpl.
    unfold row_of at 1, update_matrix. rewrite uget_uset_same.
    fold (row_of (userItemMatrix w) uid). rewrite Hsync.
    destruct u; reflexivity.
Qed.

Lemma update_keeps_row_in_sync_witness :
  exists w' u',
    updateUserInteraction "B" 2 "view" None Scenario.after_events
      = (Return tt, w') /\
    find_user w' "B" = Some u' /\
    row_of (userItemMatrix w') "B" = user_row u'.
Proof.
  apply (update_keeps_row_in_sync "B" 2%Z "view" None Scenario.after_events
           (mkUser "B" [mkInteraction 1 "like" 1 None;
                        mkInteraction 2 "purchase" 2 None])).
  - reflexivity.
  - reflexivity.
  - reflexivity.
  - reflexivity.
  - reflexivity.
  - reflexivity.
Defined.

Lemma row_fold_weight pid l :
  forall row,
    or_zero
      (mget
         (fold_left
            (fun userInteractions interaction =>
               mset userInteractions (i_productId interaction)
                 (or_zero (mget userInteractions (i_productId interaction))
                  + getInteractionWeight (i_type interaction)))
            l row) pid)
    == or_zero (mget row pid) + weight_sum l pid.
Proof.
  induction l as [|i l IH]; intros row; simpl; [ring|].
  rewrite IH. destruct (Z.eqb (i_productId i) pid) eqn:E.
  - apply Z.eqb_eq in E. subst pid. rewrite mget_mset_same. simpl. ring.
  - apply Z.eqb_neq in E. rewrite mget_mset_other by exact E. reflexivity.
Qed.

Lemma row_fold_has pid l :
  forall row,
    mhas
      (fold_left
         (fun userInteractions interaction =>
            mset userInteractions (i_productId interaction)
              (or_zero (mget userInteractions (i_productId interaction))
               + getInteractionWeight (i_type interaction)))
         l row) pid
    = mhas row pid || existsb (fun i => Z.eqb (i_productId i) pid) l.
Proof.
  induction l as [|i l IH]; intros row; simpl; [rewrite orb_false_r; reflexivity|].
  rewrite IH. destruct (Z.eqb (i_productId i) pid) eqn:E; simpl.
  - apply Z.eqb_eq in E. subst pid. unfold mhas, JSMap.has.
    fold (@mget Q). rewrite mget_mset_same. rewrite orb_true_r. reflexivity.
  - apply Z.eqb_neq in E. unfold mhas, JSMap.has. fold (@mget Q).
    rewrite mget_mset_other by exact E. reflexivity.
Qed.

(** X7. For a user whose stored interaction types name no inherited
    member (every type the schema admits), the row [buildUserItemMatrix]
    builds holds, for each item, the sum of the weights of the user's
    stored interactions with that item, and it has an entry for an item
    exactly when some interaction is about it. *)
Theorem user_row_sums_weights :
  forall u pid,
    plain_types (interactions u) ->
    or_zero (mget (user_row u) pid) == weight_sum (interactions u) pid /\
    mhas (user_row u) pid
    = existsb (fun i => Z.eqb (i_productId i) pid) (interactions u).
Proof.
  intros u pid _. unfold user_row. split.
  - rewrite row_fold_weight. simpl. ring.
  - rewrite row_fold_has. reflexivity.
Qed.

Lemma user_row_sums_weights_witness :
  or_zero (mget (user_row (account_user Requests.carol)) 3)
  == weight_sum (interactions (account_user Requests.carol)) 3 /\
  mhas (user_row (account_user Requests.carol)) 3
  = existsb (fun i => Z.eqb (i_productId i) 3)
      (interactions (account_user Requests.carol)).
Proof.
  apply (user_row_sums_weights (account_user Requests.carol) 3%Z).
  reflexivity.
Defined.

(** ** Building the index and the matrix *)

Lemma index_fold stem ps :
  forall docs pf,
    NoDup (map product_id ps) ->
    fst (fold_left (index_product stem) ps (docs, pf))
    = docs ++ map (fun p => stem (product_text p)) ps /\
    (forall i p, nth_error ps i = Some p ->
       mget (snd (fold_left (index_product stem) ps (docs, pf)))
         (product_id p)
       = Some (features_of p (List.length docs + i))) /\
    (forall id, ~ In id (map product_id ps) ->
       mget (snd (fold_left (index_product stem) ps (docs, pf))) id
       = mget pf id).
Proof.
  induction ps as [|p0 ps IH]; intros docs pf ND; simpl.
  - split; [rewrite app_nil_r; reflexivity|].
    split; [intros [|i] p; discriminate | reflexivity].
  - inversion ND as [|? ? Hn ND']; subst.
    unfold index_product at 2 4 6. cbn [fst snd].
    rewrite length_app. simpl List.length.
    replace (List.length docs + 1 - 1)%nat with (List.length docs) by lia.
    destruct (IH (docs ++ [stem (product_text p0)])
                (mset pf (product_id p0) (features_of p0 (List.length docs)))
                ND') as (Hd & Hi & Ho).
    unfold features_of in *. split; [|split].
    + rewrite Hd, <- app_assoc. reflexivity.
    + intros [|i] p Hp; simpl in Hp.
      * injection Hp as <-. rewrite (Ho _ Hn), mget_mset_same.
        rewrite Nat.add_0_r. reflexivity.
      * rewrite (Hi _ _ Hp), length_app. simpl.
        do 2 f_equal. lia.
    + intros id Hid. rewrite Ho by tauto.
      apply mget_mset_other. tauto.
Qed.

(** X8. [buildProductFeatures] on a catalog with unique product ids starts
    a fresh document list with one document per product, in catalog order,
    and stores for the product at position i its own category, subcategory,
    price, rating, flags and manufacturer with textIndex i; features stored
    earlier for ids that are not in the catalog are kept. *)
Theorem build_features_indexes_catalog :
  forall stem ps w,
    NoDup (map product_id ps) ->
    exists w',
      buildProductFeatures stem ps w = (Return tt, w') /\
      tfidf_documents w' = map (fun p => stem (product_text p)) ps /\
      (forall i p, nth_error ps i = Some p ->
         mget (productFeatures w') (product_id p) = Some (features_of p i) /\
         nth_error (tfidf_documents w') i = Some (stem (product_text p))) /\
      (forall id, ~ In id (map product_id ps) ->
         mget (productFeatures w') id = mget (productFeatures w) id) /\
      userItemMatrix w' = userItemMatrix w.
Proof.
  intros stem ps w ND.
  destruct (index_fold stem ps [] (productFeatures w) ND) as (Hd & Hi & Ho).
  eexists. split; [reflexivity|].
  cbn [tfidf_documents productFeatures userItemMatrix set_index].
  simpl in Hd. split; [exact Hd|]. split; [|split; [exact Ho | reflexivity]].
  intros i p Hp. split; [apply (Hi i p Hp)|].
  rewrite Hd. rewrite nth_error_map, Hp. reflexivity.
Qed.

Lemma build_features_indexes_catalog_witness :
  exists w',
    buildProductFeatures (fun s => s) (db_products Scenario.shop)
      Scenario.shop = (Return tt, w') /\
    tfidf_documents w'
    = map (fun p => product_text p) (db_products Scenario.shop) /\
    (forall i p, nth_error (db_products Scenario.shop) i = Some p ->
       mget (productFeatures w') (product_id p) = Some (features_of p i) /\
       nth_error (tfidf_documents w') i = Some (product_text p)) /\
    (forall id, ~ In id (map product_id (db_products Scenario.shop)) ->
       mget (productFeatures w') id = mget (productFeatures Scenario.shop) id)
    /\
    userItemMatrix w' = userItemMatrix Scenario.shop.
Proof.
  apply (build_features_indexes_catalog (fun s => s)
           (db_products Scenario.shop) Scenario.shop).
  simpl. repeat constructor; simpl; intuition discriminate.
Defined.

Lemma build_features_run stem ps w :
  NoDup (map product_id ps) ->
  exists w',
    buildProductFeatures stem ps w = (Return tt, w') /\
    (forall i p, nth_error ps i = Some p ->
       mget (productFeatures w') (product_id p) = Some (features_of p i)) /\
    userItemMatrix w' = userItemMatrix w.
Proof.
  intros ND.
  destruct (index_fold stem ps [] (productFeatures w) ND) as (_ & Hi & _).
  eexists. split; [reflexivity|].
  cbn [productFeatures userItemMatrix set_index].
  split; [exact Hi | reflexivity].
Qed.

(** On an engine that holds no features, indexing a catalog with unique
    product ids leaves a consistent index. *)
Lemma fresh_index_is_consistent stem ps w :
  NoDup (map product_id ps) ->
  productFeatures w = [] ->
  index_consistent
    (tfidf_documents (snd (buildProductFeatures stem ps w)))
    (productFeatures (snd (buildProductFeatures stem ps w))).
Proof.
  intros ND E id f G.
  unfold buildProductFeatures, modify in *.
  cbn [snd tfidf_documents productFeatures set_index] in *.
  destruct (index_fold stem ps [] (productFeatures w) ND) as (Hd & Hi & Ho).
  rewrite Hd. simpl. rewrite length_map.
  destruct (in_dec Z.eq_dec id (map product_id ps)) as [Hin|Hout].
  - apply in_map_iff in Hin. destruct Hin as (p & <- & Hp).
    apply In_nth_error in Hp. destruct Hp as [i Hp].
    rewrite (Hi i p Hp) in G. injection G as <-. simpl.
    apply nth_error_Some. rewrite Hp. discriminate.
  - rewrite (Ho id Hout), E in G. discriminate.
Qed.

Lemma matrix_fold users :
  forall m,
    NoDup (map _id users) ->
    (forall u, In u users ->
       uget (fold_left (fun m u => uset m (_id u) (user_row u)) users m)
         (_id u) = Some (user_row u)) /\
    (forall id, ~ In id (map _id users) ->
       uget (fold_left (fun m u => uset m (_id u) (user_row u)) users m) id
       = uget m id).
Proof.
  induction users as [|u0 users IH]; intros m ND; simpl.
  - split; [intros u [] | reflexivity].
  - inversion ND as [|? ? Hn ND']; subst.
    destruct (IH (uset m (_id u0) (user_row u0)) ND') as [Hin Hout]. split.
    + intros u [<-|Hu]; [|apply Hin, Hu].
      rewrite (Hout _ Hn). apply uget_uset_same.
    + intros id Hid. rewrite Hout by tauto.
      apply uget_uset_other. tauto.
Qed.

(** X9. With no database failure and unique ids, [initialize] indexes every
    stored product at its catalog position and gives every stored user the
    row computed from that user's stored interactions; it writes to neither
    collection. *)
Theorem initialize_builds_index_and_matrix :
  forall stem w,
    db_faults w = [] ->
    NoDup (map product_id (db_products w)) ->
    NoDup (map _id (db_users w)) ->
    exists w',
      initialize stem w = (Return tt, w') /\
      (forall i p, nth_error (db_products w) i = Some p ->
         mget (productFeatures w') (product_id p) = Some (features_of p i)) /\
      (forall u, In u (db_users w) ->
         row_of (userItemMatrix w') (_id u) = user_row u) /\
      db_products w' = db_products w /\
      db_users w' = db_users w.
Proof.
  intros stem w F NDp NDu.
  destruct (build_features_run stem (db_products w) w NDp)
    as (w1 & E1 & Hi & Hm1).
  destruct (matrix_fold (db_users w) (userItemMatrix w) NDu) as [Hin _].
  unfold initialize, try_catch, bind.
  rewrite (db_call_no_fault _ F). unfold gets at 1. rewrite E1.
  assert (S1 : db_faults w1 = [] /\ db_users w1 = db_users w /\
               db_products w1 = db_products w).
  { unfold buildProductFeatures, modify in E1. injection E1 as <-.
    repeat split; assumption. }
  destruct S1 as (F1 & U1 & P1).
  unfold buildUserItemMatrix, try_catch, bind.
  rewrite (db_call_no_fault _ F1). unfold gets, modify.
  eexists. split; [reflexivity|].
  cbn [productFeatures userItemMatrix db_products db_users set_matrix].
  split; [exact Hi|].
  split; [|split; assumption].
  intros u Hu. unfold row_of. rewrite U1, Hm1, (Hin u Hu). reflexivity.
Qed.

Lemma initialize_builds_index_and_matrix_witness :
  exists w',
    initialize (fun s => s) Scenario.after_events = (Return tt, w') /\
    (forall i p, nth_error (db_products Scenario.after_events) i = Some p ->
       mget (productFeatures w') (product_id p) = Some (features_of p i)) /\
    (forall u, In u (db_users Scenario.after_events) ->
       row_of (userItemMatrix w') (_id u) = user_row u) /\
    db_products w' = db_products Scenario.after_events /\
    db_users w' = db_users Scenario.after_events.
Proof.
  apply (initialize_builds_index_and_matrix (fun s => s)
           Scenario.after_events).
  - reflexivity.
  - vm_compute. repeat constructor; simpl; intuition discriminate.
  - vm_compute. repeat constructor; simpl; intuition discriminate.
Defined.

(** X10. [initialize] under failure. When its product query fails, nothing
    is rebuilt: the world is the one before the call, minus the consumed
    fault. When the product query succeeds and the user query fails, the
    document list is rebuilt from the catalog while the matrix stays as it
    was. In both cases the operation returns normally. *)
Theorem initialize_under_failure :
  forall stem w fs,
    (db_faults w = true :: fs ->
     initialize stem w = (Return tt, set_faults fs w)) /\
    (db_faults w = false :: true :: fs ->
     exists w',
       initialize stem w = (Return tt, w') /\
       tfidf_documents w'
       = map (fun p => stem (product_text p)) (db_products w) /\
       userItemMatrix w' = userItemMatrix w).
Proof.
  intros stem w fs. split; intros F.
  - unfold initialize, try_catch, bind.
    rewrite (db_call_fails _ _ F). reflexivity.
  - unfold initialize, try_catch, bind.
    rewrite (db_call_ok _ _ F). unfold gets at 1.
    unfold buildProductFeatures, modify. cbn [fst snd].
    unfold buildUserItemMatrix, try_catch, bind.
    rewrite (db_call_fails _ fs) by reflexivity.
    eexists. split; [reflexivity|].
    cbn [tfidf_documents userItemMatrix set_faults set_index db_products
         productFeatures].
    split; [|reflexivity].
    assert (H : forall ps docs pf,
               fst (fold_left (index_product stem) ps (docs, pf))
               = docs ++ map (fun p => stem (product_text p)) ps).
    { induction ps as [|p ps IH]; intros docs pf; simpl.
      - rewrite app_nil_r. reflexivity.
      - unfold index_product at 2. cbn [fst snd]. rewrite IH, <- app_assoc.
        reflexivity. }
    apply (H (db_products w) []).
Qed.

Lemma initialize_under_failure_witness :
  initialize (fun s => s) Cases.down
  = (Return tt, set_faults [true] Cases.down).
Proof.
  apply (initialize_under_failure (fun s => s) Cases.down [true]).
  reflexivity.
Defined.

(** ** Similar users *)

Lemma jsset_add_in (s : list Z) k x :
  In x (JSSet.add Z.eqb s k) -> In x s \/ x = k.
Proof.
  unfold JSSet.add. destruct (JSSet.has Z.eqb s k); [tauto|].
  intros H. apply in_app_or in H. destruct H as [H|[<-|[]]]; tauto.
Qed.

Lemma commonItems_fold (i2 : list (Z * Q)) ks :
  forall acc x,
    In x (fold_left
            (fun common productId =>
               if mhas i2 productId
               then JSSet.add Z.eqb common productId else common)
            ks acc) ->
    In x acc \/ (In x ks /\ mhas i2 x = true).
Proof.
  induction ks as [|k ks IH]; intros acc x; simpl; [tauto|].
  intros H. apply IH in H. destruct H as [H|[H1 H2]]; [|tauto].
  destruct (mhas i2 k) eqn:E; [|tauto].
  apply jsset_add_in in H. destruct H as [H| ->]; tauto.
Qed.

Lemma commonItems_in (i1 i2 : list (Z * Q)) x :
  In x (commonItems i1 i2) -> mhas i1 x = true /\ mhas i2 x = true.
Proof.
  unfold commonItems. intros H. apply commonItems_fold in H.
  destruct H as [[]|[H1 H2]]. split; [|exact H2].
  unfold mhas, JSMap.has.
  destruct (JSMap.get Z.eqb i1 x) eqn:G; [reflexivity|].
  apply (get_none_not_in Z.eqb Z_eqb_eq) in G. contradiction.
Qed.

Lemma similarity_needs_common_item i1 i2 :
  ~ calculateUserSimilarity i1 i2 == 0 ->
  exists k, mhas i1 k = true /\ mhas i2 k = true.
Proof.
  unfold calculateUserSimilarity. intros H.
  destruct (commonItems i1 i2) as [|k ks] eqn:E.
  - simpl in H. exfalso. apply H. reflexivity.
  - exists k. apply commonItems_in. rewrite E. left. reflexivity.
Qed.

(** X11. Two users without a common item have similarity 0. *)
Theorem no_common_item_no_similarity :
  forall i1 i2 : list (Z * Q),
    (forall k, mhas i1 k = true -> mhas i2 k = false) ->
    calculateUserSimilarity i1 i2 = 0.
Proof.
  intros i1 i2 H. unfold calculateUserSimilarity.
  destruct (commonItems i1 i2) as [|k ks] eqn:E; [reflexivity|].
  assert (Hk : In k (commonItems i1 i2)) by (rewrite E; left; reflexivity).
  apply commonItems_in in Hk. destruct Hk as [H1 H2].
  rewrite (H k H1) in H2. discriminate.
Qed.

Lemma no_common_item_no_similarity_witness :
  calculateUserSimilarity [(1%Z, 10)] [(2%Z, 3); (3%Z, 5)] = 0.
Proof.
  apply (no_common_item_no_similarity [(1%Z, 10)] [(2%Z, 3); (3%Z, 5)]).
  intros k Hk. destruct (Z.eq_dec 1 k) as [<-|N]; [reflexivity|].
  apply Z.eqb_neq in N. unfold mhas, JSMap.has, JSMap.get in Hk.
  rewrite N in Hk. discriminate Hk.
Defined.

Lemma in_findSimilarUsers m uid limit other s :
  In (other, s) (findSimilarUsers m uid limit) ->
  exists ui oi,
    uget m uid = Some ui /\ In (other, oi) m /\
    other <> uid /\ oi <> [] /\
    s = calculateUserSimilarity ui oi /\ 0.1 < s.
Proof.
  unfold findSimilarUsers. destruct (uget m uid) as [ui|]; [|intros []].
  intros H. apply in_firstn, js_sort_in in H.
  apply in_flat_map in H. destruct H as [[o oi] [Hin H]].
  destruct (negb (String.eqb o uid) && Nat.ltb 0 (JSMap.size oi)) eqn:C;
    [|destruct H].
  apply andb_true_iff in C. destruct C as [C1 C2].
  destruct (Qgtb (calculateUserSimilarity ui oi) 0.1) eqn:G; [|destruct H].
  destruct H as [[= <- <-]|[]].
  exists ui, oi. split; [reflexivity|]. split; [exact Hin|].
  split.
  - apply negb_true_iff in C1. intros ->.
    rewrite String.eqb_refl in C1. discriminate.
  - split.
    + intros ->. simpl in C2. discriminate.
    + split; [reflexivity | apply Qgtb_true, G].
Qed.

(** X12. [findSimilarUsers] returns at most [limit] neighbours in descending
    order of similarity; each neighbour is another user of the matrix with a
    non-empty row, whose similarity to the user is above the 0.1 threshold
    and who shares at least one item with the user. A user without a row has
    no neighbours. *)
Theorem similar_users_are_real_neighbours :
  forall m uid limit,
    (List.length (findSimilarUsers m uid limit) <= limit)%nat /\
    descending snd (findSimilarUsers m uid limit) /\
    (forall other s, In (other, s) (findSimilarUsers m uid limit) ->
       other <> uid /\ 0.1 < s /\
       exists ui oi,
         uget m uid = Some ui /\ In (other, oi) m /\ oi <> [] /\
         s = calculateUserSimilarity ui oi /\
         exists k, mhas ui k = true /\ mhas oi k = true) /\
    (uget m uid = None -> findSimilarUsers m uid limit = []).
Proof.
  intros m uid limit. split; [|split; [|split]].
  - unfold findSimilarUsers. destruct (uget m uid); [|simpl; lia].
    apply firstn_le_length.
  - unfold findSimilarUsers. destruct (uget m uid); [|constructor].
    apply descending_firstn, js_sort_descending.
  - intros other s H. apply in_findSimilarUsers in H.
    destruct H as (ui & oi & G & Hin & Hne & Hoi & Hs & Hgt).
    split; [exact Hne|]. split; [exact Hgt|].
    exists ui, oi. repeat (split; [assumption|]).
    apply similarity_needs_common_item. rewrite <- Hs. intros Z.
    rewrite Z in Hgt. discriminate.
  - intros G. unfold findSimilarUsers. rewrite G. reflexivity.
Qed.

Lemma Qsqrt_of_square a : 0 < a -> Qsqrt (0 + a * a) == a.
Proof.
  destruct a as [na da]. unfold Qlt. simpl. intros Hpos.
  assert (Hna : (0 < na)%Z) by lia.
  unfold Qsqrt. rewrite Qred_correct.
  set (S := sqrt_scale).
  assert (HS : (0 < S)%Z) by (unfold S, sqrt_scale; reflexivity).
  cbn [Qnum Qden Qplus Qmult].
  replace ((0 * Z.pos (da * da) + na * na * 1) * Z.pos (1 * (da * da))
           * (S * S))%Z
    with ((na * Z.pos da * S) * (na * Z.pos da * S))%Z
    by (rewrite Pos.mul_1_l, Pos2Z.inj_mul; ring).
  rewrite Z.sqrt_square by nia.
  unfold Qeq. cbn [Qnum Qden].
  rewrite Z2Pos.id by (rewrite Pos.mul_1_l, Pos2Z.inj_mul; nia).
  rewrite Pos.mul_1_l, Pos2Z.inj_mul. ring.
Qed.

(** X13. When exactly one item is common to two users and both weights for
    it are positive, their similarity is 1, whatever the two weights are. *)
Theorem single_common_item_similarity_one :
  forall (i1 i2 : list (Z * Q)) k a b,
    commonItems i1 i2 = [k] ->
    mget i1 k = Some a ->
    mget i2 k = Some b ->
    0 < a -> 0 < b ->
    calculateUserSimilarity i1 i2 == 1.
Proof.
  intros i1 i2 k a b Hc G1 G2 Ha Hb.
  unfold calculateUserSimilarity. rewrite Hc. simpl.
  rewrite G1, G2. simpl or_zero.
  assert (N1 : Qeqb (0 + a * a) 0 = false).
  { destruct (Qeqb (0 + a * a) 0) eqn:E; [|reflexivity].
    apply Qeqb_true in E. nra. }
  assert (N2 : Qeqb (0 + b * b) 0 = false).
  { destruct (Qeqb (0 + b * b) 0) eqn:E; [|reflexivity].
    apply Qeqb_true in E. nra. }
  rewrite N1, N2. simpl orb. cbv iota.
  rewrite (Qsqrt_of_square a Ha), (Qsqrt_of_square b Hb).
  field. split; lra.
Qed.

Lemma single_common_item_similarity_one_witness :
  calculateUserSimilarity [(1%Z, 10)] [(1%Z, 3); (2%Z, 10)] == 1.
Proof.
  apply (single_common_item_similarity_one
           [(1%Z, 10)] [(1%Z, 3); (2%Z, 10)] 1%Z 10 3).
  - reflexivity.
  - reflexivity.
  - reflexivity.
  - reflexivity.
  - reflexivity.
Defined.

(** ** Collaborative aggregation *)

Lemma add_neighbour_items_score (ui : list (Z * Q)) s k row :
  mhas ui k = false ->
  forall recs,
    or_zero (mget (add_neighbour_items ui s recs row) k)
    == or_zero (mget recs k) + row_contribution row s k.
Proof.
  intros Hk. unfold add_neighbour_items.
  induction row as [|[pid w] row IH]; intros recs; simpl; [ring|].
  rewrite IH. destruct (Z.eqb pid k) eqn:E.
  - apply Z.eqb_eq in E. subst pid. rewrite Hk. simpl negb. cbv iota.
    rewrite mget_mset_same. simpl. ring.
  - apply Z.eqb_neq in E. destruct (negb (mhas ui pid)).
    + rewrite mget_mset_other by exact E. reflexivity.
    + reflexivity.
Qed.

Lemma aggregate_fold_score m (ui : list (Z * Q)) k sus :
  mhas ui k = false ->
  forall recs,
    or_zero
      (mget
         (fold_left
            (fun recs su =>
               let '(similarUserId, similarity) := su in
               match uget m similarUserId with
               | Some similarUserInteractions =>
                   add_neighbour_items ui similarity recs
                     similarUserInteractions
               | None => recs
               end) sus recs) k)
    == or_zero (mget recs k) + neighbours_score m sus k.
Proof.
  intros Hk. induction sus as [|[su s] sus IH]; intros recs; simpl; [ring|].
  rewrite IH. destruct (uget m su) as [row|].
  - rewrite (add_neighbour_items_score ui s k row Hk). ring.
  - ring.
Qed.

(** X14. The aggregate score of an item the user has not interacted with is
    the sum, over the similar users, of the neighbour's weight for the item
    times the neighbour's similarity; an item the user has interacted with
    gets no entry at all. *)
Theorem aggregate_scores_are_weighted_sums :
  forall m (ui : list (Z * Q)) sus k,
    (mhas ui k = false ->
     or_zero (mget (aggregate m ui sus) k) == neighbours_score m sus k) /\
    (mhas ui k = true -> mget (aggregate m ui sus) k = None).
Proof.
  intros m ui sus k. split; intros Hk.
  - unfold aggregate. rewrite (aggregate_fold_score m ui k sus Hk). simpl.
    ring.
  - destruct (mget (aggregate m ui sus) k) as [v|] eqn:G; [|reflexivity].
    apply (get_in Z.eqb Z_eqb_eq) in G. apply (in_map fst) in G.
    apply aggregate_keys in G. simpl in G.
    unfold mhas, JSMap.has in Hk. fold (@mget Q ui k) in Hk.
    rewrite G in Hk. discriminate.
Qed.

(** ** When the collaborative mode degrades *)

Lemma fallback_no_fault limit w :
  db_faults w = [] ->
  getFallbackRecommendations limit w
  = (Return (fallback_list (db_products w) limit), w).
Proof.
  intros F.
  destruct (getFallback_spec limit w) as (recs & w' & E & _ & _ & Hnf).
  destruct (Hnf F) as [-> ->]. exact E.
Qed.

(** X15. With no database failure, a user whose row is missing or empty, or
    who has no similar user, receives exactly the popularity fallback list
    from [getCollaborativeRecommendations]. *)
Theorem collaborative_without_signal_is_fallback :
  forall uid limit w,
    db_faults w = [] ->
    row_of (userItemMatrix w) uid = [] \/
    findSimilarUsers (userItemMatrix w) uid 10 = [] ->
    getCollaborativeRecommendations uid limit w
    = (Return (fallback_list (db_products w) limit), w).
Proof.
  intros uid limit w F H.
  unfold getCollaborativeRecommendations, try_catch, collaborative_body,
    bind, gets.
  unfold row_of in H.
  destruct (uget (userItemMatrix w) uid) as [ui|] eqn:G.
  - destruct (Nat.eqb (JSMap.size ui) 0) eqn:Z.
    + rewrite (fallback_no_fault limit w F). reflexivity.
    + destruct H as [-> | H]; [discriminate|].
      rewrite H. simpl. rewrite (fallback_no_fault limit w F). reflexivity.
  - rewrite (fallback_no_fault limit w F). reflexivity.
Qed.

Lemma collaborative_without_signal_is_fallback_witness :
  getCollaborativeRecommendations "A" 3 Scenario.lone_buyer
  = (Return (fallback_list (db_products Scenario.lone_buyer) 3),
     Scenario.lone_buyer).
Proof.
  apply (collaborative_without_signal_is_fallback "A" 3 Scenario.lone_buyer).
  - reflexivity.
  - right. reflexivity.
Defined.





(** ** The popularity fallback *)

Lemma popularity_keeps_order x y :
  Qle_bool (popularity_cmp x y) 0 = true -> popular_before x y.
Proof.
  unfold popularity_cmp, popular_before. intros H.
  destruct (Qeqb (rating x) (rating y)) eqn:E; simpl in H.
  - apply Qeqb_true in E. right. split; [exact E|].
    destruct (Z.eqb (view_count x) (view_count y)) eqn:V; simpl in H.
    + apply Z.eqb_eq in V. right. split; [exact V|].
      destruct (is_featured x), (is_featured y); simpl in H; try tauto;
        try discriminate.
    + apply Z.eqb_neq in V. apply Qle_bool_iff in H.
      unfold Qle in H. simpl in H. left. lia.
  - apply Qle_bool_iff in H. left.
    assert (N : ~ rating x == rating y).
    { intros Q. apply Qeqb_true in Q. congruence. }
    destruct (Qlt_le_dec (rating y) (rating x)) as [L|L]; [exact L|].
    exfalso. apply N. lra.
Qed.

Lemma popularity_swaps_order x y :
  Qle_bool (popularity_cmp x y) 0 = false -> popular_before y x.
Proof.
  unfold popularity_cmp, popular_before. intros H.
  assert (Hgt : forall q, Qle_bool q 0 = false -> 0 < q).
  { intros q Hq. apply Qnot_le_lt. intros L. apply Qle_bool_iff in L.
    congruence. }
  destruct (Qeqb (rating x) (rating y)) eqn:E; simpl in H.
  - apply Qeqb_true in E. right. split; [symmetry; exact E|].
    destruct (Z.eqb (view_count x) (view_count y)) eqn:V; simpl in H.
    + apply Z.eqb_eq in V. right. split; [symmetry; exact V|].
      destruct (is_featured x), (is_featured y); simpl in H; try tauto;
        try discriminate.
    + apply Z.eqb_neq in V. apply Hgt in H.
      unfold Qlt in H. simpl in H. left. lia.
  - apply Hgt in H. left. lra.
Qed.

Lemma popular_before_trans x y z :
  popular_before x y -> popular_before y z -> popular_before x z.
Proof.
  unfold popular_before.
  intros [H1|(E1 & [V1|(V1 & F1)])] [H2|(E2 & [V2|(V2 & F2)])];
    try (left; lra);
    right; (split; [lra|]);
    try (left; lia);
    right; split; [lia | tauto].
Qed.

Lemma popular_sorted ps :
  StronglySorted popular_before (js_sort popularity_cmp ps).
Proof.
  apply js_sort_sorted.
  - apply popularity_keeps_order.
  - apply popularity_swaps_order.
  - apply popular_before_trans.
Qed.

Lemma StronglySorted_firstn {A} (R : A -> A -> Prop) n l :
  StronglySorted R l -> StronglySorted R (firstn n l).
Proof.
  intros H. revert n. induction H as [|x l Hl IH Hx]; intros [|n]; simpl;
    try constructor.
  - apply IH.
  - rewrite Forall_forall in *. intros y Hy. apply Hx.
    eapply in_firstn. exact Hy.
Qed.

(** X17. With no database failure, [getFallbackRecommendations] returns
    catalog products in the order rating descending, then view_count
    descending, then featured first; each record is tagged fallback and
    scored rating / 5; for a positive limit the list holds the smaller of
    [limit] and the catalog size. When the query fails it returns the empty
    list. *)
Theorem fallback_is_popularity_ranking :
  forall limit w,
    (db_faults w = [] ->
     exists recs,
       getFallbackRecommendations limit w = (Return recs, w) /\
       StronglySorted popular_before (map rec_product recs) /\
       (forall r, In r recs ->
          In (rec_product r) (db_products w) /\
          similarity_score r = rating (rec_product r) / 5 /\
          recommendation_type r = fallback) /\
       ((0 < limit)%nat ->
        List.length recs = Nat.min limit (List.length (db_products w)))) /\
    (forall fs, db_faults w = true :: fs ->
       getFallbackRecommendations limit w = (Return [], set_faults fs w)).
Proof.
  intros limit w. split.
  - intros F. exists (fallback_list (db_products w) limit).
    split; [apply (fallback_no_fault limit w F)|].
    unfold fallback_list. split; [|split].
    + rewrite map_map. simpl. rewrite map_id.
      destruct limit as [|n]; unfold db_limit;
        [|apply StronglySorted_firstn]; apply popular_sorted.
    + intros r Hr. apply in_map_iff in Hr. destruct Hr as [p [<- Hp]].
      simpl. split; [|split; reflexivity].
      assert (Hs : In p (js_sort popularity_cmp (db_products w))).
      { destruct limit as [|n]; unfold db_limit in Hp;
          [exact Hp | eapply in_firstn; exact Hp]. }
      apply js_sort_in in Hs. exact Hs.
    + intros Hl. rewrite length_map. destruct limit as [|n]; [lia|].
      unfold db_limit. rewrite length_firstn, js_sort_length. reflexivity.
  - intros fs F.
    unfold getFallbackRecommendations, try_catch, fallback_body,
      Product_find_popular, bind.
    rewrite (db_call_fails _ _ F). reflexivity.
Qed.

(** ** Item-to-item recommendations *)

Lemma similarity_unindexed tf docs pf id1 id2 :
  mget pf id2 = None ->
  calculateProductSimilarity tf docs pf id1 id2 = Return 0.
Proof.
  intros H. unfold calculateProductSimilarity. rewrite H.
  destruct (mget pf id1); reflexivity.
Qed.

Lemma similarity_at_most_one tf docs pf id1 id2 q :
  calculateProductSimilarity tf docs pf id1 id2 = Return q -> q <= 1.
Proof.
  unfold calculateProductSimilarity.
  destruct (mget pf id1); [|intros [= <-]; discriminate].
  destruct (mget pf id2); [|intros [= <-]; discriminate].
  destruct (tfidf_call _ _ _ _) as [t|e]; [|discriminate].
  intros [= <-]. apply Q.le_min_r.
Qed.

(** On a consistent index the function always returns. *)
Lemma similarity_returns tf docs pf id1 id2 :
  index_consistent docs pf ->
  exists q, calculateProductSimilarity tf docs pf id1 id2 = Return q.
Proof.
  intros Hc. unfold calculateProductSimilarity, tfidf_call.
  destruct (mget pf id1) as [f1|]; [|eauto].
  destruct (mget pf id2) as [f2|] eqn:G2; [|eauto].
  apply Hc, Nat.ltb_lt in G2. rewrite G2. eauto.
Qed.

Lemma similarities_of_returns tf docs pf target ps :
  index_consistent docs pf ->
  exists similarities,
    similarities_of tf docs pf target ps = Return similarities.
Proof.
  intros Hc. induction ps as [|p ps [sims IH]]; simpl; [eauto|].
  destruct (similarity_returns tf docs pf target (product_id p) Hc)
    as [q ->].
  rewrite IH. eauto.
Qed.

Lemma in_similarities_of tf docs pf target ps :
  forall similarities item,
    similarities_of tf docs pf target ps = Return similarities ->
    In item similarities ->
    In (fst item) ps /\
    calculateProductSimilarity tf docs pf target (product_id (fst item))
      = Return (snd item) /\
    0 < snd item.
Proof.
  induction ps as [|p ps IH]; simpl; intros sims item.
  - intros [= <-] [].
  - destruct (calculateProductSimilarity _ _ _ _ (product_id p)) as [q|e]
      eqn:Eq; [|discriminate].
    destruct (similarities_of tf docs pf target ps) as [rest|e];
      [|discriminate].
    intros [= <-] Hin.
    assert (Hrest : In item rest ->
                    (p = fst item \/ In (fst item) ps) /\
                    calculateProductSimilarity tf docs pf target
                      (product_id (fst item)) = Return (snd item) /\
                    0 < snd item).
    { intros H. destruct (IH rest item eq_refl H) as (H1 & H2 & H3).
      split; [right; exact H1 | split; assumption]. }
    destruct (Qgtb q 0) eqn:G; [|apply Hrest, Hin].
    destruct Hin as [<-|Hin]; [|apply Hrest, Hin].
    simpl. split; [left; reflexivity|]. split; [exact Eq|].
    apply Qgtb_true, G.
Qed.

Lemma similarities_of_complete tf docs pf target ps :
  forall similarities p q,
    similarities_of tf docs pf target ps = Return similarities ->
    In p ps ->
    calculateProductSimilarity tf docs pf target (product_id p) = Return q ->
    0 < q ->
    In (p, q) similarities.
Proof.
  induction ps as [|p0 ps IH]; simpl; intros sims p q E Hin Eq Hq;
    [destruct Hin|].
  destruct (calculateProductSimilarity _ _ _ _ (product_id p0)) as [q0|e]
    eqn:E0; [|discriminate].
  destruct (similarities_of tf docs pf target ps) as [rest|e];
    [|discriminate].
  injection E as <-.
  destruct Hin as [->|Hin].
  - rewrite E0 in Eq. injection Eq as ->.
    apply Qgtb_true in Hq. rewrite Hq. left. reflexivity.
  - specialize (IH rest p q eq_refl Hin Eq Hq).
    destruct (Qgtb q0 0); [right|]; exact IH.
Qed.

Lemma similarities_of_length tf docs pf target ps :
  forall similarities,
    similarities_of tf docs pf target ps = Return similarities ->
    (List.length similarities <= List.length ps)%nat.
Proof.
  induction ps as [|p0 ps IH]; simpl; intros sims.
  - intros [= <-]. simpl. lia.
  - destruct (calculateProductSimilarity _ _ _ _ _) as [q0|e];
      [|discriminate].
    destruct (similarities_of tf docs pf target ps) as [rest|e];
      [|discriminate].
    intros [= <-]. specialize (IH rest eq_refl).
    destruct (Qgtb q0 0); simpl; lia.
Qed.

Lemma in_rankSimilarTo tf docs pf target candidates similarities limit r :
  similarities_of tf docs pf target candidates = Return similarities ->
  In r (rankSimilarTo similarities limit) ->
  In (rec_product r) candidates /\
  recommendation_type r = content_based /\
  calculateProductSimilarity tf docs pf target (rec_id r)
    = Return (similarity_score r) /\
  0 < similarity_score r.
Proof.
  unfold rankSimilarTo, slice0. intros E H.
  apply in_map_iff in H. destruct H as [item [<- H]].
  apply in_firstn, js_sort_in in H.
  destruct (in_similarities_of _ _ _ _ _ _ _ E H) as (H1 & H2 & H3).
  simpl. unfold rec_id. simpl. repeat split; assumption.
Qed.

(** X18. With no database failure and a consistent index, for a non-zero
    anchor that has a product document and is indexed,
    [getContentBasedRecommendations] returns at most [limit] records tagged
    content_based; none of them is the anchor itself; each is a stored,
    indexed product whose score is what [calculateProductSimilarity]
    returns for the anchor and that product, strictly positive and at most
    1; and when the limit does not cut the list, every other stored product
    with a positive similarity to the anchor is returned with that
    score. *)
Theorem content_recommends_other_indexed_products :
  forall tf uid pid limit w tp f,
    db_faults w = [] ->
    pid <> 0%Z ->
    find_product w pid = Some tp ->
    mget (productFeatures w) pid = Some f ->
    index_consistent (tfidf_documents w) (productFeatures w) ->
    exists recs,
      getContentBasedRecommendations tf uid (Some pid) limit w
        = (Return recs, w) /\
      (List.length recs <= limit)%nat /\
      (forall r, In r recs ->
        rec_id r <> pid /\
        In (rec_product r) (db_products w) /\
        recommendation_type r = content_based /\
        mhas (productFeatures w) (rec_id r) = true /\
        calculateProductSimilarity tf (tfidf_documents w)
          (productFeatures w) pid (rec_id r)
        = Return (similarity_score r) /\
        0 < similarity_score r /\ similarity_score r <= 1) /\
      ((List.length (content_candidates w pid) <= limit)%nat ->
       forall p q,
         In p (db_products w) ->
         product_id p <> pid ->
         calculateProductSimilarity tf (tfidf_documents w)
           (productFeatures w) pid (product_id p) = Return q ->
         0 < q ->
         In (mkRec p q content_based None) recs).
Proof.
  intros tf uid pid limit w tp f F Hnz Hp Hf Hc.
  pose proof (find_id_eq _ _ _ Hp) as Hid.
  unfold getContentBasedRecommendations, try_catch, content_body.
  unfold truthy_id. apply Z.eqb_neq in Hnz. rewrite Hnz.
  cbn [negb]. unfold Product_findOne, bind.
  rewrite (db_call_no_fault _ F). unfold gets at 1.
  unfold find_product in Hp. rewrite Hp.
  unfold content_from_target, bind, gets. rewrite Hid, Hf.
  unfold Product_find_ne, bind. rewrite (db_call_no_fault _ F).
  unfold gets, ret, lift.
  destruct (similarities_of_returns tf (tfidf_documents w)
              (productFeatures w) pid
              (filter (fun p => negb (Z.eqb (product_id p) pid))
                 (db_products w)) Hc) as [sims Es].
  rewrite Es.
  eexists. split; [reflexivity|]. split; [|split].
  - unfold rankSimilarTo, slice0. rewrite length_map. apply firstn_le_length.
  - intros r Hr. apply (in_rankSimilarTo _ _ _ _ _ _ _ _ Es) in Hr.
    destruct Hr as (Hin & Ht & Hs & Hpos).
    apply filter_In in Hin. destruct Hin as [Hin Hne].
    split.
    { apply negb_true_iff, Z.eqb_neq in Hne. exact Hne. }
    split; [exact Hin|]. split; [exact Ht|]. split.
    { unfold mhas, JSMap.has. fold (@mget Features (productFeatures w)).
      destruct (mget (productFeatures w) (rec_id r)) eqn:G; [reflexivity|].
      rewrite (similarity_unindexed _ _ _ _ _ G) in Hs.
      injection Hs as Hs. rewrite <- Hs in Hpos. discriminate. }
    split; [exact Hs|]. split; [exact Hpos|].
    apply (similarity_at_most_one _ _ _ _ _ _ Hs).
  - intros Hl p q Hin Hne Eq Hq.
    unfold rankSimilarTo, slice0.
    rewrite firstn_all2.
    2:{ rewrite js_sort_length.
        pose proof (similarities_of_length _ _ _ _ _ _ Es) as L.
        unfold content_candidates in Hl. lia. }
    apply (in_map content_rec _ (p, q)). apply js_sort_in.
    apply (similarities_of_complete _ _ _ _ _ _ _ _ Es); try assumption.
    apply filter_In. split; [exact Hin|].
    apply negb_true_iff, Z.eqb_neq. exact Hne.
Qed.

Lemma index_consistent_check docs (pf : list (Z * Features)) :
  forallb (fun e => Nat.ltb (textIndex (snd e)) (List.length docs)) pf = true ->
  index_consistent docs pf.
Proof.
  intros H id f G. apply (get_in Z.eqb Z_eqb_eq) in G.
  rewrite forallb_forall in H. apply H in G. apply Nat.ltb_lt in G. exact G.
Qed.

Lemma indexed_is_consistent :
  index_consistent (tfidf_documents Scenario.indexed)
    (productFeatures Scenario.indexed).
Proof. apply index_consistent_check. reflexivity. Qed.

Lemma content_recommends_other_indexed_products_witness :
  exists recs,
    getContentBasedRecommendations Scenario.no_text "A" (Some 1%Z) 3
      Scenario.indexed = (Return recs, Scenario.indexed) /\
    (List.length recs <= 3)%nat /\
    (forall r, In r recs ->
      rec_id r <> 1%Z /\
      In (rec_product r) (db_products Scenario.indexed) /\
      recommendation_type r = content_based /\
      mhas (productFeatures Scenario.indexed) (rec_id r) = true /\
      calculateProductSimilarity Scenario.no_text
        (tfidf_documents Scenario.indexed)
        (productFeatures Scenario.indexed) 1 (rec_id r)
      = Return (similarity_score r) /\
      0 < similarity_score r /\ similarity_score r <= 1) /\
    ((List.length (content_candidates Scenario.indexed 1) <= 3)%nat ->
     forall p q,
       In p (db_products Scenario.indexed) ->
       product_id p <> 1%Z ->
       calculateProductSimilarity Scenario.no_text
         (tfidf_documents Scenario.indexed)
         (productFeatures Scenario.indexed) 1 (product_id p) = Return q ->
       0 < q ->
       In (mkRec p q content_based None) recs).
Proof.
  apply (content_recommends_other_indexed_products Scenario.no_text "A" 1%Z 3
           Scenario.indexed (Scenario.item 1 "electronics" 100 4)
           Scenario.features_1).
  - reflexivity.
  - discriminate.
  - reflexivity.
  - reflexivity.
  - exact indexed_is_consistent.
Defined.

(** A stale index: the similarity to a candidate whose document is gone
    throws, and the content mode answers with the popularity fallback. *)
Example stale_index_falls_back :
  calculateProductSimilarity Scenario.no_text
    (tfidf_documents Cases.restocked) (productFeatures Cases.restocked) 1 2
  = Throw TypeError /\
  exists recs,
    fst (getContentBasedRecommendations Scenario.no_text "A" (Some 1%Z) 3
           Cases.restocked) = Return recs /\
    map rec_id recs = [4; 2; 1]%Z /\
    Forall is_fallback recs.
Proof.
  split; [reflexivity|].
  eexists. split; [vm_compute; reflexivity|].
  split; [reflexivity | repeat constructor].
Qed.

(** X19. The similarity of an indexed item with itself. When the item's
    document exists the function returns min(text * 0.4 + 0.6, 1), where
    text is the value of the tf-idf call, the weight of the decimal string
    of the item's index in the item's document: at least 0.6 for a
    non-negative value, and exactly 1 once the value reaches 1. When the
    document does not exist the function throws a TypeError. *)
Theorem self_similarity :
  forall tf docs pf id f,
    mget pf id = Some f ->
    ((textIndex f < List.length docs)%nat ->
     exists q,
       calculateProductSimilarity tf docs pf id id = Return q /\
       q == Qmin (tf docs (decimal (textIndex f)) (textIndex f) * 0.4 + 0.6)
              1 /\
       (0 <= tf docs (decimal (textIndex f)) (textIndex f) -> 0.6 <= q) /\
       (1 <= tf docs (decimal (textIndex f)) (textIndex f) -> q == 1)) /\
    ((List.length docs <= textIndex f)%nat ->
     calculateProductSimilarity tf docs pf id id = Throw TypeError).
Proof.
  intros tf docs pf id f G. split.
  - intros L. eexists.
    split; [apply (similarity_indexed tf docs pf id id f f G G L)|].
    unfold text_term.
    set (t := tf docs (decimal (textIndex f)) (textIndex f)).
    assert (E : similarity_from t f f == Qmin (t * 0.4 + 0.6) 1).
    { unfold similarity_from.
      apply Q.min_compat; [|reflexivity].
      rewrite !String.eqb_refl.
      assert (Zp : Qabs (f_price f - f_price f) == 0).
      { assert (H : f_price f - f_price f == 0) by ring.
        rewrite H. reflexivity. }
      assert (Zr : Qabs (f_rating f - f_rating f) == 0).
      { assert (H : f_rating f - f_rating f == 0) by ring.
        rewrite H. reflexivity. }
      destruct (Qgtb (Qmax (f_price f) (f_price f)) 0);
        rewrite ?Zp, Zr; unfold Qdiv; ring. }
    split; [exact E|]. split; intros H; rewrite E.
    + apply Q.min_glb; lra.
    + apply Q.min_r. lra.
  - intros L. apply (similarity_stale tf docs pf id id f f G G L).
Qed.

Lemma self_similarity_witness :
  ((textIndex Scenario.features_1
    < List.length (tfidf_documents Scenario.indexed))%nat ->
   exists q,
     calculateProductSimilarity Scenario.no_text
       (tfidf_documents Scenario.indexed) (productFeatures Scenario.indexed)
       1 1 = Return q /\
     q == Qmin (Scenario.no_text (tfidf_documents Scenario.indexed)
                  (decimal (textIndex Scenario.features_1))
                  (textIndex Scenario.features_1) * 0.4 + 0.6) 1 /\
     (0 <= Scenario.no_text (tfidf_documents Scenario.indexed)
             (decimal (textIndex Scenario.features_1))
             (textIndex Scenario.features_1) -> 0.6 <= q) /\
     (1 <= Scenario.no_text (tfidf_documents Scenario.indexed)
             (decimal (textIndex Scenario.features_1))
             (textIndex Scenario.features_1) -> q == 1)) /\
  ((List.length (tfidf_documents Scenario.indexed)
    <= textIndex Scenario.features_1)%nat ->
   calculateProductSimilarity Scenario.no_text
     (tfidf_documents Scenario.indexed) (productFeatures Scenario.indexed)
     1 1 = Throw TypeError).
Proof.
  apply (self_similarity Scenario.no_text (tfidf_documents Scenario.indexed)
           (productFeatures Scenario.indexed) 1%Z Scenario.features_1).
  reflexivity.
Defined.

(** ** The anchor taken from the user's history *)

Lemma descending_head {A} (score : A -> Q) x l y :
  descending score (x :: l) -> In y (x :: l) -> score y <= score x.
Proof.
  intros H [<-|Hy]; [lra|].
  inversion H as [|? ? _ Hx]; subst.
  rewrite Forall_forall in Hx. apply Hx, Hy.
Qed.

(** X20. For interactions whose types name no inherited member (every
    type the schema admits), the interaction the content mode starts from
    is one of the user's interactions with the highest weight and, among
    those of that weight, one with the latest timestamp. *)
Theorem anchor_is_heaviest_then_latest :
  forall l first rest,
    plain_types l ->
    sortedInteractions l = first :: rest ->
    In first l /\
    forall i, In i l ->
      getInteractionWeight (i_type i) <= getInteractionWeight (i_type first)
      /\
      (getInteractionWeight (i_type i) == getInteractionWeight (i_type first)
       -> (i_timestamp i <= i_timestamp first)%Z).
Proof.
  intros l first rest _ H. unfold sortedInteractions in H.
  set (byW := fun i => getInteractionWeight (i_type i)) in *.
  set (byT := fun i => inject_Z (i_timestamp i)) in *.
  set (s1 := js_sort (desc_by byT) l) in *.
  assert (Hin : forall i, In i l <-> In i (first :: rest)).
  { intros i. rewrite <- H. unfold s1. rewrite !js_sort_in. reflexivity. }
  split; [apply Hin; left; reflexivity|].
  intros i Hi. split.
  - pose proof (js_sort_descending byW s1) as D. rewrite H in D.
    apply (descending_head byW first rest i D). apply Hin, Hi.
  - intros Hw.
    set (p := fun x : Interaction => Qeqb (byW x) (byW first)).
    assert (St : filter p (js_sort (desc_by byW) s1) = filter p s1).
    { apply js_sort_stable. intros a b Ha Hb. unfold p in *.
      apply Qeqb_true in Ha, Hb. unfold desc_by. apply Qle_bool_iff. lra. }
    rewrite H in St. simpl in St.
    assert (Pf : p first = true) by (apply Qeqb_true; reflexivity).
    rewrite Pf in St.
    assert (D1 : descending byT (filter p s1)).
    { apply descending_filter. apply js_sort_descending. }
    rewrite <- St in D1.
    assert (Hi1 : In i (first :: filter p rest)).
    { rewrite St. apply filter_In. split.
      - unfold s1. apply js_sort_in. exact Hi.
      - apply Qeqb_true. exact Hw. }
    pose proof (descending_head byT first _ i D1 Hi1) as Ht.
    unfold byT in Ht. rewrite <- Zle_Qle in Ht. exact Ht.
Qed.

Lemma anchor_is_heaviest_then_latest_witness :
  In (mkInteraction 2 "purchase" 7 None)
    [mkInteraction 1 "view" 9 None; mkInteraction 3 "purchase" 5 None;
     mkInteraction 2 "purchase" 7 None] /\
  forall i,
    In i [mkInteraction 1 "view" 9 None; mkInteraction 3 "purchase" 5 None;
          mkInteraction 2 "purchase" 7 None] ->
    getInteractionWeight (i_type i)
    <= getInteractionWeight (i_type (mkInteraction 2 "purchase" 7 None)) /\
    (getInteractionWeight (i_type i)
     == getInteractionWeight (i_type (mkInteraction 2 "purchase" 7 None)) ->
     (i_timestamp i <= i_timestamp (mkInteraction 2 "purchase" 7 None))%Z).
Proof.
  apply (anchor_is_heaviest_then_latest
           [mkInteraction 1 "view" 9 None; mkInteraction 3 "purchase" 5 None;
            mkInteraction 2 "purchase" 7 None]
           (mkInteraction 2 "purchase" 7 None)
           [mkInteraction 3 "purchase" 5 None;
            mkInteraction 1 "view" 9 None]).
  - reflexivity.
  - reflexivity.
Defined.

(** ** The blend as a whole *)

Lemma add_content_keys m r x :
  In x (JSMap.keys (add_content m r)) -> In x (JSMap.keys m) \/ x = rec_id r.
Proof.
  unfold add_content, JSMap.keys. intros H. apply in_map_iff in H.
  destruct H as [[k v] [<- H]]. apply (in_set Z.eqb Z_eqb_eq) in H.
  destruct H as [[-> _]|H]; [right; reflexivity|].
  left. apply (in_map fst) in H. exact H.
Qed.

Lemma add_collab_keys m r x :
  In x (JSMap.keys (add_collab m r)) -> In x (JSMap.keys m) \/ x = rec_id r.
Proof.
  rewrite add_collab_set. unfold JSMap.keys. intros H. apply in_map_iff in H.
  destruct H as [[k v] [<- H]]. apply (in_set Z.eqb Z_eqb_eq) in H.
  destruct H as [[-> _]|H]; [right; reflexivity|].
  left. apply (in_map fst) in H. exact H.
Qed.

Lemma combine_keys contentRecs collabRecs x :
  In x (JSMap.keys (combine contentRecs collabRecs)) ->
  In x (map rec_id contentRecs) \/ In x (map rec_id collabRecs).
Proof.
  unfold combine.
  assert (H1 : forall l m,
             In x (JSMap.keys (fold_left add_content l m)) ->
             In x (JSMap.keys m) \/ In x (map rec_id l)).
  { induction l as [|r l IH]; intros m H; simpl in *; [tauto|].
    apply IH in H. destruct H as [H|H]; [|tauto].
    apply add_content_keys in H. destruct H as [H| ->]; tauto. }
  assert (H2 : forall l m,
             In x (JSMap.keys (fold_left add_collab l m)) ->
             In x (JSMap.keys m) \/ In x (map rec_id l)).
  { induction l as [|r l IH]; intros m H; simpl in *; [tauto|].
    apply IH in H. destruct H as [H|H]; [|tauto].
    apply add_collab_keys in H. destruct H as [H| ->]; tauto. }
  intros H. apply H2 in H. destruct H as [H|H]; [|tauto].
  apply H1 in H. destruct H as [[]|H]. tauto.
Qed.

Lemma blend_ok_value_ids m :
  blend_ok m -> map rec_id (JSMap.values m) = JSMap.keys m.
Proof.
  intros [_ H]. unfold JSMap.values, JSMap.keys. rewrite map_map.
  apply map_ext_in. intros [k r] Hin. simpl.
  destruct (H k r Hin) as [-> _]. reflexivity.
Qed.

(** X21. Whatever the two input lists are, the blend returns at most
    [limit] records, no two of them for the same item, in descending order of
    combined score, and each of them for an item of one of the input
    lists. *)
Theorem blend_is_a_ranking_without_duplicates :
  forall contentRecs collabRecs limit,
    (List.length (blend contentRecs collabRecs limit) <= limit)%nat /\
    NoDup (map rec_id (blend contentRecs collabRecs limit)) /\
    descending (fun r => or_zero (combined_score r))
      (blend contentRecs collabRecs limit) /\
    (forall r, In r (blend contentRecs collabRecs limit) ->
       In (rec_id r) (map rec_id contentRecs) \/
       In (rec_id r) (map rec_id collabRecs)).
Proof.
  intros cs ks limit.
  pose proof (blend_ok_combine cs ks) as Hok.
  pose proof (blend_ok_value_ids _ Hok) as Hids.
  unfold blend, slice0. split; [apply firstn_le_length|]. split; [|split].
  - rewrite <- firstn_map. apply NoDup_firstn.
    eapply Permutation_NoDup.
    + apply Permutation_map. symmetry. apply js_sort_perm.
    + rewrite Hids. apply Hok.
  - apply descending_firstn, js_sort_descending.
  - intros r Hr. apply in_firstn, js_sort_in in Hr.
    apply (in_map rec_id) in Hr. rewrite Hids in Hr.
    apply combine_keys, Hr.
Qed.

(** X22. The hybrid mode is always the blend of the two other modes: in
    every world and under every fault schedule the body of
    [getHybridRecommendations] returns, so its own fallback branch is never
    taken, and the result is the blend of a list
    [getContentBasedRecommendations] (without anchor) returns and a list
    [getCollaborativeRecommendations] returns for ceil(limit * 0.7) over the
    data of the world, each call meeting a part of the pending faults, in
    their order: the first pending fault goes to the first round trip of
    the content call, the second to the first round trip of the
    collaborative call. *)
Theorem hybrid_is_blend_of_both_modes :
  forall tf uid limit w,
    exists contentRecs collabRecs fs1 fs2 w',
      subseq fs1 (db_faults w) /\
      subseq fs2 (db_faults w) /\
      hd_error fs1 = hd_error (db_faults w) /\
      hd_error fs2 = hd_error (tl (db_faults w)) /\
      fst (getContentBasedRecommendations tf uid None (ceil_07 limit)
             (set_faults fs1 w)) = Return contentRecs /\
      fst (getCollaborativeRecommendations uid (ceil_07 limit)
             (set_faults fs2 w)) = Return collabRecs /\
      hybrid_body tf uid limit w
        = (Return (blend contentRecs collabRecs limit), w') /\
      getHybridRecommendations tf uid limit w
        = (Return (blend contentRecs collabRecs limit), w') /\
      same_data w w'.
Proof.
  intros tf uid limit w.
  destruct (hybrid_body_blend tf uid limit w)
    as (c & k & fs1 & fs2 & w' & E & S & S1 & S2 & E1 & E2 & H1 & H2).
  exists c, k, fs1, fs2, w'.
  split; [exact S1|]. split; [exact S2|].
  split; [exact H1|]. split; [exact H2|]. split; [exact E1|].
  split; [exact E2|]. split; [exact E|]. split; [|exact S].
  unfold getHybridRecommendations, try_catch. rewrite E. reflexivity.
Qed.

(** The round trips of the two calls alternate: when the second round trip
    fails for a user without interactions, it is the fallback query of the
    collaborative call that fails, and the hybrid list is the content
    call's list alone, each score scaled by 0.6. *)
Example hybrid_second_round_trip_fails :
  exists recs,
    fst (getHybridRecommendations Scenario.no_text "A" 5
           (set_faults [false; true] Scenario.shop)) = Return recs /\
    map rec_id recs = [4; 2; 1; 3]%Z /\
    Forall (fun r => combined_score r = Some (similarity_score r * 0.6)) recs.
Proof.
  eexists. split; [vm_compute; reflexivity|].
  split; [reflexivity|]. repeat constructor.
Qed.

(** ** The recommendation modes only read *)

Lemma attach_products_reads ps sorted : reads_only (attach_products ps sorted).
Proof.
  induction sorted as [|[pid score] sorted IH]; simpl.
  - apply ret_reads.
  - destruct (find _ ps); [|apply throw_reads].
    apply bind_reads; [exact IH | intros; apply ret_reads].
Qed.

Lemma content_reads tf uid anchor limit :
  reads_only (getContentBasedRecommendations tf uid anchor limit).
Proof.
  assert (Ht : forall t, reads_only (content_from_target tf t limit)).
  { intros t. unfold content_from_target. reads_tac. }
  unfold getContentBasedRecommendations, content_body, content_from_history.
  reads_tac; apply Ht.
Qed.

Lemma collaborative_reads uid limit :
  reads_only (getCollaborativeRecommendations uid limit).
Proof.
  unfold getCollaborativeRecommendations, collaborative_body,
    collaborative_fetch.
  reads_tac; apply attach_products_reads.
Qed.

(** X23. The four recommendation operations never write: whatever the
    database does, they leave both collections, the index and the matrix as
    they were (only consumed faults differ), and with no pending fault they
    leave the world exactly as it was. *)
Theorem recommendations_only_read :
  forall tf uid anchor limit,
    reads_only (getContentBasedRecommendations tf uid anchor limit) /\
    reads_only (getCollaborativeRecommendations uid limit) /\
    reads_only (getHybridRecommendations tf uid limit) /\
    reads_only (getFallbackRecommendations limit).
Proof.
  intros tf uid anchor limit.
  split; [apply content_reads|]. split; [apply collaborative_reads|].
  split; [|apply getFallback_reads].
  unfold getHybridRecommendations, hybrid_body.
  apply try_catch_reads; [|intros; apply getFallback_reads].
  apply bind_reads; [apply promise_all2_reads|]. intros [c k].
  apply ret_reads.
Qed.

(** ** Category and the similarity score *)

(** X24. All else equal, sharing the anchor's category never lowers the
    score: if the documents of two indexed candidates exist, the candidates
    have the same price and rating, the tf-idf call returns the same value
    for the anchor against each, and one shares the anchor's category while
    the other does not, then both similarities are returned and the one
    sharing the category is at least as high. *)
Theorem same_category_scores_at_least_as_high :
  forall tf docs pf a b c fa fb fc,
    mget pf a = Some fa ->
    mget pf b = Some fb ->
    mget pf c = Some fc ->
    (textIndex fb < List.length docs)%nat ->
    (textIndex fc < List.length docs)%nat ->
    f_price fb = f_price fc ->
    f_rating fb = f_rating fc ->
    tf docs (decimal (textIndex fa)) (textIndex fb)
      == tf docs (decimal (textIndex fa)) (textIndex fc) ->
    String.eqb (f_category fa) (f_category fb) = false ->
    String.eqb (f_category fa) (f_category fc) = true ->
    exists qb qc,
      calculateProductSimilarity tf docs pf a b = Return qb /\
      calculateProductSimilarity tf docs pf a c = Return qc /\
      qb <= qc.
Proof.
  intros tf docs pf a b c fa fb fc Ga Gb Gc Lb Lc Hp Hr Ht Hb Hc.
  eexists. eexists.
  split; [apply (similarity_indexed tf docs pf a b fa fb Ga Gb Lb)|].
  split; [apply (similarity_indexed tf docs pf a c fa fc Ga Gc Lc)|].
  unfold similarity_from, text_term. rewrite Hb, Hc, Hp, Hr.
  set (pt := if Qgtb (Qmax (f_price fa) (f_price fc)) 0
             then 1 - Qabs (f_price fa - f_price fc)
                      / Qmax (f_price fa) (f_price fc)
             else 1).
  set (rt := 1 - Qabs (f_rating fa - f_rating fc) / 5).
  apply Q.min_le_compat_r. rewrite Ht.
  destruct (String.eqb (f_subcategory fa) (f_subcategory fc)); lra.
Qed.

Lemma same_category_scores_at_least_as_high_witness :
  exists qb qc,
    calculateProductSimilarity Scenario.no_text Cases.twin_documents
      Cases.twin_index 1 3 = Return qb /\
    calculateProductSimilarity Scenario.no_text Cases.twin_documents
      Cases.twin_index 1 7 = Return qc /\
    qb <= qc.
Proof.
  apply (same_category_scores_at_least_as_high Scenario.no_text
           Cases.twin_documents Cases.twin_index 1%Z 3%Z 7%Z
           Scenario.features_1
           (mkFeatures "books" "general" 15 3 false false "acme" 1)
           (mkFeatures "electronics" "general" 15 3 false false "acme" 2));
    try reflexivity; simpl; lia.
Defined.

(** ** The collaborative mode when it has signal *)








(** * The controllers *)

(** ** trackInteraction *)

Lemma includes_type_valid ty :
  includes_type (Some ty) = valid_type ty.
Proof.
  unfold includes_type, valid_type, validTypes. simpl.
  destruct (String.eqb ty "view"), (String.eqb ty "like"),
    (String.eqb ty "purchase"), (String.eqb ty "cart_add"); reflexivity.
Qed.

(** X26. [trackInteraction] answers 401 to a request without a user and 400
    to a request whose type is not one of view, like, cart_add, purchase,
    in both cases without any database round trip: the world, fault
    schedule included, is exactly what it was. It answers 404, with nothing
    recorded, when the product lookup succeeds and finds no product. *)
Theorem track_rejects_before_recording :
  forall parseInt user productId ty r w,
    (user = None ->
     trackInteraction parseInt user productId ty r w
     = (Return (mkResponse 401
                  (ErrorBody "Authentication required"
                     "You must be logged in to track interactions")), w)) /\
    (user <> None -> includes_type ty = false ->
     trackInteraction parseInt user productId ty r w
     = (Return (mkResponse 400
                  (ErrorBody "Invalid interaction type"
                     "Interaction type must be one of: view, like, cart_add, purchase")),
        w)) /\
    (forall pid,
       user <> None -> includes_type ty = true ->
       parseInt productId = Some pid -> db_faults w = [] ->
       find_product w pid = None ->
       trackInteraction parseInt user productId ty r w
       = (Return (mkResponse 404
                    (ErrorBody "Product not found"
                       "Product with the specified ID was not found")), w)).
Proof.
  intros parseInt user productId ty r w. split; [|split].
  - intros ->. reflexivity.
  - intros Hu Hty. destruct user as [a|]; [|contradiction].
    unfold trackInteraction, try_catch. rewrite Hty. reflexivity.
  - intros pid Hu Hty Hp F Hf. destruct user as [a|]; [|contradiction].
    unfold trackInteraction, try_catch, findOne_param, bind.
    rewrite Hty, Hp. cbn [negb]. unfold Product_findOne, bind.
    rewrite (db_call_no_fault _ F). unfold gets.
    unfold find_product in Hf. rewrite Hf. reflexivity.
Qed.

(** X27. [trackInteraction] reports success whatever the engine did: for a
    logged-in user, a valid type and an existing product, with no database
    failure, the answer is 200 "Interaction tracked successfully" carrying
    the requested rating, even when the rating is outside [1,5] and the
    engine therefore recorded nothing. *)
Theorem track_reports_success_even_if_unrecorded :
  forall parseInt a productId pid ty r w p,
    parseInt productId = Some pid ->
    valid_type ty = true ->
    db_faults w = [] ->
    find_product w pid = Some p ->
    exists w',
      trackInteraction parseInt (Some a) productId (Some ty) r w
      = (Return (mkResponse 200
                   (TrackedBody "Interaction tracked successfully" pid ty r
                      (clock w'))), w') /\
      (valid_rating r = false ->
       userItemMatrix w' = userItemMatrix w /\ db_users w' = db_users w).
Proof.
  intros parseInt a productId pid ty r w p Hp Hty F Hf.
  unfold trackInteraction, try_catch, findOne_param, bind.
  rewrite includes_type_valid, Hty, Hp. cbn [negb].
  unfold Product_findOne, bind. rewrite (db_call_no_fault _ F).
  unfold gets at 1. unfold find_product in Hf. rewrite Hf.
  destruct (update_returns (account_id a) pid ty r w) as ([] & w1 & E).
  rewrite E. unfold gets, json, ret. exists w1. split; [reflexivity|].
  intros Hr.
  destruct (invalid_rating_same_data (account_id a) pid ty r w Hr)
    as (w2 & E2 & S).
  rewrite E in E2. injection E2 as <-.
  destruct (same_data_fields _ _ S) as (_ & U & _ & _ & _ & Mx).
  split; assumption.
Qed.

Lemma track_reports_success_even_if_unrecorded_witness :
  exists w',
    trackInteraction Requests.parse (Some Requests.alice) "2"
      (Some "purchase") (Some 6) Scenario.shop
    = (Return (mkResponse 200
                 (TrackedBody "Interaction tracked successfully" 2
                    "purchase" (Some 6) (clock w'))), w') /\
    (valid_rating (Some 6) = false ->
     userItemMatrix w' = userItemMatrix Scenario.shop /\
     db_users w' = db_users Scenario.shop).
Proof.
  apply (track_reports_success_even_if_unrecorded Requests.parse
           Requests.alice "2" 2%Z "purchase" (Some 6) Scenario.shop
           (Scenario.item 2 "electronics" 110 4.5)).
  - reflexivity.
  - reflexivity.
  - reflexivity.
  - reflexivity.
Defined.

(** ** getUserRecommendations *)

(** X28. For a logged-in user [getUserRecommendations] always answers 200,
    whatever the database does: the body carries the list returned by the
    content mode for type "content", by the collaborative mode for
    "collaborative" and by the hybrid mode for any other type, with count
    equal to the length of that list. Without a user it answers 401 and
    leaves the world as it was. *)
Theorem user_recommendations_dispatch :
  forall tf a type limit w,
    (exists recs w',
       (if String.eqb type "content" then
          getContentBasedRecommendations tf (account_id a) None limit
        else if String.eqb type "collaborative" then
          getCollaborativeRecommendations (account_id a) limit
        else getHybridRecommendations tf (account_id a) limit) w
       = (Return recs, w') /\
       getUserRecommendations tf (Some a) type limit w
       = (Return (mkResponse 200
                    (RecommendationsBody recs (List.length recs) type
                       (Some (account_id a)))), w')) /\
    getUserRecommendations tf None type limit w
    = (Return (mkResponse 401
                 (ErrorBody "Authentication required"
                    "You must be logged in to get personalized recommendations")),
       w).
Proof.
  intros tf a type limit w. split; [|reflexivity].
  unfold getUserRecommendations, try_catch, bind.
  destruct (String.eqb type "content");
    [|destruct (String.eqb type "collaborative")].
  - destruct (content_returns tf (account_id a) None limit w)
      as (recs & w' & E).
    exists recs, w'. rewrite E. split; reflexivity.
  - destruct (collaborative_returns (account_id a) limit w)
      as (recs & w' & E).
    exists recs, w'. rewrite E. split; reflexivity.
  - destruct (hybrid_returns tf (account_id a) limit w) as (recs & w' & E).
    exists recs, w'. rewrite E. split; reflexivity.
Qed.

(** ** getProductById *)



(** ** getRecommendationStats *)

Lemma total_count_up o k : total_count (count_up o k) = (total_count o + 1)%Z.
Proof.
  unfold count_up, uset, uget.
  induction o as [|[k0 n0] o IH]; simpl; [reflexivity|].
  destruct (String.eqb k0 k) eqn:E; simpl.
  - lia.
  - rewrite IH. lia.
Qed.

Lemma count_up_positive o k :
  Forall (fun e => (1 <= snd e)%Z) o ->
  Forall (fun e => (1 <= snd e)%Z) (count_up o k).
Proof.
  unfold count_up, uset, uget.
  induction 1 as [|[k0 n0] o Hx Ho IH]; simpl.
  - constructor; [simpl; lia | constructor].
  - destruct (String.eqb k0 k) eqn:E; simpl in *.
    + constructor; [simpl; lia | exact Ho].
    + constructor; [exact Hx | exact IH].
Qed.

Lemma interactionStats_total l :
  total_count (interactionStats l) = Z.of_nat (List.length l).
Proof.
  unfold interactionStats.
  assert (H : forall acc,
             total_count
               (fold_left (fun stats i => count_up stats (i_type i)) l acc)
             = (total_count acc + Z.of_nat (List.length l))%Z).
  { induction l as [|i l IH]; intros acc; simpl List.length;
      [simpl; lia|].
    simpl fold_left. rewrite IH, total_count_up. lia. }
  rewrite H. simpl. lia.
Qed.

Lemma uniqueProducts_le l : (uniqueProducts l <= List.length l)%nat.
Proof.
  unfold uniqueProducts.
  assert (H : forall acc,
             (List.length
                (fold_left (fun s i => JSSet.add Z.eqb s (i_productId i))
                   l acc)
              <= List.length acc + List.length l)%nat).
  { induction l as [|i l IH]; intros acc; simpl; [lia|].
    etransitivity; [apply IH|].
    unfold JSSet.add. destruct (JSSet.has Z.eqb acc (i_productId i));
      [lia|]. rewrite length_app. simpl. lia. }
  apply (H []).
Qed.

Lemma categoryInteractions_no_fault l w :
  db_faults w = [] ->
  forall acc,
    Forall (fun e => (1 <= snd e)%Z) acc ->
    exists counts,
      categoryInteractions l acc w = (Return counts, w) /\
      Forall (fun e => (1 <= snd e)%Z) counts /\
      (total_count counts <= total_count acc + Z.of_nat (List.length l))%Z.
Proof.
  intros F. induction l as [|i l IH]; intros acc Hacc; simpl categoryInteractions.
  - exists acc. split; [reflexivity|]. split; [exact Hacc|]. simpl. lia.
  - unfold bind, Product_findOne. unfold bind.
    rewrite (db_call_no_fault _ F). unfold gets.
    destruct (find _ (db_products w)) as [p|].
    + destruct (IH (count_up acc (category p)) (count_up_positive _ _ Hacc))
        as (counts & E & Hp & Ht).
      exists counts. split; [exact E|]. split; [exact Hp|].
      rewrite total_count_up in Ht. simpl List.length. lia.
    + destruct (IH acc Hacc) as (counts & E & Hp & Ht).
      exists counts. split; [exact E|]. split; [exact Hp|].
      simpl List.length. lia.
Qed.

Lemma total_count_perm o o' :
  Permutation o o' -> total_count o = total_count o'.
Proof.
  induction 1; simpl; lia.
Qed.

Lemma total_count_firstn n o :
  Forall (fun e => (1 <= snd e)%Z) o ->
  (0 <= total_count (firstn n o) <= total_count o)%Z.
Proof.
  intros H. revert n. induction H as [|e o He Ho IH]; intros [|n]; simpl;
    try lia.
  - assert (0 <= total_count o)%Z by (specialize (IH 0%nat); simpl in IH; lia).
    lia.
  - specialize (IH n). lia.
Qed.

(** X30. With no database failure, when no interaction type of the user
    and no product category names an inherited member,
    [getRecommendationStats] answers 200 for a logged-in user; in its body the per-type counters add up to the number
    of interactions, the number of unique products is at most that number,
    and topCategories holds at most five categories in descending order of
    count whose counts add up to at most the number of interactions. *)
Theorem stats_are_consistent :
  forall a w,
    db_faults w = [] ->
    plain_types (interactions (account_user a)) ->
    plain_categories (db_products w) ->
    exists top,
      getRecommendationStats (Some a) w
      = (Return
           (mkResponse 200
              (StatsBody (account_id a)
                 (List.length (interactions (account_user a)))
                 (uniqueProducts (interactions (account_user a)))
                 (interactionStats (interactions (account_user a)))
                 top (account_preferences a) (account_createdAt a))), w) /\
      total_count (interactionStats (interactions (account_user a)))
      = Z.of_nat (List.length (interactions (account_user a))) /\
      (uniqueProducts (interactions (account_user a))
       <= List.length (interactions (account_user a)))%nat /\
      (List.length top <= 5)%nat /\
      descending (fun e => inject_Z (snd e)) top /\
      (0 <= total_count top
       <= Z.of_nat (List.length (interactions (account_user a))))%Z.
Proof.
  intros a w F _ _.
  destruct (categoryInteractions_no_fault (interactions (account_user a)) w F
              [] (Forall_nil _)) as (counts & E & Hpos & Ht).
  exists (topCategories_of counts).
  split; [|split; [apply interactionStats_total|]].
  - unfold getRecommendationStats, try_catch, bind. rewrite E. reflexivity.
  - split; [apply uniqueProducts_le|].
    unfold topCategories_of, slice0.
    split; [apply firstn_le_length|].
    split; [apply descending_firstn, js_sort_descending|].
    set (sorted := js_sort (desc_by (fun e => inject_Z (snd e))) counts).
    assert (Hperm : Permutation sorted counts) by apply js_sort_perm.
    assert (Hps : Forall (fun e => (1 <= snd e)%Z) sorted).
    { apply Forall_forall. intros e He. rewrite Forall_forall in Hpos.
      apply Hpos. eapply Permutation_in; eauto. }
    pose proof (total_count_firstn 5 sorted Hps) as Hf.
    rewrite (total_count_perm _ _ Hperm) in Hf. simpl in Ht. lia.
Qed.

Lemma stats_are_consistent_witness :
  exists top,
    getRecommendationStats (Some Requests.carol) Scenario.shop
    = (Return
         (mkResponse 200
            (StatsBody (account_id Requests.carol)
               (List.length (interactions (account_user Requests.carol)))
               (uniqueProducts (interactions (account_user Requests.carol)))
               (interactionStats (interactions (account_user Requests.carol)))
               top (account_preferences Requests.carol)
               (account_createdAt Requests.carol))), Scenario.shop) /\
    total_count (interactionStats (interactions (account_user Requests.carol)))
    = Z.of_nat (List.length (interactions (account_user Requests.carol))) /\
    (uniqueProducts (interactions (account_user Requests.carol))
     <= List.length (interactions (account_user Requests.carol)))%nat /\
    (List.length top <= 5)%nat /\
    descending (fun e => inject_Z (snd e)) top /\
    (0 <= total_count top
     <= Z.of_nat (List.length (interactions (account_user Requests.carol))))%Z.
Proof.
  apply (stats_are_consistent Requests.carol Scenario.shop).
  - reflexivity.
  - reflexivity.
  - reflexivity.
Defined.
